(** * Vocalized: the audio visualizer component

    A shallow embedding of [src/components/AudioVisualizer.tsx].  The file
    holds two revisions of the component:

    - [Visualization] : the revision whose handlers are [startVisualization],
      [stopVisualization], [visualize], [draw], [drawLine], [drawCircle] and
      [drawBars] (styles ['line' | 'circle' | 'bar']);
    - [Recording] : the revision whose handlers are [startRecording],
      [stopRecording], [draw], [drawFrame], [drawStraightLine], [drawCircle]
      and [drawBars] (styles ['straight' | 'circle' | 'bar']).

    Modelling conventions.

    - A JavaScript [number] is a real number ([R]); the arithmetic of the
      transforms is read as exact arithmetic, [Math.PI], [Math.cos],
      [Math.sin] and [Math.min] as [PI], [cos], [sin] and [Rmin].
    - A [Uint8Array] is a [list Z]; its elements are samples in [0, 255].
    - The 2D context is a sink of drawing commands: a transform returns the
      list of the context calls it makes, in order.
    - React state, refs and the host objects (streams, audio nodes, the frame
      scheduler, the canvas) are the fields of a [World] record which every
      handler transforms; the host calls a handler makes are appended to the
      world's [trace].
    - A closure is the record of the values it captured when it was created:
      a handler reads React state through the [Props] of the render that
      created it, and refs and host objects through the world. *)

From Stdlib Require Import Reals Lra Lia List ZArith String Bool Arith.
From Stdlib Require Import DecimalString.
Import ListNotations.

Open Scope R_scope.

(** ** The drawing surface *)

(** What may be assigned to [fillStyle] / [strokeStyle]. *)
Inductive Paint : Type :=
| Css (colour : string)
| Rgb (r g b : Z)                         (* the template `rgb(${r}, g, b)` *)
| LinearGradient (x0 y0 x1 y1 : R) (stops : list (R * string)).

(** The calls made on a [CanvasRenderingContext2D]. *)
Inductive Cmd : Type :=
| lineWidth (v : R)
| strokeStyle (p : Paint)
| fillStyle (p : Paint)
| beginPath
| closePath
| moveTo (x y : R)
| lineTo (x y : R)
| arc (x y radius startAngle endAngle : R)
| stroke
| fill
| fillRect (x y w h : R)
| clearRect (x y w h : R).

(** [DOMRectReadOnly], and the [width] / [height] pair of a canvas. *)
Record Rect : Type := { width : R; height : R }.

(** The vertices handed to [moveTo] and [lineTo], in order. *)
Fixpoint vertices (cmds : list Cmd) : list (R * R) :=
  match cmds with
  | [] => []
  | moveTo x y :: rest => (x, y) :: vertices rest
  | lineTo x y :: rest => (x, y) :: vertices rest
  | _ :: rest => vertices rest
  end.

(** How many sub-paths a command list opens. *)
Fixpoint moves (cmds : list Cmd) : nat :=
  match cmds with
  | [] => 0
  | moveTo _ _ :: rest => S (moves rest)
  | _ :: rest => moves rest
  end.

(** The rectangles handed to [fillRect], in order: [(x, y, w, h)]. *)
Fixpoint rects (cmds : list Cmd) : list (R * R * R * R) :=
  match cmds with
  | [] => []
  | fillRect x y w h :: rest => (x, y, w, h) :: rects rest
  | _ :: rest => rects rest
  end.

(** The centres of the arcs drawn, in order. *)
Fixpoint arc_centres (cmds : list Cmd) : list (R * R) :=
  match cmds with
  | [] => []
  | arc x y _ _ _ :: rest => (x, y) :: arc_centres rest
  | _ :: rest => arc_centres rest
  end.

(** The square of the distance between two points. *)
Definition sqdist (c p : R * R) : R :=
  Rsqr (fst p - fst c) + Rsqr (snd p - snd c).

(** A sample of a [Uint8Array]. *)
Definition byte_range (s : Z) : Prop := (0 <= s <= 255)%Z.

(** ** The host *)

(** The outcome of the awaited [navigator.mediaDevices.getUserMedia]. *)
Inductive Acquire : Type :=
| Granted
| Rejected (message : string).

(** The calls a handler makes on the host, as they appear in a world's
    trace.  Streams, audio nodes and frame requests are named by numbers. *)
Inductive Event : Type :=
| opened (stream : nat)             (* getUserMedia resolved with a stream *)
| rejected (message : string)       (* getUserMedia rejected *)
| track_stopped (stream : nat)      (* every track of the stream stopped *)
| disconnected (source : nat)       (* source.disconnect() *)
| context_closed (context : nat)    (* audioContext.close() *)
| frame_requested (handle : nat)    (* requestAnimationFrame *)
| frame_cancelled (handle : nat)    (* cancelAnimationFrame *)
| read_frequency                    (* analyser.getByteFrequencyData *)
| read_time_domain                  (* analyser.getByteTimeDomainData *)
| painted (cmds : list Cmd)         (* calls on the 2D context *)
| console_error (message : string)
| console_log (message : string)
| uncaught.                         (* an exception left the callback *)

Definition is_opened (e : Event) : bool :=
  match e with opened _ => true | _ => false end.

Definition is_track_stopped (e : Event) : bool :=
  match e with track_stopped _ => true | _ => false end.

(** An event of a handler that neither reads samples nor requests a frame,
    and that paints at most the background of the second revision. *)
Definition quiet (e : Event) : Prop :=
  match e with
  | read_frequency | read_time_domain | frame_requested _ => False
  | painted cmds =>
      exists r, cmds = [fillStyle (Css "rgb(20, 20, 20)");
                        fillRect 0 0 (width r) (height r)]
  | _ => True
  end.

(** The counts a mock sample source would keep. *)
Definition opens (t : list Event) : nat := List.length (filter is_opened t).
Definition closes (t : list Event) : nat := List.length (filter is_track_stopped t).

Definition remove_id (n : nat) (l : list nat) : list nat :=
  filter (fun m => negb (Nat.eqb m n)) l.

Definition option_list {A : Type} (o : option A) : list A :=
  match o with Some a => [a] | None => [] end.

Definition is_some {A : Type} (o : option A) : bool :=
  match o with Some _ => true | None => false end.

(** [analyser.fftSize = 2048], hence [analyser.frequencyBinCount]. *)
Definition frequencyBinCount : nat := 1024.

(** How far the effect that lists the devices has come: it awaits
    [getUserMedia], then [enumerateDevices], and other events of the page
    run in between. *)
Inductive Effect : Type :=
| awaiting_permission
| awaiting_devices
| settled.

(** A list without its [k]-th element. *)
Definition remove_nth {A : Type} (k : nat) (l : list A) : list A :=
  firstn k l ++ skipn (S k) l.

(** A number converted to the IDL type [unsigned long]: truncated towards
    zero, modulo 2^32. *)
Definition truncate (x : R) : Z :=
  if Rle_dec 0 x then Int_part x else (- Int_part (- x))%Z.

Definition to_unsigned_long (x : R) : Z := (truncate x mod 2 ^ 32)%Z.

(** What [canvas.width] or [canvas.height] holds after a number is assigned
    to it: the attribute reflects a non-negative integer, and a value above
    2^31 - 1 gives the attribute's default (300 for the width, 150 for the
    height). *)
Definition canvas_dimension (default : Z) (x : R) : R :=
  let n := to_unsigned_long x in
  if (n <=? 2147483647)%Z then IZR n else IZR default.

(** ** Media devices *)

Module Media.

(** [MediaDeviceKind]. *)
Inductive Kind : Type := audioinput | audiooutput | videoinput.

(** [MediaDeviceInfo], as [enumerateDevices] resolves with. *)
Record MediaDeviceInfo : Type := {
  deviceId : string;
  kind : Kind;
  label : string }.

(** [device.kind === 'audioinput']. *)
Definition is_audioinput (device : MediaDeviceInfo) : bool :=
  match kind device with audioinput => true | _ => false end.

(** [label || `Microphone ${deviceId.slice(0, 5)}...`]: the empty string is
    falsy.  (Strings are byte strings here; [slice] counts UTF-16 units.) *)
Definition label_or_default (label deviceId : string) : string :=
  if String.eqb label "" then
    ("Microphone " ++ substring 0 5 deviceId ++ "...")%string
  else label.

(** A non-negative integer inside a template string or appended to one. *)
Definition decimal (n : nat) : string :=
  NilEmpty.string_of_uint (Nat.to_uint n).

End Media.

(** ** First revision *)

Module Visualization.

Inductive VisualizationType : Type := line | circle | bar.

(** [drawLine]: the vertical position of a sample. *)
Definition drawLine_y (height : R) (s : Z) : R :=
  let v := IZR s / 255.0 in
  (height / 2) * (1 - v * 2) + height / 2.

(** The [for] loop of [drawLine]; [n] iterations remain, [i] is the loop
    index and [x] the running abscissa.  A read past the end of [dataArray]
    is taken as 0 (the caller passes [bufferLength = dataArray.length]). *)
Fixpoint drawLine_loop (dataArray : list Z) (sliceWidth height : R)
    (n i : nat) (x : R) : list Cmd :=
  match n with
  | O => []
  | S n' =>
      let y := drawLine_y height (nth i dataArray 0%Z) in
      (if Nat.eqb i 0 then moveTo x y else lineTo x y)
        :: drawLine_loop dataArray sliceWidth height n' (S i) (x + sliceWidth)
  end.

Definition drawLine (dataArray : list Z) (bufferLength : nat)
    (width height : R) : list Cmd :=
  let sliceWidth := width / INR bufferLength in
  [lineWidth 2; strokeStyle (Css "#38bdf8"); beginPath]
    ++ drawLine_loop dataArray sliceWidth height bufferLength 0 0
    ++ [stroke].

(** [drawCircle]: the radius at which sample [s] is plotted. *)
Definition pointRadius (radius : R) (s : Z) : R :=
  let amplitude := IZR s / 255 in
  radius + amplitude * 50.

(** [drawCircle]: the point plotted for index [i] (the source computes it
    twice, once as [x, y] and once as [prevX, prevY] of the next point). *)
Definition drawCircle_point (dataArray : list Z) (bufferLength : nat)
    (centerX centerY radius : R) (i : nat) : R * R :=
  let angle := (INR i / INR bufferLength) * 2 * PI in
  let pointRadius := pointRadius radius (nth i dataArray 0%Z) in
  (centerX + cos angle * pointRadius, centerY + sin angle * pointRadius).

(** The [for (i = 0; i < bufferLength; i += 8)] loop of [drawCircle]. *)
Fixpoint drawCircle_loop (dataArray : list Z) (bufferLength : nat)
    (centerX centerY radius : R) (fuel i : nat) : list Cmd :=
  match fuel with
  | O => []
  | S fuel' =>
      if Nat.ltb i bufferLength then
        let '(x, y) := drawCircle_point dataArray bufferLength centerX centerY radius i in
        [beginPath; arc x y 2 0 (2 * PI); fillStyle (Css "#a78bfa"); fill]
          ++ (if Nat.ltb 0 i then
                let '(prevX, prevY) :=
                  drawCircle_point dataArray bufferLength centerX centerY radius (i - 8) in
                [beginPath; moveTo prevX prevY; lineTo x y;
                 strokeStyle (Css "#a78bfa"); lineWidth 1; stroke]
              else [])
          ++ drawCircle_loop dataArray bufferLength centerX centerY radius fuel' (i + 8)
      else []
  end.

Definition drawCircle (dataArray : list Z) (bufferLength : nat)
    (width height : R) : list Cmd :=
  let centerX := width / 2 in
  let centerY := height / 2 in
  let radius := Rmin width height / 4 in
  [beginPath; arc centerX centerY radius 0 (2 * PI);
   strokeStyle (Css "#a78bfa"); lineWidth 2; stroke]
    ++ drawCircle_loop dataArray bufferLength centerX centerY radius bufferLength 0.

(** The [for] loop of [drawBars], with its [break]. *)
Fixpoint drawBars_loop (dataArray : list Z) (barWidth width height : R)
    (n i : nat) (x : R) : list Cmd :=
  match n with
  | O => []
  | S n' =>
      let s := nth i dataArray 0%Z in
      let barHeight := (IZR s / 255) * height in
      let x' := x + (barWidth + 1) in
      [fillStyle (Rgb (s + 100) 134 244);
       fillRect x (height - barHeight) barWidth barHeight]
        ++ (if Rlt_dec width x' then []
            else drawBars_loop dataArray barWidth width height n' (S i) x')
  end.

Definition drawBars (dataArray : list Z) (bufferLength : nat)
    (width height : R) : list Cmd :=
  let barWidth := (width / INR bufferLength) * 2.5 in
  drawBars_loop dataArray barWidth width height bufferLength 0 0.

(** *** The component *)

(** The React state of the component.  The handlers that read it are those
    of the latest render, so they read it from the world. *)
Record Props : Type := {
  selectedMicrophone : string;
  visualizationType : VisualizationType;
  isRecording : bool }.

Record Refs : Type := {
  audioContextRef : option nat;
  analyserRef : option nat;
  sourceRef : option nat;
  animationRef : nat;                       (* 0 until a frame is requested *)
  streamRef : option nat;
  visualizationTypeRef : VisualizationType }.

(** What the closure [draw] captured from the call of [visualize] that
    created it. *)
Record DrawClosure : Type := {
  analyser : nat;
  bufferLength : nat;
  cwidth : R;
  cheight : R }.

Record Host : Type := {
  canvas : option Rect;          (* canvasRef.current, with its 2D context *)
  frequencyData : list Z;        (* what the analyser delivers now *)
  timeDomainData : list Z;
  liveStreams : list nat;        (* streams whose tracks are not stopped *)
  connected : list nat;          (* source nodes connected to an analyser *)
  counter : nat;                 (* the last number handed out *)
  frames : list (nat * DrawClosure);     (* pending frame requests *)
  effect : Effect;               (* the effect that lists the microphones *)
  starting : nat }.              (* starts whose getUserMedia has not settled *)

Record World : Type := {
  state : Props;
  refs : Refs;
  host : Host;
  trace : list Event }.

Definition on_state (f : Props -> Props) (w : World) : World :=
  {| state := f (state w); refs := refs w; host := host w; trace := trace w |}.
Definition on_refs (f : Refs -> Refs) (w : World) : World :=
  {| state := state w; refs := f (refs w); host := host w; trace := trace w |}.
Definition on_host (f : Host -> Host) (w : World) : World :=
  {| state := state w; refs := refs w; host := f (host w); trace := trace w |}.
Definition emit (e : Event) (w : World) : World :=
  {| state := state w; refs := refs w; host := host w; trace := trace w ++ [e] |}.

Definition setSelectedMicrophone (d : string) : World -> World :=
  on_state (fun p => {| selectedMicrophone := d;
                        visualizationType := visualizationType p;
                        isRecording := isRecording p |}).
Definition setVisualizationType (t : VisualizationType) : World -> World :=
  on_state (fun p => {| selectedMicrophone := selectedMicrophone p;
                        visualizationType := t;
                        isRecording := isRecording p |}).
Definition setIsRecording (b : bool) : World -> World :=
  on_state (fun p => {| selectedMicrophone := selectedMicrophone p;
                        visualizationType := visualizationType p;
                        isRecording := b |}).

Definition set_audioContextRef (v : option nat) : World -> World :=
  on_refs (fun r => {| audioContextRef := v; analyserRef := analyserRef r;
                       sourceRef := sourceRef r; animationRef := animationRef r;
                       streamRef := streamRef r;
                       visualizationTypeRef := visualizationTypeRef r |}).
Definition set_analyserRef (v : option nat) : World -> World :=
  on_refs (fun r => {| audioContextRef := audioContextRef r; analyserRef := v;
                       sourceRef := sourceRef r; animationRef := animationRef r;
                       streamRef := streamRef r;
                       visualizationTypeRef := visualizationTypeRef r |}).
Definition set_sourceRef (v : option nat) : World -> World :=
  on_refs (fun r => {| audioContextRef := audioContextRef r;
                       analyserRef := analyserRef r;
                       sourceRef := v; animationRef := animationRef r;
                       streamRef := streamRef r;
                       visualizationTypeRef := visualizationTypeRef r |}).
Definition set_animationRef (v : nat) : World -> World :=
  on_refs (fun r => {| audioContextRef := audioContextRef r;
                       analyserRef := analyserRef r;
                       sourceRef := sourceRef r; animationRef := v;
                       streamRef := streamRef r;
                       visualizationTypeRef := visualizationTypeRef r |}).
Definition set_streamRef (v : option nat) : World -> World :=
  on_refs (fun r => {| audioContextRef := audioContextRef r;
                       analyserRef := analyserRef r;
                       sourceRef := sourceRef r; animationRef := animationRef r;
                       streamRef := v;
                       visualizationTypeRef := visualizationTypeRef r |}).
Definition set_visualizationTypeRef (v : VisualizationType) : World -> World :=
  on_refs (fun r => {| audioContextRef := audioContextRef r;
                       analyserRef := analyserRef r;
                       sourceRef := sourceRef r; animationRef := animationRef r;
                       streamRef := streamRef r;
                       visualizationTypeRef := v |}).

Definition set_canvas (v : option Rect) : World -> World :=
  on_host (fun h => {| canvas := v; frequencyData := frequencyData h;
                       timeDomainData := timeDomainData h;
                       liveStreams := liveStreams h; connected := connected h;
                       counter := counter h; frames := frames h;
                       effect := effect h; starting := starting h |}).
Definition set_audio (f t : list Z) : World -> World :=
  on_host (fun h => {| canvas := canvas h; frequencyData := f;
                       timeDomainData := t;
                       liveStreams := liveStreams h; connected := connected h;
                       counter := counter h; frames := frames h;
                       effect := effect h; starting := starting h |}).
Definition set_liveStreams (v : list nat) : World -> World :=
  on_host (fun h => {| canvas := canvas h; frequencyData := frequencyData h;
                       timeDomainData := timeDomainData h;
                       liveStreams := v; connected := connected h;
                       counter := counter h; frames := frames h;
                       effect := effect h; starting := starting h |}).
Definition set_connected (v : list nat) : World -> World :=
  on_host (fun h => {| canvas := canvas h; frequencyData := frequencyData h;
                       timeDomainData := timeDomainData h;
                       liveStreams := liveStreams h; connected := v;
                       counter := counter h; frames := frames h;
                       effect := effect h; starting := starting h |}).
Definition set_counter (v : nat) : World -> World :=
  on_host (fun h => {| canvas := canvas h; frequencyData := frequencyData h;
                       timeDomainData := timeDomainData h;
                       liveStreams := liveStreams h; connected := connected h;
                       counter := v; frames := frames h;
                       effect := effect h; starting := starting h |}).
Definition set_frames (v : list (nat * DrawClosure)) : World -> World :=
  on_host (fun h => {| canvas := canvas h; frequencyData := frequencyData h;
                       timeDomainData := timeDomainData h;
                       liveStreams := liveStreams h; connected := connected h;
                       counter := counter h; frames := v;
                       effect := effect h; starting := starting h |}).
Definition set_effect (v : Effect) : World -> World :=
  on_host (fun h => {| canvas := canvas h; frequencyData := frequencyData h;
                       timeDomainData := timeDomainData h;
                       liveStreams := liveStreams h; connected := connected h;
                       counter := counter h; frames := frames h;
                       effect := v; starting := starting h |}).
Definition set_starting (v : nat) : World -> World :=
  on_host (fun h => {| canvas := canvas h; frequencyData := frequencyData h;
                       timeDomainData := timeDomainData h;
                       liveStreams := liveStreams h; connected := connected h;
                       counter := counter h; frames := frames h;
                       effect := effect h; starting := v |}).

(** **** Host calls *)

(** A number never handed out before (and never 0). *)
Definition fresh (w : World) : nat * World :=
  let n := S (counter (host w)) in (n, set_counter n w).

Definition requestAnimationFrame (cl : DrawClosure) (w : World) : nat * World :=
  let '(h, w) := fresh w in
  (h, emit (frame_requested h) (set_frames ((h, cl) :: frames (host w)) w)).

Definition cancelAnimationFrame (h : nat) (w : World) : World :=
  emit (frame_cancelled h)
    (set_frames (filter (fun f => negb (Nat.eqb (fst f) h)) (frames (host w))) w).

Definition getUserMedia (w : World) : nat * World :=
  let '(s, w) := fresh w in
  (s, emit (opened s) (set_liveStreams (s :: liveStreams (host w)) w)).

Definition stopTracks (s : nat) (w : World) : World :=
  emit (track_stopped s) (set_liveStreams (remove_id s (liveStreams (host w))) w).

Definition connect (source : nat) (w : World) : World :=
  set_connected (source :: connected (host w)) w.

Definition disconnect (source : nat) (w : World) : World :=
  emit (disconnected source)
    (set_connected (remove_id source (connected (host w))) w).

(** **** Handlers *)

Definition stopVisualization (w : World) : World :=
  let w :=
    match animationRef (refs w) with
    | O => w                                  (* 0 is falsy *)
    | S _ => cancelAnimationFrame (animationRef (refs w)) w
    end in
  let w :=
    match sourceRef (refs w) with
    | Some source => set_sourceRef None (disconnect source w)
    | None => w
    end in
  let w :=
    match streamRef (refs w) with
    | Some stream => set_streamRef None (stopTracks stream w)
    | None => w
    end in
  setIsRecording false w.

(** The [switch] of [draw]. *)
Definition transform (t : VisualizationType) (dataArray : list Z)
    (cl : DrawClosure) : list Cmd :=
  match t with
  | line => drawLine dataArray (bufferLength cl) (cwidth cl) (cheight cl)
  | circle => drawCircle dataArray (bufferLength cl) (cwidth cl) (cheight cl)
  | bar => drawBars dataArray (bufferLength cl) (cwidth cl) (cheight cl)
  end.

(** One run of the closure [draw].  [raises] tells whether a context call
    of the transform throws; the result tells whether the exception left
    [draw] (there is no handler in it). *)
Definition draw (cl : DrawClosure) (raises : bool) (w : World) : World * bool :=
  let '(h, w) := requestAnimationFrame cl w in
  let w := set_animationRef h w in
  let currentVisualizationType := visualizationTypeRef (refs w) in
  let '(dataArray, w) :=
    match currentVisualizationType with
    | bar => (frequencyData (host w), emit read_frequency w)
    | _ => (timeDomainData (host w), emit read_time_domain w)
    end in
  let w :=
    emit (painted [fillStyle (Css "rgba(15, 23, 42, 0.2)");
                   fillRect 0 0 (cwidth cl) (cheight cl)]) w in
  if raises then (w, true)
  else (emit (painted (transform currentVisualizationType dataArray cl)) w, false).

Definition visualize (raises : bool) (w : World) : World * bool :=
  match canvas (host w), analyserRef (refs w) with
  | Some canvas, Some analyser =>
      let cl := {| analyser := analyser;
                   bufferLength := frequencyBinCount;
                   cwidth := width canvas;
                   cheight := height canvas |} in
      let w := emit (painted [clearRect 0 0 (cwidth cl) (cheight cl)]) w in
      draw cl raises w
  | _, _ => (w, false)
  end.

(** [startVisualization] is asynchronous.  The part that runs at the
    click, up to the [await]: [None] when it returns at its first test. *)
Definition startVisualization_request (w : World) : option World :=
  if String.eqb (selectedMicrophone (state w)) "" then None
  else
    Some match audioContextRef (refs w) with
         | Some _ => w
         | None => let '(c, w) := fresh w in set_audioContextRef (Some c) w
         end.

(** The part that runs when the awaited [getUserMedia] settles, with the
    [catch] block: [acq] is the outcome and [raises] whether the first,
    synchronous run of [draw] throws.  It reads the refs as they are then. *)
Definition startVisualization_settle (acq : Acquire) (raises : bool)
    (w : World) : World :=
  match acq with
  | Rejected message =>
      emit (console_error "Error starting visualization:")
        (emit (rejected message) w)
  | Granted =>
      let '(stream, w) := getUserMedia w in
      let w := set_streamRef (Some stream) w in
      let '(analyser, w) := fresh w in
      let '(source, w) := fresh w in
      let w := connect source w in
      let w := set_analyserRef (Some analyser) w in
      let w := set_sourceRef (Some source) w in
      let w := setIsRecording true w in
      let '(w, threw) := visualize raises w in
      if threw then emit (console_error "Error starting visualization:") w
      else w
  end.

(** [startVisualization] when no other event of the page runs between the
    click and the answer to [getUserMedia]: [acq] is that answer and
    [raises] whether the first, synchronous run of [draw] throws.
    Everything is inside the [try]. *)
Definition startVisualization (acq : Acquire) (raises : bool) (w : World) : World :=
  if String.eqb (selectedMicrophone (state w)) "" then w
  else
    let w :=
      match audioContextRef (refs w) with
      | Some _ => w
      | None => let '(c, w) := fresh w in set_audioContextRef (Some c) w
      end in
    match acq with
    | Rejected message =>
        emit (console_error "Error starting visualization:")
          (emit (rejected message) w)
    | Granted =>
        let '(stream, w) := getUserMedia w in
        let w := set_streamRef (Some stream) w in
        let '(analyser, w) := fresh w in
        let '(source, w) := fresh w in
        let w := connect source w in
        let w := set_analyserRef (Some analyser) w in
        let w := set_sourceRef (Some source) w in
        let w := setIsRecording true w in
        let '(w, threw) := visualize raises w in
        if threw then emit (console_error "Error starting visualization:") w
        else w
    end.

Definition handleToggleRecording (acq : Acquire) (raises : bool) (w : World) : World :=
  if isRecording (state w) then stopVisualization w
  else startVisualization acq raises w.

(** **** The device list *)

(** [getMicrophones], the body of the mount effect, when no other event of
    the page runs between its two [await]s:
    [perm] is the outcome of the awaited [getUserMedia({ audio: true })] and
    [devices] what [enumerateDevices] resolves with.  The first component is
    the list handed to [setMicrophones], if it is called.  The stream the
    permission request resolves with is not kept and its tracks are not
    stopped. *)
Definition getMicrophones (perm : Acquire) (devices : list Media.MediaDeviceInfo)
    (w : World) : option (list Media.MediaDeviceInfo) * World :=
  match perm with
  | Rejected message =>
      (None,
       emit (console_error "Error accessing media devices:")
         (emit (rejected message) w))
  | Granted =>
      let '(_, w) := getUserMedia w in
      let audioInputs := filter Media.is_audioinput devices in
      let w :=
        match audioInputs with
        | first :: _ => setSelectedMicrophone (Media.deviceId first) w
        | [] => w
        end in
      (Some audioInputs, w)
  end.

(** The [<option>]s of the select, as [(value, text)]. *)
Definition microphoneOptions (microphones : list Media.MediaDeviceInfo)
    : list (string * string) :=
  (match microphones with
   | [] => [(""%string, "No microphones found"%string)]
   | _ :: _ => []
   end)
  ++ map (fun mic =>
            (Media.deviceId mic,
             Media.label_or_default (Media.label mic) (Media.deviceId mic)))
       microphones.

(** [getMicrophones] is asynchronous.  The part that runs when the awaited
    [getUserMedia({ audio: true })] settles, with the [catch] block. *)
Definition getMicrophones_permission (perm : Acquire) (w : World) : World :=
  match perm with
  | Rejected message =>
      set_effect settled
        (emit (console_error "Error accessing media devices:")
           (emit (rejected message) w))
  | Granted =>
      let '(_, w) := getUserMedia w in set_effect awaiting_devices w
  end.

(** The part that runs when the awaited [enumerateDevices] resolves; the
    first component is the list handed to [setMicrophones]. *)
Definition getMicrophones_devices (devices : list Media.MediaDeviceInfo)
    (w : World) : list Media.MediaDeviceInfo * World :=
  let audioInputs := filter Media.is_audioinput devices in
  let w :=
    match audioInputs with
    | first :: _ => setSelectedMicrophone (Media.deviceId first) w
    | [] => w
    end in
  (audioInputs, set_effect settled w).

(** **** The component as a transition system *)

(** The events of the page.  The handlers are asynchronous: a click on
    Start runs [startVisualization] up to its [await] ([press]) and the rest
    runs when the promise settles ([settle]), with any other event in
    between; [click] is the run in which the promise settles before the next
    event.  The mount effect runs in two such parts as well. *)
Inductive Input : Type :=
| click (acq : Acquire) (raises : bool)   (* the Start / Stop button *)
| choose_style (t : VisualizationType)     (* the toggle group *)
| choose_microphone (d : string)           (* the select *)
| animation_frame (h : nat) (raises : bool)  (* the scheduler runs request h *)
| resize (r : Rect)                        (* the canvas gets another size *)
| audio (f t : list Z)                     (* the analyser's data moves on *)
| unmount
| press                                    (* the button; a start stays pending *)
| settle (acq : Acquire) (raises : bool)   (* a pending start's promise settles *)
| permission (perm : Acquire)              (* the effect's getUserMedia settles *)
| enumerated (devices : list Media.MediaDeviceInfo).
                                           (* the effect's enumerateDevices resolves *)

Definition find_frame (h : nat) (w : World) : option DrawClosure :=
  option_map snd (find (fun f => Nat.eqb (fst f) h) (frames (host w))).

(** One event of the page.  A style change updates the state and, through
    the effect on [visualizationType], the ref; the select is disabled while
    recording (it offers the listed devices; any id is let through here); a
    frame request runs once and leaves the queue; an exception that leaves a
    frame callback is reported by the host; on unmount the cleanup of the
    effect runs.  The button is that of the latest render, which reads
    [isRecording] as it is at the click; the continuation of a start reads
    only refs, so pending starts are counted, not told apart. *)
Definition step (i : Input) (w : World) : World :=
  match i with
  | click acq raises => handleToggleRecording acq raises w
  | choose_style t => set_visualizationTypeRef t (setVisualizationType t w)
  | choose_microphone d =>
      if isRecording (state w) then w else setSelectedMicrophone d w
  | animation_frame h raises =>
      match find_frame h w with
      | Some cl =>
          let w :=
            set_frames (filter (fun f => negb (Nat.eqb (fst f) h))
                               (frames (host w))) w in
          let '(w, threw) := draw cl raises w in
          if threw then emit uncaught w else w
      | None => w
      end
  | resize r =>
      match canvas (host w) with
      | Some _ => set_canvas (Some r) w
      | None => w
      end
  | audio f t => set_audio f t w
  | unmount => set_canvas None (stopVisualization w)
  | press =>
      if isRecording (state w) then stopVisualization w
      else
        match startVisualization_request w with
        | Some w => set_starting (S (starting (host w))) w
        | None => w
        end
  | settle acq raises =>
      match starting (host w) with
      | O => w
      | S n => startVisualization_settle acq raises (set_starting n w)
      end
  | permission perm =>
      match effect (host w) with
      | awaiting_permission => getMicrophones_permission perm w
      | _ => w
      end
  | enumerated devices =>
      match effect (host w) with
      | awaiting_devices => snd (getMicrophones_devices devices w)
      | _ => w
      end
  end.

Definition run (inputs : list Input) (w : World) : World :=
  fold_left (fun w i => step i w) inputs w.

(** The component as first rendered on a page whose canvas has size
    [canvas0]: no microphone is chosen and the mount effect has just called
    [getUserMedia]. *)
Definition mount (canvas0 : Rect) : World :=
  {| state := {| selectedMicrophone := ""; visualizationType := line;
                 isRecording := false |};
     refs := {| audioContextRef := None; analyserRef := None;
                sourceRef := None; animationRef := 0%nat; streamRef := None;
                visualizationTypeRef := line |};
     host := {| canvas := Some canvas0; frequencyData := [];
                timeDomainData := []; liveStreams := []; connected := [];
                counter := 0%nat; frames := [];
                effect := awaiting_permission; starting := 0%nat |};
     trace := [] |}.

Inductive reachable : World -> Prop :=
| reachable_mount (canvas0 : Rect) : reachable (mount canvas0)
| reachable_step (i : Input) (w : World) :
    reachable w -> reachable (step i w).

(** **** Vocabulary of the lifecycle *)

(** The session refs name exactly what is open on the host, and the counts
    of a mock sample source agree with it. *)
Definition consistent (w : World) : Prop :=
  liveStreams (host w) = option_list (streamRef (refs w))
  /\ connected (host w) = option_list (sourceRef (refs w))
  /\ opens (trace w) = (closes (trace w) + List.length (liveStreams (host w)))%nat.

(** At most the frame request held in [animationRef] is pending, and only
    while recording. *)
Definition one_frame (w : World) : Prop :=
  frames (host w) = []
  \/ (isRecording (state w) = true
      /\ animationRef (refs w) <> 0%nat
      /\ exists cl, frames (host w) = [(animationRef (refs w), cl)]).

Definition invariant (w : World) : Prop :=
  consistent w
  /\ is_some (streamRef (refs w)) = isRecording (state w)
  /\ is_some (sourceRef (refs w)) = isRecording (state w)
  /\ one_frame w.

(** Idle: not recording, no session, no frame request pending. *)
Definition idle (w : World) : Prop :=
  isRecording (state w) = false
  /\ streamRef (refs w) = None /\ sourceRef (refs w) = None
  /\ liveStreams (host w) = [] /\ connected (host w) = []
  /\ frames (host w) = [].

(** Two worlds with the same state, refs and host: they differ at most in
    the record of what was done. *)
Definition same_state (w1 w2 : World) : Prop :=
  state w1 = state w2 /\ refs w1 = refs w2 /\ host w1 = host w2.

(** The streams are accounted for: the live streams are distinct numbers
    the host has handed out, the stream [streamRef] holds is one of them,
    one is held exactly while recording, and the counts of a mock sample
    source differ by the number of live streams. *)
Definition accounted (w : World) : Prop :=
  NoDup (liveStreams (host w))
  /\ Forall (fun s => (s <= counter (host w))%nat) (liveStreams (host w))
  /\ (forall s, streamRef (refs w) = Some s -> In s (liveStreams (host w)))
  /\ opens (trace w) = (closes (trace w) + List.length (liveStreams (host w)))%nat
  /\ is_some (streamRef (refs w)) = isRecording (state w).

(** The handles of the pending frame requests are distinct numbers the
    host has handed out, and so is the one [animationRef] holds unless it
    is 0. *)
Definition handles_bounded (w : World) : Prop :=
  NoDup (map fst (frames (host w)))
  /\ Forall (fun f => (1 <= fst f <= counter (host w))%nat) (frames (host w))
  /\ (animationRef (refs w) <= counter (host w))%nat.

End Visualization.

(** ** Second revision *)

Module Recording.

Inductive VisualizationType : Type := straight | circle | bar.

(** [drawStraightLine]: the vertical position of a sample. *)
Definition drawStraightLine_y (rect : Rect) (s : Z) : R :=
  let centerY := height rect / 2 in
  let percent := IZR s / 255 in
  centerY - percent * (height rect / 2).

(** The [for] loop of [drawStraightLine] over the samples still to plot. *)
Fixpoint drawStraightLine_loop (samples : list Z) (sliceWidth : R)
    (rect : Rect) (i : nat) (x : R) : list Cmd :=
  match samples with
  | [] => []
  | s :: rest =>
      let y := drawStraightLine_y rect s in
      (if Nat.eqb i 0 then moveTo x y else lineTo x y)
        :: drawStraightLine_loop rest sliceWidth rect (S i) (x + sliceWidth)
  end.

Definition drawStraightLine (dataArray : list Z) (rect : Rect) : list Cmd :=
  let sliceWidth := width rect / INR (List.length dataArray) in
  let centerY := height rect / 2 in
  [lineWidth 2; strokeStyle (Css "rgb(0, 255, 0)"); beginPath]
    ++ drawStraightLine_loop dataArray sliceWidth rect 0 0
    ++ [stroke;
        beginPath; strokeStyle (Css "rgba(255, 255, 255, 0.2)");
        moveTo 0 centerY; lineTo (width rect) centerY; stroke].

(** [drawCircle]: the base radius and the radius of a sample. *)
Definition baseRadius (rect : Rect) : R :=
  let centerX := width rect / 2 in
  let centerY := height rect / 2 in
  Rmin centerX centerY * 0.8.

Definition radius (rect : Rect) (s : Z) : R :=
  let percent := IZR s / 255 in
  baseRadius rect * (1 + percent * 0.5).

(** The [for] loop of [drawCircle]; [len] is [dataArray.length]. *)
Fixpoint drawCircle_loop (samples : list Z) (len : nat) (rect : Rect)
    (i : nat) : list Cmd :=
  match samples with
  | [] => []
  | s :: rest =>
      let centerX := width rect / 2 in
      let centerY := height rect / 2 in
      let angle := (INR i * 2 * PI) / INR len in
      let radius := radius rect s in
      let x := centerX + radius * cos angle in
      let y := centerY + radius * sin angle in
      (if Nat.eqb i 0 then moveTo x y else lineTo x y)
        :: drawCircle_loop rest len rect (S i)
  end.

Definition drawCircle (dataArray : list Z) (rect : Rect) : list Cmd :=
  let centerX := width rect / 2 in
  let centerY := height rect / 2 in
  [beginPath; strokeStyle (Css "rgba(255, 255, 255, 0.2)"); lineWidth 1;
   arc centerX centerY (baseRadius rect) 0 (2 * PI); stroke;
   beginPath; strokeStyle (Css "rgb(0, 255, 0)"); lineWidth 2]
    ++ drawCircle_loop dataArray (List.length dataArray) rect 0
    ++ [closePath; stroke].

(** The [for] loop of [drawBars]. *)
Fixpoint drawBars_loop (samples : list Z) (barWidth barSpacing : R)
    (rect : Rect) (x : R) : list Cmd :=
  match samples with
  | [] => []
  | s :: rest =>
      let percent := IZR s / 255 in
      let barHeight := height rect * percent in
      let gradient :=
        LinearGradient 0 (height rect) 0 (height rect - barHeight)
          [(0, "rgb(0, 255, 0)"%string); (1, "rgb(0, 128, 0)"%string)] in
      [fillStyle gradient;
       fillRect x (height rect - barHeight) barWidth barHeight]
        ++ drawBars_loop rest barWidth barSpacing rect (x + (barWidth + barSpacing))
  end.

Definition drawBars (dataArray : list Z) (rect : Rect) : list Cmd :=
  let barCount := List.length dataArray in
  let barWidth := (width rect / INR barCount) * 0.8 in
  let barSpacing := (width rect / INR barCount) * 0.2 in
  drawBars_loop dataArray barWidth barSpacing rect 0.

(** *** The component *)

(** The text shown in the debug line. *)
Inductive DebugInfo : Type :=
| Text (text : string)
| Stats (avg : R) (max : Z) (buffer : nat) (canvas : Rect).
    (* `Avg: ${avg.toFixed(2)}, Max: ${max}, Buffer: ${bufferLength},
        Canvas: ${rect.width}x${rect.height}` *)

(** The React state of the component; also what the closures of one render
    see of it for as long as they live. *)
Record Props : Type := {
  audioContext : option nat;
  analyser : option nat;
  isRecording : bool;
  visualizationType : VisualizationType;
  selectedDevice : string;
  debugInfo : DebugInfo }.

Record Refs : Type := {
  animationFrameId : option nat;
  streamRef : option nat;
  sourceRef : option nat }.

(** What the closure [drawFrame] captured: the state of the render whose
    [draw] created it, and the locals of that call of [draw]. *)
Record FrameClosure : Type := {
  props : Props;
  analyserNode : nat;
  rect : Rect;
  bufferLength : nat }.

(** What the continuation of a [startRecording] that awaits
    [getUserMedia] captured: the state of the render whose button was
    clicked, and the audio context the call created. *)
Record StartClosure : Type := {
  startProps : Props;
  startContext : nat }.

Record Host : Type := {
  mounted : bool;                (* canvasRef.current is the canvas *)
  box : Rect;                    (* canvas.getBoundingClientRect() *)
  size : Rect;                   (* canvas.width, canvas.height *)
  frequencyData : list Z;        (* what the analyser delivers now *)
  liveStreams : list nat;        (* streams whose tracks are not stopped *)
  connected : list nat;          (* source nodes connected to an analyser *)
  contexts : list nat;           (* audio contexts not closed *)
  counter : nat;                 (* the last number handed out *)
  frames : list (nat * FrameClosure);     (* pending frame requests *)
  effect : Effect;               (* the effect that lists the devices *)
  starting : list StartClosure }.   (* starts whose getUserMedia has not settled *)

Record World : Type := {
  state : Props;
  refs : Refs;
  host : Host;
  trace : list Event }.

Definition on_state (f : Props -> Props) (w : World) : World :=
  {| state := f (state w); refs := refs w; host := host w; trace := trace w |}.
Definition on_refs (f : Refs -> Refs) (w : World) : World :=
  {| state := state w; refs := f (refs w); host := host w; trace := trace w |}.
Definition on_host (f : Host -> Host) (w : World) : World :=
  {| state := state w; refs := refs w; host := f (host w); trace := trace w |}.
Definition emit (e : Event) (w : World) : World :=
  {| state := state w; refs := refs w; host := host w; trace := trace w ++ [e] |}.

Definition setAudioContext (v : option nat) : World -> World :=
  on_state (fun p => {| audioContext := v; analyser := analyser p;
                        isRecording := isRecording p;
                        visualizationType := visualizationType p;
                        selectedDevice := selectedDevice p;
                        debugInfo := debugInfo p |}).
Definition setAnalyser (v : option nat) : World -> World :=
  on_state (fun p => {| audioContext := audioContext p; analyser := v;
                        isRecording := isRecording p;
                        visualizationType := visualizationType p;
                        selectedDevice := selectedDevice p;
                        debugInfo := debugInfo p |}).
Definition setIsRecording (v : bool) : World -> World :=
  on_state (fun p => {| audioContext := audioContext p; analyser := analyser p;
                        isRecording := v;
                        visualizationType := visualizationType p;
                        selectedDevice := selectedDevice p;
                        debugInfo := debugInfo p |}).
Definition setVisualizationType (v : VisualizationType) : World -> World :=
  on_state (fun p => {| audioContext := audioContext p; analyser := analyser p;
                        isRecording := isRecording p;
                        visualizationType := v;
                        selectedDevice := selectedDevice p;
                        debugInfo := debugInfo p |}).
Definition setSelectedDevice (v : string) : World -> World :=
  on_state (fun p => {| audioContext := audioContext p; analyser := analyser p;
                        isRecording := isRecording p;
                        visualizationType := visualizationType p;
                        selectedDevice := v;
                        debugInfo := debugInfo p |}).
Definition setDebugInfo (v : DebugInfo) : World -> World :=
  on_state (fun p => {| audioContext := audioContext p; analyser := analyser p;
                        isRecording := isRecording p;
                        visualizationType := visualizationType p;
                        selectedDevice := selectedDevice p;
                        debugInfo := v |}).

Definition set_animationFrameId (v : option nat) : World -> World :=
  on_refs (fun r => {| animationFrameId := v; streamRef := streamRef r;
                       sourceRef := sourceRef r |}).
Definition set_streamRef (v : option nat) : World -> World :=
  on_refs (fun r => {| animationFrameId := animationFrameId r; streamRef := v;
                       sourceRef := sourceRef r |}).
Definition set_sourceRef (v : option nat) : World -> World :=
  on_refs (fun r => {| animationFrameId := animationFrameId r;
                       streamRef := streamRef r; sourceRef := v |}).

Definition set_mounted (v : bool) : World -> World :=
  on_host (fun h => {| mounted := v; box := box h; size := size h;
                       frequencyData := frequencyData h;
                       liveStreams := liveStreams h; connected := connected h;
                       contexts := contexts h; counter := counter h;
                       frames := frames h;
                       effect := effect h; starting := starting h |}).
Definition set_box (v : Rect) : World -> World :=
  on_host (fun h => {| mounted := mounted h; box := v; size := size h;
                       frequencyData := frequencyData h;
                       liveStreams := liveStreams h; connected := connected h;
                       contexts := contexts h; counter := counter h;
                       frames := frames h;
                       effect := effect h; starting := starting h |}).
Definition set_size (v : Rect) : World -> World :=
  on_host (fun h => {| mounted := mounted h; box := box h; size := v;
                       frequencyData := frequencyData h;
                       liveStreams := liveStreams h; connected := connected h;
                       contexts := contexts h; counter := counter h;
                       frames := frames h;
                       effect := effect h; starting := starting h |}).
Definition set_audio (v : list Z) : World -> World :=
  on_host (fun h => {| mounted := mounted h; box := box h; size := size h;
                       frequencyData := v;
                       liveStreams := liveStreams h; connected := connected h;
                       contexts := contexts h; counter := counter h;
                       frames := frames h;
                       effect := effect h; starting := starting h |}).
Definition set_liveStreams (v : list nat) : World -> World :=
  on_host (fun h => {| mounted := mounted h; box := box h; size := size h;
                       frequencyData := frequencyData h;
                       liveStreams := v; connected := connected h;
                       contexts := contexts h; counter := counter h;
                       frames := frames h;
                       effect := effect h; starting := starting h |}).
Definition set_connected (v : list nat) : World -> World :=
  on_host (fun h => {| mounted := mounted h; box := box h; size := size h;
                       frequencyData := frequencyData h;
                       liveStreams := liveStreams h; connected := v;
                       contexts := contexts h; counter := counter h;
                       frames := frames h;
                       effect := effect h; starting := starting h |}).
Definition set_contexts (v : list nat) : World -> World :=
  on_host (fun h => {| mounted := mounted h; box := box h; size := size h;
                       frequencyData := frequencyData h;
                       liveStreams := liveStreams h; connected := connected h;
                       contexts := v; counter := counter h;
                       frames := frames h;
                       effect := effect h; starting := starting h |}).
Definition set_counter (v : nat) : World -> World :=
  on_host (fun h => {| mounted := mounted h; box := box h; size := size h;
                       frequencyData := frequencyData h;
                       liveStreams := liveStreams h; connected := connected h;
                       contexts := contexts h; counter := v;
                       frames := frames h;
                       effect := effect h; starting := starting h |}).
Definition set_frames (v : list (nat * FrameClosure)) : World -> World :=
  on_host (fun h => {| mounted := mounted h; box := box h; size := size h;
                       frequencyData := frequencyData h;
                       liveStreams := liveStreams h; connected := connected h;
                       contexts := contexts h; counter := counter h;
                       frames := v;
                       effect := effect h; starting := starting h |}).
Definition set_effect (v : Effect) : World -> World :=
  on_host (fun h => {| mounted := mounted h; box := box h; size := size h;
                       frequencyData := frequencyData h;
                       liveStreams := liveStreams h; connected := connected h;
                       contexts := contexts h; counter := counter h;
                       frames := frames h;
                       effect := v; starting := starting h |}).
Definition set_starting (v : list StartClosure) : World -> World :=
  on_host (fun h => {| mounted := mounted h; box := box h; size := size h;
                       frequencyData := frequencyData h;
                       liveStreams := liveStreams h; connected := connected h;
                       contexts := contexts h; counter := counter h;
                       frames := frames h;
                       effect := effect h; starting := v |}).

(** **** Host calls *)

(** A number never handed out before (and never 0). *)
Definition fresh (w : World) : nat * World :=
  let n := S (counter (host w)) in (n, set_counter n w).

Definition requestAnimationFrame (cl : FrameClosure) (w : World) : nat * World :=
  let '(h, w) := fresh w in
  (h, emit (frame_requested h) (set_frames ((h, cl) :: frames (host w)) w)).

Definition cancelAnimationFrame (h : nat) (w : World) : World :=
  emit (frame_cancelled h)
    (set_frames (filter (fun f => negb (Nat.eqb (fst f) h)) (frames (host w))) w).

Definition getUserMedia (w : World) : nat * World :=
  let '(s, w) := fresh w in
  (s, emit (opened s) (set_liveStreams (s :: liveStreams (host w)) w)).

Definition stopTracks (s : nat) (w : World) : World :=
  emit (track_stopped s) (set_liveStreams (remove_id s (liveStreams (host w))) w).

Definition connect (source : nat) (w : World) : World :=
  set_connected (source :: connected (host w)) w.

Definition disconnect (source : nat) (w : World) : World :=
  emit (disconnected source)
    (set_connected (remove_id source (connected (host w))) w).

Definition newAudioContext (w : World) : nat * World :=
  let '(c, w) := fresh w in (c, set_contexts (c :: contexts (host w)) w).

Definition closeContext (c : nat) (w : World) : World :=
  emit (context_closed c) (set_contexts (remove_id c (contexts (host w))) w).

(** **** Handlers *)

(** [stopRecording] as created by a render that saw the state [p]. *)
Definition stopRecording (p : Props) (w : World) : World :=
  let w :=
    match animationFrameId (refs w) with
    | Some h => set_animationFrameId None (cancelAnimationFrame h w)
    | None => w
    end in
  let w :=
    match streamRef (refs w) with
    | Some stream => set_streamRef None (stopTracks stream w)
    | None => w
    end in
  let w :=
    match sourceRef (refs w) with
    | Some source => set_sourceRef None (disconnect source w)
    | None => w
    end in
  let w :=
    match audioContext p with
    | Some c => setAudioContext None (closeContext c w)
    | None => w
    end in
  let w := setAnalyser None w in
  let w := setIsRecording false w in
  let w := setDebugInfo (Text "Recording stopped") w in
  if mounted (host w) then
    emit (painted [fillStyle (Css "rgb(20, 20, 20)");
                   fillRect 0 0 (width (size (host w))) (height (size (host w)))]) w
  else w.

(** The [switch] of [drawFrame]. *)
Definition transform (t : VisualizationType) (dataArray : list Z)
    (rect : Rect) : list Cmd :=
  match t with
  | straight => drawStraightLine dataArray rect
  | circle => drawCircle dataArray rect
  | bar => drawBars dataArray rect
  end.

(** One run of the closure [drawFrame].  [raises] tells whether a context
    call of the transform throws.  [ctx] and [canvas] are constants of the
    closure, tested by [draw] before it was created, so the second test of
    them cannot fail. *)
Definition drawFrame (cl : FrameClosure) (raises : bool) (w : World) : World :=
  if negb (isRecording (props cl)) then
    let w := emit (console_log "Recording stopped, cleaning up animation frame") w in
    match animationFrameId (refs w) with
    | Some h => set_animationFrameId None (cancelAnimationFrame h w)
    | None => w
    end
  else
    let dataArray := frequencyData (host w) in
    let w := emit read_frequency w in
    let w :=
      emit (painted [fillStyle (Css "rgb(20, 20, 20)");
                     fillRect 0 0 (width (size (host w))) (height (size (host w)))]) w in
    if raises then
      stopRecording (props cl) (emit (console_error "Error in visualization:") w)
    else
      let w :=
        emit (painted (transform (visualizationType (props cl)) dataArray (rect cl))) w in
      let '(h, w) := requestAnimationFrame cl w in
      let w := set_animationFrameId (Some h) w in
      let sum := fold_left Z.add dataArray 0%Z in
      let max := fold_left Z.max dataArray 0%Z in
      let avg := IZR sum / INR (bufferLength cl) in
      setDebugInfo (Stats avg max (bufferLength cl) (rect cl)) w.

(** [draw] as created by a render that saw the state [p]. *)
Definition draw (p : Props) (analyserNode : nat) (raises : bool) (w : World) : World :=
  if mounted (host w) then
    let rect := box (host w) in
    let w :=
      set_size {| width := canvas_dimension 300 (width rect);
                  height := canvas_dimension 150 (height rect) |} w in
    let cl := {| props := p; analyserNode := analyserNode; rect := rect;
                 bufferLength := frequencyBinCount |} in
    drawFrame cl raises w
  else
    setDebugInfo (Text "Cannot draw: missing canvas or context")
      (emit (console_error "Missing required elements:") w).

(** [startRecording] is asynchronous.  The part that runs at the click, up
    to the [await], for the handler of a render that saw the state [p]: the
    first component is the audio context it created, [None] when it returns
    at its first test. *)
Definition startRecording_request (p : Props) (w : World) : option nat * World :=
  if String.eqb (selectedDevice p) "" then
    (None, setDebugInfo (Text "No device selected") w)
  else
    let w := stopRecording p w in
    let '(context, w) := newAudioContext w in
    (Some context, w).

(** The part that runs when the awaited [getUserMedia] settles, with the
    [catch] block: [context] is the audio context of that call, [acq] the
    outcome and [raises] whether the transform of the first, synchronous
    frame throws. *)
Definition startRecording_settle (p : Props) (context : nat) (acq : Acquire)
    (raises : bool) (w : World) : World :=
  match acq with
  | Rejected errorMessage =>
      let w := emit (rejected errorMessage) w in
      let w := emit (console_error "Error starting recording:") w in
      let w :=
        setDebugInfo (Text ("Error starting recording: " ++ errorMessage)) w in
      stopRecording p w
  | Granted =>
      let '(stream, w) := getUserMedia w in
      let '(source, w) := fresh w in
      let '(analyserNode, w) := fresh w in
      let w := connect source w in
      let w := set_streamRef (Some stream) w in
      let w := set_sourceRef (Some source) w in
      let w := setAudioContext (Some context) w in
      let w := setAnalyser (Some analyserNode) w in
      let w := setIsRecording true w in
      let w := setDebugInfo (Text "Recording started") w in
      draw p analyserNode raises w
  end.

(** [startRecording] as created by a render that saw the state [p], when no
    other event of the page runs between the click and the answer to
    [getUserMedia]: [acq] is that answer and [raises] whether the transform
    of the first, synchronous frame throws. *)
Definition startRecording (p : Props) (acq : Acquire) (raises : bool)
    (w : World) : World :=
  if String.eqb (selectedDevice p) "" then
    setDebugInfo (Text "No device selected") w
  else
    let w := stopRecording p w in
    let '(context, w) := newAudioContext w in
    match acq with
    | Rejected errorMessage =>
        let w := emit (rejected errorMessage) w in
        let w := emit (console_error "Error starting recording:") w in
        let w :=
          setDebugInfo (Text ("Error starting recording: " ++ errorMessage)) w in
        stopRecording p w
    | Granted =>
        let '(stream, w) := getUserMedia w in
        let '(source, w) := fresh w in
        let '(analyserNode, w) := fresh w in
        let w := connect source w in
        let w := set_streamRef (Some stream) w in
        let w := set_sourceRef (Some source) w in
        let w := setAudioContext (Some context) w in
        let w := setAnalyser (Some analyserNode) w in
        let w := setIsRecording true w in
        let w := setDebugInfo (Text "Recording started") w in
        draw p analyserNode raises w
    end.

(** The state seen by the first render, whose [stopRecording] is the
    cleanup of the effect. *)
Definition props0 : Props :=
  {| audioContext := None; analyser := None; isRecording := false;
     visualizationType := straight; selectedDevice := "";
     debugInfo := Text "" |}.

(** **** The device list *)

(** [interface AudioDevice]. *)
Record AudioDevice : Type := {
  deviceId : string;
  label : string }.

(** [loadAudioDevices], the body of the first effect, when no other event
    of the page runs between its two [await]s:
    [perm] is the outcome of the awaited [getUserMedia({ audio: true })],
    [devices] what [enumerateDevices] resolves with, and [stillMounted] the
    effect's flag [mounted] when the promises resolve.  The first component
    is the list handed to [setAudioDevices], if it is called.  The effect
    runs once, so its closure sees the state of the first render. *)
Definition loadAudioDevices (perm : Acquire) (devices : list Media.MediaDeviceInfo)
    (stillMounted : bool) (w : World) : option (list AudioDevice) * World :=
  match perm with
  | Rejected errorMessage =>
      let w := emit (rejected errorMessage) w in
      let w := emit (console_error "Error loading audio devices:") w in
      if stillMounted then
        (None, setDebugInfo (Text ("Error loading devices: " ++ errorMessage)) w)
      else (None, w)
  | Granted =>
      let '(initialStream, w) := getUserMedia w in
      let w := stopTracks initialStream w in
      let audioInputs :=
        map (fun device =>
               {| deviceId := Media.deviceId device;
                  label := Media.label_or_default (Media.label device)
                             (Media.deviceId device) |})
          (filter Media.is_audioinput devices) in
      if stillMounted then
        let w :=
          match audioInputs with
          | first :: _ =>
              if String.eqb (selectedDevice props0) "" then
                setSelectedDevice (deviceId first) w
              else w
          | [] => w
          end in
        (Some audioInputs,
         setDebugInfo
           (Text ("Audio devices loaded: "
                  ++ Media.decimal (List.length audioInputs))) w)
      else (None, w)
  end.

(** [loadAudioDevices] is asynchronous.  The part that runs when the
    awaited [getUserMedia({ audio: true })] settles, with the [catch]
    block. *)
Definition loadAudioDevices_permission (perm : Acquire) (stillMounted : bool)
    (w : World) : World :=
  match perm with
  | Rejected errorMessage =>
      let w := emit (rejected errorMessage) w in
      let w := emit (console_error "Error loading audio devices:") w in
      let w :=
        if stillMounted then
          setDebugInfo (Text ("Error loading devices: " ++ errorMessage)) w
        else w in
      set_effect settled w
  | Granted =>
      let '(initialStream, w) := getUserMedia w in
      let w := stopTracks initialStream w in
      set_effect awaiting_devices w
  end.

(** The part that runs when the awaited [enumerateDevices] resolves; the
    first component is the list handed to [setAudioDevices], if it is
    called. *)
Definition loadAudioDevices_devices (devices : list Media.MediaDeviceInfo)
    (stillMounted : bool) (w : World) : option (list AudioDevice) * World :=
  let audioInputs :=
    map (fun device =>
           {| deviceId := Media.deviceId device;
              label := Media.label_or_default (Media.label device)
                         (Media.deviceId device) |})
      (filter Media.is_audioinput devices) in
  if stillMounted then
    let w :=
      match audioInputs with
      | first :: _ =>
          if String.eqb (selectedDevice props0) "" then
            setSelectedDevice (deviceId first) w
          else w
      | [] => w
      end in
    (Some audioInputs,
     set_effect settled
       (setDebugInfo
          (Text ("Audio devices loaded: "
                 ++ Media.decimal (List.length audioInputs))) w))
  else (None, set_effect settled w).

(** **** The component as a transition system *)

(** The events of the page.  The handlers are asynchronous: a click on
    Start runs [startRecording] up to its [await] ([press]) and the rest runs
    when the promise settles ([settle], for the [k]-th pending start), with
    any other event in between; [click] is the run in which the promise
    settles before the next event.  The effect that lists the devices runs
    in two such parts as well. *)
Inductive Input : Type :=
| click (acq : Acquire) (raises : bool)   (* the Start / Stop button *)
| choose_style (t : VisualizationType)     (* the toggle group *)
| choose_device (d : string)               (* the select *)
| animation_frame (h : nat) (raises : bool)  (* the scheduler runs request h *)
| resize (r : Rect)                        (* the layout box of the canvas moves *)
| audio (f : list Z)                       (* the analyser's data moves on *)
| unmount
| press                                    (* the button; a start stays pending *)
| settle (k : nat) (acq : Acquire) (raises : bool)
                                           (* a pending start's promise settles *)
| permission (perm : Acquire)              (* the effect's getUserMedia settles *)
| enumerated (devices : list Media.MediaDeviceInfo).
                                           (* the effect's enumerateDevices resolves *)

Definition find_frame (h : nat) (w : World) : option FrameClosure :=
  option_map snd (find (fun f => Nat.eqb (fst f) h) (frames (host w))).

(** One event of the page.  The button and the select belong to the latest
    render, whose closures see the current state; the select is disabled
    while recording (it offers the listed devices; any id is let through
    here); a frame request runs once and leaves the queue; on unmount the
    canvas ref is cleared, the first effect's flag [mounted] is cleared with
    it, and the cleanup of the first render's second effect runs.  The
    continuation of a start keeps the state and the context of its own
    call. *)
Definition step (i : Input) (w : World) : World :=
  match i with
  | click acq raises =>
      if isRecording (state w) then stopRecording (state w) w
      else startRecording (state w) acq raises w
  | choose_style t => setVisualizationType t w
  | choose_device d =>
      if isRecording (state w) then w else setSelectedDevice d w
  | animation_frame h raises =>
      match find_frame h w with
      | Some cl =>
          drawFrame cl raises
            (set_frames (filter (fun f => negb (Nat.eqb (fst f) h))
                                (frames (host w))) w)
      | None => w
      end
  | resize r => set_box r w
  | audio f => set_audio f w
  | unmount => stopRecording props0 (set_mounted false w)
  | press =>
      if isRecording (state w) then stopRecording (state w) w
      else
        match startRecording_request (state w) w with
        | (Some context, w') =>
            set_starting
              (starting (host w')
               ++ [{| startProps := state w; startContext := context |}]) w'
        | (None, w') => w'
        end
  | settle k acq raises =>
      match nth_error (starting (host w)) k with
      | Some cl =>
          startRecording_settle (startProps cl) (startContext cl) acq raises
            (set_starting (remove_nth k (starting (host w))) w)
      | None => w
      end
  | permission perm =>
      match effect (host w) with
      | awaiting_permission =>
          loadAudioDevices_permission perm (mounted (host w)) w
      | _ => w
      end
  | enumerated devices =>
      match effect (host w) with
      | awaiting_devices =>
          snd (loadAudioDevices_devices devices (mounted (host w)) w)
      | _ => w
      end
  end.

Definition run (inputs : list Input) (w : World) : World :=
  fold_left (fun w i => step i w) inputs w.

(** The component as first rendered on a page where the canvas is laid out
    in [box0]: no device is chosen and the first effect has just called
    [getUserMedia]. *)
Definition mount (box0 : Rect) : World :=
  {| state := props0;
     refs := {| animationFrameId := None; streamRef := None; sourceRef := None |};
     host := {| mounted := true; box := box0;
                size := {| width := 800; height := 400 |};
                frequencyData := []; liveStreams := []; connected := [];
                contexts := []; counter := 0%nat; frames := [];
                effect := awaiting_permission; starting := [] |};
     trace := [] |}.

Inductive reachable : World -> Prop :=
| reachable_mount (box0 : Rect) : reachable (mount box0)
| reachable_step (i : Input) (w : World) :
    reachable w -> reachable (step i w).

(** **** Vocabulary of the lifecycle *)

(** The session refs name exactly what is open on the host, and the counts
    of a mock sample source agree with it. *)
Definition consistent (w : World) : Prop :=
  liveStreams (host w) = option_list (streamRef (refs w))
  /\ connected (host w) = option_list (sourceRef (refs w))
  /\ opens (trace w) = (closes (trace w) + List.length (liveStreams (host w)))%nat.

(** At most the frame request held in [animationFrameId] is pending. *)
Definition one_frame (w : World) : Prop :=
  forall f, In f (frames (host w)) -> animationFrameId (refs w) = Some (fst f).

Definition invariant (w : World) : Prop :=
  consistent w
  /\ is_some (streamRef (refs w)) = isRecording (state w)
  /\ is_some (sourceRef (refs w)) = isRecording (state w)
  /\ frames (host w) = []
  /\ animationFrameId (refs w) = None.

(** Idle: not recording, no session, no frame request pending. *)
Definition idle (w : World) : Prop :=
  isRecording (state w) = false
  /\ refs w = {| animationFrameId := None; streamRef := None; sourceRef := None |}
  /\ liveStreams (host w) = [] /\ connected (host w) = []
  /\ frames (host w) = [].

(** Two worlds with the same state, refs and host: they differ at most in
    the record of what was done. *)
Definition same_state (w1 w2 : World) : Prop :=
  state w1 = state w2 /\ refs w1 = refs w2 /\ host w1 = host w2.

(** Two worlds with the same recording flag, refs, streams, connections
    and pending frame requests. *)
Definition same_lifecycle (w1 w2 : World) : Prop :=
  isRecording (state w1) = isRecording (state w2)
  /\ refs w1 = refs w2
  /\ liveStreams (host w1) = liveStreams (host w2)
  /\ connected (host w1) = connected (host w2)
  /\ frames (host w1) = frames (host w2).

(** The streams are accounted for: the live streams are distinct numbers
    the host has handed out, the stream [streamRef] holds is one of them,
    one is held exactly while recording, and the counts of a mock sample
    source differ by the number of live streams. *)
Definition accounted (w : World) : Prop :=
  NoDup (liveStreams (host w))
  /\ Forall (fun s => (s <= counter (host w))%nat) (liveStreams (host w))
  /\ (forall s, streamRef (refs w) = Some s -> In s (liveStreams (host w)))
  /\ opens (trace w) = (closes (trace w) + List.length (liveStreams (host w)))%nat
  /\ is_some (streamRef (refs w)) = isRecording (state w).

(** No frame request is pending or held, and every start that awaits its
    stream was made by a render that was not recording. *)
Definition stale (w : World) : Prop :=
  frames (host w) = []
  /\ animationFrameId (refs w) = None
  /\ Forall (fun cl => isRecording (startProps cl) = false) (starting (host w)).

(** The context [c] is known to the state or to a start that awaits its
    stream: a [stopRecording] that may still run would close it. *)
Definition named (c : nat) (w : World) : Prop :=
  audioContext (state w) = Some c
  \/ Exists (fun cl => audioContext (startProps cl) = Some c) (starting (host w)).

(** The audio contexts are tracked: every context the state or a pending
    start knows of is a number the host has handed out; the contexts the
    pending starts created are distinct, open and known to nobody else; and
    while recording the state names an open context. *)
Definition contexts_tracked (w : World) : Prop :=
  (forall c, named c w -> (c <= counter (host w))%nat)
  /\ Forall (fun cl => (startContext cl <= counter (host w))%nat
                       /\ In (startContext cl) (contexts (host w))
                       /\ ~ named (startContext cl) w)
       (starting (host w))
  /\ NoDup (map startContext (starting (host w)))
  /\ (isRecording (state w) = true ->
      exists c, audioContext (state w) = Some c /\ In c (contexts (host w))).

(** An audio context that is open and out of reach: neither the state nor
    a pending start names it, and it is not the context of a pending
    start. *)
Definition leaked (c : nat) (w : World) : Prop :=
  In c (contexts (host w))
  /\ ~ named c w
  /\ (c <= counter (host w))%nat
  /\ ~ In c (map startContext (starting (host w))).

End Recording.

(** ** Scenarios *)

Definition surface : Rect := {| width := 800; height := 400 |}.
Definition small_surface : Rect := {| width := 400; height := 200 |}.

(** First revision: a microphone is chosen and Start is clicked, the
    stream is granted. *)
Definition visualizing : Visualization.World :=
  Visualization.run
    [Visualization.choose_microphone "mic-1"; Visualization.click Granted false]
    (Visualization.mount surface).

(** Second revision: a device is chosen and Start Recording is clicked, the
    stream is granted. *)
Definition recording : Recording.World :=
  Recording.run
    [Recording.choose_device "mic-1"; Recording.click Granted false]
    (Recording.mount surface).

(** A buffer of [frequencyBinCount] samples, all 0. *)
Definition zeros : list Z := repeat 0%Z frequencyBinCount.

(** The one audio input of a page. *)
Definition built_in_microphone : Media.MediaDeviceInfo :=
  {| Media.deviceId := "mic-1"; Media.kind := Media.audioinput;
     Media.label := "Built-in microphone" |}.

(** Second revision, in use: the permission is granted and the devices are
    listed, which selects the microphone; Start Recording is clicked and the
    stream is granted; the style is switched to bars and the analyser has a
    buffer to deliver. *)
Definition recording_bars : Recording.World :=
  Recording.run
    [Recording.permission Granted; Recording.enumerated [built_in_microphone];
     Recording.click Granted false; Recording.choose_style Recording.bar;
     Recording.audio zeros]
    (Recording.mount surface).

(** First revision, in use: the permission is granted and the devices are
    listed, which selects the microphone; Start is clicked and the stream is
    granted. *)
Definition listed_then_started : Visualization.World :=
  Visualization.run
    [Visualization.permission Granted;
     Visualization.enumerated [built_in_microphone];
     Visualization.click Granted false]
    (Visualization.mount surface).

(** First revision: Start is clicked twice before the first request is
    answered, then both requests are granted. *)
Definition started_twice : Visualization.World :=
  Visualization.run
    [Visualization.choose_microphone "mic-1";
     Visualization.press; Visualization.press;
     Visualization.settle Granted false; Visualization.settle Granted false]
    (Visualization.mount surface).

(** Second revision: the same two clicks. *)
Definition recording_twice : Recording.World :=
  Recording.run
    [Recording.choose_device "mic-1";
     Recording.press; Recording.press;
     Recording.settle 0 Granted false; Recording.settle 0 Granted false]
    (Recording.mount surface).

(** First revision, while visualizing: the canvas is resized, the analyser
    has an all-zero buffer to deliver, and the pending frame request
    (number 5) is run. *)
Definition frame_after_resize : Visualization.World :=
  Visualization.run
    [Visualization.resize small_surface; Visualization.audio zeros zeros;
     Visualization.animation_frame 5 false]
    visualizing.

(** First revision, while visualizing: the pending frame request is run and
    its transform throws. *)
Definition frame_with_fault : Visualization.World :=
  Visualization.run [Visualization.animation_frame 5 true] visualizing.

(** First revision: a microphone is chosen, Start is clicked, the stream is
    refused. *)
Definition refused : Visualization.World :=
  Visualization.run
    [Visualization.choose_microphone "mic-1";
     Visualization.click (Rejected "Permission denied") false]
    (Visualization.mount surface).

(** Second revision: a [drawFrame] closure whose render saw
    [isRecording = true] and the style [t]. *)
Definition frame_closure (t : Recording.VisualizationType) : Recording.FrameClosure :=
  {| Recording.props :=
       {| Recording.audioContext := Some 1%nat;
          Recording.analyser := Some 4%nat;
          Recording.isRecording := true;
          Recording.visualizationType := t;
          Recording.selectedDevice := "mic-1";
          Recording.debugInfo := Recording.Text "Recording started" |};
     Recording.analyserNode := 4%nat;
     Recording.rect := surface;
     Recording.bufferLength := frequencyBinCount |}.

(** * Properties *)

(** ** Command lists *)

Lemma vertices_app (a b : list Cmd) :
  vertices (a ++ b) = vertices a ++ vertices b.
Proof.
  induction a as [|c a IH]; simpl; [reflexivity|].
  destruct c; simpl; rewrite ?IH; reflexivity.
Qed.

Lemma moves_app (a b : list Cmd) :
  moves (a ++ b) = (moves a + moves b)%nat.
Proof.
  induction a as [|c a IH]; simpl; [reflexivity|].
  destruct c; simpl; rewrite ?IH; reflexivity.
Qed.

Lemma arc_centres_app (a b : list Cmd) :
  arc_centres (a ++ b) = arc_centres a ++ arc_centres b.
Proof.
  induction a as [|c a IH]; simpl; [reflexivity|].
  destruct c; simpl; rewrite ?IH; reflexivity.
Qed.

Lemma rects_app (a b : list Cmd) :
  rects (a ++ b) = rects a ++ rects b.
Proof.
  induction a as [|c a IH]; simpl; [reflexivity|].
  destruct c; simpl; rewrite ?IH; reflexivity.
Qed.

(** ** Waveform line *)

Section WaveformLine.

Variable h : R.

Lemma drawLine_y_affine (s : Z) :
  Visualization.drawLine_y h s = h - (h / 255) * IZR s.
Proof. unfold Visualization.drawLine_y. cbv zeta. nra. Qed.

Lemma drawStraightLine_y_affine (w : R) (s : Z) :
  Recording.drawStraightLine_y {| width := w; height := h |} s
  = h / 2 - (h / 510) * IZR s.
Proof. unfold Recording.drawStraightLine_y. simpl. nra. Qed.

(** The loop of [drawLine] on in-range indices of a constant buffer: every
    vertex has the ordinate of the constant, and a sub-path is opened only
    at index 0. *)
Lemma drawLine_loop_constant (c : Z) (m : nat) (sliceWidth : R) :
  forall (n i : nat) (x : R),
    (i + n <= m)%nat ->
    Forall (fun p => snd p = Visualization.drawLine_y h c)
      (vertices (Visualization.drawLine_loop (repeat c m) sliceWidth h n i x))
    /\ moves (Visualization.drawLine_loop (repeat c m) sliceWidth h n i x)
       = (if Nat.eqb i 0 then Nat.min n 1 else 0)%nat
    /\ List.length (vertices (Visualization.drawLine_loop (repeat c m) sliceWidth h n i x)) = n.
Proof.
  induction n as [|n IH]; intros i x Hi.
  - simpl. destruct (Nat.eqb i 0); auto.
  - destruct (IH (S i) (x + sliceWidth)) as (Hv & Hm & Hl); [lia|].
    assert (Hnth : nth i (repeat c m) 0%Z = c)
      by (apply nth_repeat_lt; lia).
    simpl. rewrite Hnth.
    destruct (Nat.eqb i 0) eqn:E; simpl.
    + rewrite Hm. simpl. repeat split; auto. destruct n; reflexivity.
    + rewrite Hm. simpl. repeat split; auto.
  Qed.

Lemma drawStraightLine_loop_constant (c : Z) (r : Rect) (sliceWidth : R) :
  forall (n i : nat) (x : R),
    let cmds := Recording.drawStraightLine_loop (repeat c n) sliceWidth r i x in
    Forall (fun p => snd p = Recording.drawStraightLine_y r c) (vertices cmds)
    /\ List.length (vertices cmds) = n
    /\ vertices cmds = map (fun cmd => match cmd with
                                   | moveTo a b => (a, b)
                                   | lineTo a b => (a, b)
                                   | _ => (0, 0) end) cmds.
Proof.
  induction n as [|n IH]; intros i x; simpl.
  - auto.
  - destruct (IH (S i) (x + sliceWidth)) as (Hv & Hl & Hm).
    destruct (Nat.eqb i 0); simpl; repeat split; auto; try (f_equal; exact Hm).
Qed.

End WaveformLine.

(** C1, as amended.  For every geometry with positive height both revisions
    map the sample value to the ordinate by an affine, strictly decreasing
    function.  The first revision ([drawLine]) sends 0 to the bottom edge
    ([y = height]), 255 to the top edge ([y = 0]) and 128 to
    [height/2 - height/510], just above the centre; a buffer of [n > 0]
    samples all equal to 128 yields one sub-path of [n] vertices, all at that
    ordinate.  The second revision ([drawStraightLine]) sends 0 to the
    vertical centre, 255 to the top edge and 128 to [127 * height / 510]; a
    buffer of all-128 samples yields a data path whose vertices are all at
    that ordinate, followed by the two vertices of the centre guide line. *)
Theorem waveform_line_mapping (h : R) (Hh : 0 < h) :
  (* first revision *)
  (forall s, Visualization.drawLine_y h s = h - (h / 255) * IZR s)
  /\ (forall s1 s2, (s1 < s2)%Z ->
        Visualization.drawLine_y h s2 < Visualization.drawLine_y h s1)
  /\ Visualization.drawLine_y h 0 = h
  /\ Visualization.drawLine_y h 255 = 0
  /\ Visualization.drawLine_y h 128 = h / 2 - h / 510
  /\ (forall (n : nat) (w : R), (0 < n)%nat ->
        let cmds := Visualization.drawLine (repeat 128%Z n) n w h in
        moves cmds = 1%nat
        /\ List.length (vertices cmds) = n
        /\ Forall (fun p => snd p = h / 2 - h / 510) (vertices cmds))
  (* second revision *)
  /\ (forall w s,
        Recording.drawStraightLine_y {| width := w; height := h |} s
        = h / 2 - (h / 510) * IZR s)
  /\ (forall w s1 s2, (s1 < s2)%Z ->
        Recording.drawStraightLine_y {| width := w; height := h |} s2
        < Recording.drawStraightLine_y {| width := w; height := h |} s1)
  /\ (forall w, Recording.drawStraightLine_y {| width := w; height := h |} 0 = h / 2)
  /\ (forall w, Recording.drawStraightLine_y {| width := w; height := h |} 255 = 0)
  /\ (forall w, Recording.drawStraightLine_y {| width := w; height := h |} 128
                = 127 * h / 510)
  /\ (forall (n : nat) (w : R),
        exists path,
          vertices (Recording.drawStraightLine (repeat 128%Z n)
                      {| width := w; height := h |})
          = path ++ [(0, h / 2); (w, h / 2)]
          /\ List.length path = n
          /\ Forall (fun p => snd p = 127 * h / 510) path).
Proof.
  assert (A1 := drawLine_y_affine h).
  assert (A2 := drawStraightLine_y_affine h).
  repeat match goal with |- _ /\ _ => split end.
  - exact A1.
  - intros s1 s2 Hlt. rewrite !A1. apply IZR_lt in Hlt. nra.
  - rewrite A1. lra.
  - rewrite A1. lra.
  - rewrite A1. lra.
  - intros n w Hn cmds. subst cmds. unfold Visualization.drawLine.
    destruct (drawLine_loop_constant h 128 n (w / INR n) n 0 0) as (Hv & Hm & Hl);
      [lia|].
    rewrite !moves_app, !vertices_app, Hm. simpl.
    rewrite !app_nil_r, Hl. repeat split.
    + destruct n; [lia | simpl; lia].
    + eapply Forall_impl; [|exact Hv]. intros p Hp. cbv beta in Hp.
      rewrite Hp, A1. lra.
  - exact A2.
  - intros w s1 s2 Hlt. rewrite !A2. apply IZR_lt in Hlt. nra.
  - intros w. rewrite A2. lra.
  - intros w. rewrite A2. lra.
  - intros w. rewrite A2. lra.
  - intros n w. unfold Recording.drawStraightLine.
    set (r := {| width := w; height := h |}).
    destruct (drawStraightLine_loop_constant 128 r
                (width r / INR (List.length (repeat 128%Z n))) n 0 0)
      as (Hv & Hl & _).
    eexists. rewrite !vertices_app. simpl. split; [reflexivity|]. split.
    + exact Hl.
    + eapply Forall_impl; [|exact Hv]. intros p Hp. cbv beta in Hp.
      rewrite Hp. unfold r. rewrite A2. lra.
Qed.

Lemma waveform_line_mapping_witness :
  0 < 400
  /\ Visualization.drawLine_y 400 0 = 400
  /\ Visualization.drawLine_y 400 255 = 0.
Proof.
  split; [lra|].
  destruct (waveform_line_mapping 400 ltac:(lra)) as (_ & _ & H0 & H255 & _).
  split; assumption.
Defined.

(** C1 fails as stated: on a surface of height 400 the first revision puts
    the sample 128 at [200 - 400/510], not at the centre 200. *)
Lemma waveform_line_128_off_centre :
  Visualization.drawLine_y 400 128 <> 400 / 2.
Proof. rewrite drawLine_y_affine. lra. Qed.

(** ** Radial *)

Lemma sqdist_polar (cx cy r a : R) :
  sqdist (cx, cy) (cx + r * cos a, cy + r * sin a) = Rsqr r.
Proof.
  unfold sqdist. simpl. pose proof (sin2_cos2 a) as H.
  unfold Rsqr in *. nra.
Qed.

Lemma sqdist_polar' (cx cy r a : R) :
  sqdist (cx, cy) (cx + cos a * r, cy + sin a * r) = Rsqr r.
Proof.
  rewrite <- (sqdist_polar cx cy r a). f_equal. f_equal; ring.
Qed.

Section Radial.

Variables w h : R.
Hypothesis Hw : 0 <= w.
Hypothesis Hh : 0 <= h.

Let rect := {| width := w; height := h |}.

Lemma baseRadius_nonneg : 0 <= Recording.baseRadius rect.
Proof.
  unfold Recording.baseRadius. simpl.
  assert (0 <= Rmin (w / 2) (h / 2)) by (apply Rmin_glb; lra).
  nra.
Qed.

Lemma base_radius_nonneg : 0 <= Rmin w h / 4.
Proof. assert (0 <= Rmin w h) by (apply Rmin_glb; lra). lra. Qed.

Lemma byte_range_IZR (s : Z) : byte_range s -> 0 <= IZR s <= 255.
Proof.
  intros [H0 H255]. split.
  - now apply (IZR_le 0).
  - now apply (IZR_le s 255).
Qed.

(** Every vertex of the second revision's data path is at the distance
    [radius rect s] of its sample from the centre. *)
Lemma drawCircle_loop_distance (len : nat) :
  forall (samples : list Z) (i : nat),
    Forall2 (fun s p => sqdist (w / 2, h / 2) p = Rsqr (Recording.radius rect s))
      samples (vertices (Recording.drawCircle_loop samples len rect i)).
Proof.
  induction samples as [|s rest IH]; intros i; simpl.
  - constructor.
  - destruct (Nat.eqb i 0); simpl; constructor; auto using sqdist_polar.
Qed.

(** The first revision's loop goes through the whole buffer with the fuel
    [drawCircle] gives it: more fuel draws nothing more. *)
Lemma drawCircle_loop_fuel (data : list Z) (n : nat) (cx cy r : R) :
  forall (fuel fuel' i : nat),
    (n <= i + 8 * fuel)%nat -> (fuel <= fuel')%nat ->
    Visualization.drawCircle_loop data n cx cy r fuel i
    = Visualization.drawCircle_loop data n cx cy r fuel' i.
Proof.
  induction fuel as [|fuel IH]; intros fuel' i Hn Hf.
  - destruct fuel'; simpl; [reflexivity|].
    destruct (Nat.ltb_spec i n); [lia | reflexivity].
  - destruct fuel' as [|fuel']; [lia|]. simpl.
    destruct (Nat.ltb_spec i n); [|reflexivity].
    rewrite (IH fuel' (i + 8)%nat) by lia. reflexivity.
Qed.

(** Every point the first revision's loop plots, as a dot or as the end of
    a segment, is [drawCircle_point] of an index of the buffer. *)
Lemma drawCircle_loop_points (data : list Z) (n : nat) (cx cy r : R) :
  forall (fuel i : nat),
    let cmds := Visualization.drawCircle_loop data n cx cy r fuel i in
    Forall (fun p => exists j, (j < n)%nat /\
                     p = Visualization.drawCircle_point data n cx cy r j)
      (arc_centres cmds ++ vertices cmds).
Proof.
  induction fuel as [|fuel IH]; intros i; cbv zeta;
    cbn [Visualization.drawCircle_loop]; [constructor|].
  destruct (Nat.ltb_spec i n) as [Hi|Hi]; [|constructor].
  specialize (IH (i + 8)%nat). cbv zeta in IH.
  apply Forall_app in IH. destruct IH as [IHa IHv].
  assert (Pi : exists j, (j < n)%nat /\
                Visualization.drawCircle_point data n cx cy r i
                = Visualization.drawCircle_point data n cx cy r j)
    by (exists i; split; [lia | reflexivity]).
  assert (Pq : exists j, (j < n)%nat /\
                Visualization.drawCircle_point data n cx cy r (i - 8)
                = Visualization.drawCircle_point data n cx cy r j)
    by (exists (i - 8)%nat; split; [lia | reflexivity]).
  destruct (Visualization.drawCircle_point data n cx cy r i) as [x y].
  destruct (Visualization.drawCircle_point data n cx cy r (i - 8)) as [px py].
  destruct (Nat.ltb 0 i);
    rewrite ?arc_centres_app, ?vertices_app;
    cbn [app arc_centres vertices];
    repeat first [ assumption
                 | apply Forall_cons; [assumption|]
                 | apply Forall_app; split ].
Qed.

Lemma drawCircle_point_distance (data : list Z) (n : nat) (cx cy r : R) (j : nat) :
  sqdist (cx, cy) (Visualization.drawCircle_point data n cx cy r j)
  = Rsqr (Visualization.pointRadius r (nth j data 0%Z)).
Proof. unfold Visualization.drawCircle_point. cbv zeta. apply sqdist_polar'. Qed.

End Radial.

Lemma Forall2_repeat_l {A B : Type} (P : A -> B -> Prop) (c : A) :
  forall (n : nat) (l : list B),
    Forall2 P (repeat c n) l -> Forall (P c) l.
Proof.
  induction n as [|n IH]; intros l H; inversion H; subst; constructor; auto.
Qed.

(** C2, as amended.  On a geometry with non-negative sides:
    the second revision plots every sample [s] at the radius
    [baseRadius * (1 + s/255 * 0.5)], so at least at [baseRadius]; every
    vertex of its path is at that distance from the centre; an all-zero
    buffer puts every vertex at exactly [baseRadius] and an all-255 buffer
    at [baseRadius * 1.5].  The first revision plots a sample at
    [radius + s/255 * 50], an offset of at most 50 pixels that does not scale
    with the geometry, so also at least at the base radius; every dot and
    segment end it plots is at that distance from the centre; an all-zero
    buffer puts them at exactly [radius] and an all-255 buffer at
    [radius + 50]. *)
Theorem radial_radius (w h : R) (Hw : 0 <= w) (Hh : 0 <= h) :
  let rect := {| width := w; height := h |} in
  let centre := (w / 2, h / 2) in
  let base2 := Recording.baseRadius rect in
  let base1 := Rmin w h / 4 in
  let loop1 data n :=
    Visualization.drawCircle_loop data n (w / 2) (h / 2) base1 n 0 in
  (* second revision *)
  (forall s, Recording.radius rect s = base2 * (1 + IZR s / 255 * 0.5))
  /\ (forall s, byte_range s -> base2 <= Recording.radius rect s)
  /\ (forall data,
        Forall2 (fun s p => sqdist centre p = Rsqr (Recording.radius rect s))
          data (vertices (Recording.drawCircle data rect)))
  /\ (forall n,
        Forall (fun p => sqdist centre p = Rsqr base2)
          (vertices (Recording.drawCircle (repeat 0%Z n) rect)))
  /\ (forall n,
        Forall (fun p => sqdist centre p = Rsqr (base2 * (1 + 0.5)))
          (vertices (Recording.drawCircle (repeat 255%Z n) rect)))
  (* first revision *)
  /\ (forall s, Visualization.pointRadius base1 s = base1 + IZR s / 255 * 50)
  /\ (forall s, byte_range s -> base1 <= Visualization.pointRadius base1 s)
  /\ (forall data n,
        Visualization.drawCircle data n w h
        = [beginPath; arc (w / 2) (h / 2) base1 0 (2 * PI);
           strokeStyle (Css "#a78bfa"); lineWidth 2; stroke] ++ loop1 data n)
  /\ (forall data n,
        Forall (fun p => exists j, (j < n)%nat /\
                  sqdist centre p
                  = Rsqr (Visualization.pointRadius base1 (nth j data 0%Z)))
          (arc_centres (loop1 data n) ++ vertices (loop1 data n)))
  /\ (forall n,
        Forall (fun p => sqdist centre p = Rsqr base1)
          (arc_centres (loop1 (repeat 0%Z n) n) ++ vertices (loop1 (repeat 0%Z n) n)))
  /\ (forall n,
        Forall (fun p => sqdist centre p = Rsqr (base1 + 50))
          (arc_centres (loop1 (repeat 255%Z n) n)
           ++ vertices (loop1 (repeat 255%Z n) n))).
Proof.
  intros rect centre base2 base1 loop1.
  assert (B2 : 0 <= base2) by (apply baseRadius_nonneg; assumption).
  assert (V2 : forall data,
             Forall2 (fun s p => sqdist centre p = Rsqr (Recording.radius rect s))
               data (vertices (Recording.drawCircle data rect))).
  { intros data. unfold Recording.drawCircle. cbv zeta.
    rewrite !vertices_app. simpl. rewrite app_nil_r.
    apply drawCircle_loop_distance. }
  assert (V1 : forall data n,
             Forall (fun p => exists j, (j < n)%nat /\
                       sqdist centre p
                       = Rsqr (Visualization.pointRadius base1 (nth j data 0%Z)))
               (arc_centres (loop1 data n) ++ vertices (loop1 data n))).
  { intros data n.
    eapply Forall_impl; [|apply drawCircle_loop_points].
    intros p (j & Hj & ->). exists j. split; [exact Hj|].
    apply drawCircle_point_distance. }
  repeat match goal with |- _ /\ _ => split end.
  - reflexivity.
  - intros s Hs. apply byte_range_IZR in Hs.
    unfold Recording.radius. fold rect. fold base2. nra.
  - exact V2.
  - intros n. eapply Forall_impl; [|exact (Forall2_repeat_l _ _ _ _ (V2 _))].
    intros p Hp. cbv beta in Hp. rewrite Hp. f_equal.
    unfold Recording.radius. fold rect. fold base2. lra.
  - intros n. eapply Forall_impl; [|exact (Forall2_repeat_l _ _ _ _ (V2 _))].
    intros p Hp. cbv beta in Hp. rewrite Hp. f_equal.
    unfold Recording.radius. fold rect. fold base2. lra.
  - reflexivity.
  - intros s Hs. apply byte_range_IZR in Hs.
    unfold Visualization.pointRadius. lra.
  - reflexivity.
  - exact V1.
  - intros n. eapply Forall_impl; [|exact (V1 _ n)].
    intros p (j & Hj & ->). rewrite nth_repeat_lt by exact Hj. f_equal.
    unfold Visualization.pointRadius. lra.
  - intros n. eapply Forall_impl; [|exact (V1 _ n)].
    intros p (j & Hj & ->). rewrite nth_repeat_lt by exact Hj. f_equal.
    unfold Visualization.pointRadius. lra.
Qed.

Lemma radial_radius_witness :
  0 <= 400 /\ 0 <= 400
  /\ Recording.radius {| width := 400; height := 400 |} 255
     = Recording.baseRadius {| width := 400; height := 400 |} * (1 + IZR 255 / 255 * 0.5).
Proof.
  split; [lra|]. split; [lra|].
  exact (proj1 (radial_radius 400 400 ltac:(lra) ltac:(lra)) 255%Z).
Defined.

(** C2 fails as stated: in the first revision no one scale constant [k]
    gives the plotted radius as [baseRadius * (1 + v * k)].  On a 400 x 400
    surface a 255 sample is plotted at 150 = 100 * 1.5, on an 800 x 800
    surface at 250 = 200 * 1.25. *)
Lemma radial_offset_is_not_a_scale :
  ~ exists k : R,
      Visualization.pointRadius (Rmin 400 400 / 4) 255
      = (Rmin 400 400 / 4) * (1 + IZR 255 / 255 * k)
      /\ Visualization.pointRadius (Rmin 800 800 / 4) 255
         = (Rmin 800 800 / 4) * (1 + IZR 255 / 255 * k).
Proof.
  intros (k & H1 & H2). unfold Visualization.pointRadius in *.
  rewrite Rmin_left in H1 by lra. rewrite Rmin_left in H2 by lra. lra.
Qed.

(** ** Bars *)

Section Bars.

Variables w h : R.
Hypothesis Hw : 0 <= w.

(** The loop of the first revision: a bar is drawn only at an abscissa
    within [0, w]. *)
Lemma drawBars_loop_positions (data : list Z) (barWidth : R) :
  0 <= barWidth ->
  forall (n i : nat) (x : R),
    0 <= x <= w ->
    Forall (fun r => let '(x', _, bw, _) := r in 0 <= x' <= w /\ bw = barWidth)
      (rects (Visualization.drawBars_loop data barWidth w h n i x)).
Proof.
  intros Hb. induction n as [|n IH]; intros i x Hx; simpl; [constructor|].
  constructor; [split; [exact Hx | reflexivity]|].
  destruct (Rlt_dec w (x + (barWidth + 1))) as [Hout|Hin]; simpl.
  - constructor.
  - apply IH. lra.
Qed.

(** The loop of the second revision: the bars are laid side by side from
    the abscissa [x], one slot of [barWidth + barSpacing] each. *)
Lemma drawBars_loop_slots (rect : Rect) (barWidth barSpacing : R) :
  0 <= barWidth -> 0 <= barSpacing ->
  forall (samples : list Z) (x : R),
    let cmds := Recording.drawBars_loop samples barWidth barSpacing rect x in
    List.length (rects cmds) = List.length samples
    /\ Forall (fun r => let '(x', _, bw, _) := r in
                 x <= x' /\ bw = barWidth
                 /\ x' + (barWidth + barSpacing)
                    <= x + INR (List.length samples) * (barWidth + barSpacing))
         (rects cmds).
Proof.
  intros Hb Hs. induction samples as [|s rest IH]; intros x; cbv zeta.
  - simpl. split; [reflexivity | constructor].
  - destruct (IH (x + (barWidth + barSpacing))) as (Hl & Hf).
    cbn [Recording.drawBars_loop]. rewrite rects_app.
    cbn [rects app List.length]. split; [now rewrite Hl|].
    assert (Hn := pos_INR (List.length rest)).
    rewrite S_INR. constructor.
    + repeat split; nra.
    + eapply Forall_impl; [|exact Hf].
      intros [[[x' y'] bw] bh] (H1 & H2 & H3). repeat split; nra.
Qed.

Lemma slot_width (n : nat) : 0 <= w / INR n.
Proof.
  destruct n as [|n].
  - simpl. unfold Rdiv. rewrite Rinv_0. lra.
  - apply Rmult_le_pos; [exact Hw|].
    apply Rlt_le, Rinv_0_lt_compat, lt_0_INR. lia.
Qed.

End Bars.

(** C3, as amended.  On a geometry of non-negative width:
    the first revision draws a bar only at an abscissa within [0, width]
    (the loop ends at the first abscissa beyond the width), each
    [2.5 * width / bufferLength] wide; nothing is said of the right end of
    the last bar drawn, which may lie beyond the width.
    The second revision draws one bar per sample, each at a non-negative
    abscissa, [0.8 * width / N] wide and wholly within [0, width]; the bars
    and gaps together take [N * (barWidth + barSpacing) <= width]. *)
Theorem bars_layout (w h : R) (Hw : 0 <= w) :
  (forall data n,
     Forall (fun r => let '(x, _, bw, _) := r in
                0 <= x <= w /\ bw = w / INR n * 2.5)
       (rects (Visualization.drawBars data n w h)))
  /\ (forall data,
        let N := List.length data in
        let barWidth := w / INR N * 0.8 in
        let barSpacing := w / INR N * 0.2 in
        let cmds := Recording.drawBars data {| width := w; height := h |} in
        List.length (rects cmds) = N
        /\ Forall (fun r => let '(x, _, bw, _) := r in
                     0 <= x /\ bw = barWidth /\ x + bw <= w)
             (rects cmds)
        /\ INR N * (barWidth + barSpacing) <= w).
Proof.
  split.
  - intros data n. unfold Visualization.drawBars. cbv zeta.
    pose proof (slot_width w Hw n).
    apply drawBars_loop_positions; [nra | lra].
  - intros data N barWidth barSpacing cmds.
    pose proof (slot_width w Hw N) as Hslot.
    assert (Hsum : INR N * (barWidth + barSpacing) <= w).
    { subst barWidth barSpacing. clearbody N. destruct N as [|m].
      - simpl. lra.
      - assert (0 < INR (S m)) by (apply lt_0_INR; lia).
        replace (INR (S m) * (w / INR (S m) * 0.8 + w / INR (S m) * 0.2))
          with (w * (INR (S m) * / INR (S m))) by (unfold Rdiv; nra).
        rewrite Rinv_r by lra. lra. }
    destruct (drawBars_loop_slots {| width := w; height := h |}
                barWidth barSpacing ltac:(subst barWidth; nra)
                ltac:(subst barSpacing; nra) data 0) as (Hl & Hf).
    repeat split.
    + exact Hl.
    + eapply Forall_impl; [|exact Hf].
      intros [[[x y] bw] bh] (H1 & H2 & H3). fold N in H3.
      assert (0 <= barSpacing) by (subst barSpacing; nra).
      repeat split; [exact H1 | exact H2 | subst bw; lra].
    + exact Hsum.
Qed.

Lemma bars_layout_witness :
  0 <= 400
  /\ Forall (fun r => let '(x, _, bw, _) := r in
               0 <= x <= 400 /\ bw = 400 / INR 4 * 2.5)
       (rects (Visualization.drawBars [255; 0; 255; 0]%Z 4 400 200)).
Proof.
  split; [lra|].
  exact (proj1 (bars_layout 400 200 ltac:(lra)) [255; 0; 255; 0]%Z 4%nat).
Defined.

(** C3 fails as stated: with four samples of 255 on a 400 x 200 surface
    the first revision draws a full-height bar of width 250 at abscissa 251,
    so the two bars and the gap between them take 501 > 400 and the second
    bar ends off the surface. *)
Lemma bars_overrun_width :
  exists x y bw bh,
    In (x, y, bw, bh)
       (rects (Visualization.drawBars [255; 255; 255; 255]%Z 4 400 200))
    /\ x = 251 /\ bw = 250 /\ bh = 200 /\ x + bw > 400.
Proof.
  unfold Visualization.drawBars. cbv zeta.
  assert (E : 400 / INR 4 * 2.5 = 250) by (simpl; lra).
  rewrite E. cbn [Visualization.drawBars_loop nth].
  destruct (Rlt_dec 400 (0 + (250 + 1))) as [Hout|_]; [lra|].
  cbn [rects app].
  do 4 eexists. split; [right; left; reflexivity|].
  repeat split; lra.
Qed.

(** ** Radial: points off the surface *)

Lemma drawCircle_first_vertex (s : Z) (rest : list Z) (rect : Rect) :
  vertices (Recording.drawCircle (s :: rest) rect)
  = (width rect / 2 + Recording.radius rect s, height rect / 2)
      :: vertices (Recording.drawCircle_loop rest (S (List.length rest)) rect 1).
Proof.
  unfold Recording.drawCircle. cbv zeta. rewrite !vertices_app.
  cbn [vertices app Recording.drawCircle_loop List.length Nat.eqb].
  rewrite app_nil_r.
  replace (INR 0 * 2 * PI / INR (S (List.length rest))) with 0
    by (simpl INR; unfold Rdiv; ring).
  rewrite cos_0, sin_0. f_equal. f_equal; ring.
Qed.

Lemma drawCircle_first_dot (s : Z) (rest : list Z) (n : nat) (w h : R) :
  In (arc (w / 2 + Visualization.pointRadius (Rmin w h / 4) s) (h / 2)
          2 0 (2 * PI))
     (Visualization.drawCircle (s :: rest) (S n) w h).
Proof.
  unfold Visualization.drawCircle. cbv zeta.
  cbn [Visualization.drawCircle_loop Nat.ltb Nat.leb].
  unfold Visualization.drawCircle_point. cbn [nth].
  replace (INR 0 / INR (S n) * 2 * PI) with 0
    by (simpl INR; unfold Rdiv; ring).
  rewrite cos_0, sin_0.
  apply in_or_app. right. cbn [app]. right. left.
  f_equal; ring.
Qed.

(** The dot of every eighth index below [n] is drawn, given fuel for it. *)
Lemma drawCircle_loop_dot (data : list Z) (n : nat) (cx cy r : R) :
  forall (k fuel i : nat),
    (k < fuel)%nat -> (i + 8 * k < n)%nat ->
    let p := Visualization.drawCircle_point data n cx cy r (i + 8 * k) in
    In (arc (fst p) (snd p) 2 0 (2 * PI))
       (Visualization.drawCircle_loop data n cx cy r fuel i).
Proof.
  induction k as [|k IH]; intros fuel i Hk Hi p; subst p;
    (destruct fuel as [|fuel]; [lia|]);
    cbn [Visualization.drawCircle_loop];
    (destruct (Nat.ltb_spec i n) as [Hlt|Hge]; [|lia]).
  - replace (i + 8 * 0)%nat with i by lia.
    destruct (Visualization.drawCircle_point data n cx cy r i) as [x y].
    right. left. reflexivity.
  - destruct (Visualization.drawCircle_point data n cx cy r i) as [x y].
    apply in_or_app. right. apply in_or_app. right.
    replace (i + 8 * S k)%nat with ((i + 8) + 8 * k)%nat by lia.
    apply IH; lia.
Qed.

(** The point of index 256 of a buffer of 1024 samples is a quarter turn
    from index 0: straight below the centre on the canvas. *)
Lemma drawCircle_quarter_dot (data : list Z) (w h : R) :
  In (arc (w / 2)
          (h / 2 + Visualization.pointRadius (Rmin w h / 4) (nth 256 data 0%Z))
          2 0 (2 * PI))
     (Visualization.drawCircle data frequencyBinCount w h).
Proof.
  unfold Visualization.drawCircle. cbv zeta. apply in_or_app. right.
  assert (H32 : (32 < frequencyBinCount)%nat)
    by (unfold frequencyBinCount; lia).
  assert (H256 : (0 + 8 * 32 < frequencyBinCount)%nat)
    by (unfold frequencyBinCount; lia).
  pose proof (drawCircle_loop_dot data frequencyBinCount (w / 2) (h / 2)
                (Rmin w h / 4) 32 frequencyBinCount 0 H32 H256) as H.
  cbv zeta in H. change (0 + 8 * 32)%nat with 256%nat in H.
  unfold Visualization.drawCircle_point in H. cbn [fst snd] in H.
  replace (INR 256 / INR frequencyBinCount * 2 * PI) with (PI / 2) in H.
  - rewrite cos_PI2, sin_PI2 in H.
    replace (w / 2) with (w / 2 + 0 * Visualization.pointRadius (Rmin w h / 4)
                                        (nth 256 data 0%Z)) at 1 by ring.
    replace (h / 2 + Visualization.pointRadius (Rmin w h / 4) (nth 256 data 0%Z))
      with (h / 2 + 1 * Visualization.pointRadius (Rmin w h / 4)
                          (nth 256 data 0%Z)) by ring.
    exact H.
  - unfold frequencyBinCount. rewrite !INR_IZR_INZ. simpl Z.of_nat. lra.
Qed.

(** C10, as amended.  The radial transform does not keep its points on the
    surface.  Second revision: with a 255 sample at index 0 the first vertex of the
    path is at [0.6 * min(width, height)] to the right of the centre, and on
    a square surface of side [a > 0] its abscissa [1.1 * a] is beyond the
    width.  First revision: a point plotted for a 255 sample is at
    [min(width, height)/4 + 50] from the centre; on a surface whose smaller
    side [m] is below 200 some buffer puts a dot off the surface: when the
    width is the smaller side, a 255 sample at index 0 is drawn at the
    abscissa [0.75 * width + 50 > width]; when the height is, a 255 sample
    at index 256 of the 1024 is drawn at the ordinate
    [0.75 * height + 50 > height]. *)
Theorem radial_leaves_surface (w h a : R)
    (Hw : 0 < w) (Hh : 0 < h) (Ha : 0 < a) :
  (* second revision *)
  (forall rest,
     exists x y tail,
       vertices (Recording.drawCircle (255%Z :: rest) {| width := w; height := h |})
       = (x, y) :: tail
       /\ x - w / 2 = 0.6 * Rmin w h /\ y = h / 2)
  /\ (forall rest,
        exists x y tail,
          vertices (Recording.drawCircle (255%Z :: rest) {| width := a; height := a |})
          = (x, y) :: tail
          /\ x = 1.1 * a /\ a < x)
  (* first revision *)
  /\ (forall data n j,
        nth j data 0%Z = 255%Z ->
        sqdist (w / 2, h / 2)
          (Visualization.drawCircle_point data n (w / 2) (h / 2) (Rmin w h / 4) j)
        = Rsqr (Rmin w h / 4 + 50))
  /\ (forall rest n,
        w <= h -> w < 200 ->
        exists x,
          In (arc x (h / 2) 2 0 (2 * PI))
             (Visualization.drawCircle (255%Z :: rest) (S n) w h)
          /\ x = 0.75 * w + 50 /\ w < x)
  /\ (forall data,
        nth 256 data 0%Z = 255%Z ->
        h <= w -> h < 200 ->
        exists y,
          In (arc (w / 2) y 2 0 (2 * PI))
             (Visualization.drawCircle data frequencyBinCount w h)
          /\ y = 0.75 * h + 50 /\ h < y).
Proof.
  assert (R255 : forall rect, Recording.radius rect 255
                              = 0.6 * Rmin (width rect) (height rect)).
  { intros rect. unfold Recording.radius, Recording.baseRadius. cbv zeta.
    assert (E : Rmin (width rect / 2) (height rect / 2)
                = Rmin (width rect) (height rect) / 2).
    { unfold Rmin. destruct (Rle_dec (width rect / 2) (height rect / 2));
        destruct (Rle_dec (width rect) (height rect)); lra. }
    rewrite E. lra. }
  repeat match goal with |- _ /\ _ => split end.
  - intros rest. do 3 eexists. split; [apply drawCircle_first_vertex|].
    rewrite R255. simpl. split; lra.
  - intros rest. do 3 eexists. split; [apply drawCircle_first_vertex|].
    rewrite R255. simpl. rewrite Rmin_left by lra. split; lra.
  - intros data n j Hj. rewrite drawCircle_point_distance, Hj. f_equal.
    unfold Visualization.pointRadius. lra.
  - intros rest n Hle Hlt. eexists. split; [apply drawCircle_first_dot|].
    unfold Visualization.pointRadius. rewrite Rmin_left by lra. split; lra.
  - intros data Hd Hle Hlt. eexists.
    split; [apply drawCircle_quarter_dot|].
    rewrite Hd. unfold Visualization.pointRadius.
    rewrite Rmin_right by lra. split; lra.
Qed.

Lemma radial_leaves_surface_witness :
  0 < 100 /\ 0 < 100 /\ 0 < 400 /\ 100 <= 100 /\ 100 < 200
  /\ (exists x y tail,
        vertices (Recording.drawCircle [255%Z] {| width := 400; height := 400 |})
        = (x, y) :: tail
        /\ x = 1.1 * 400 /\ 400 < x)
  /\ (exists x,
        In (arc x (100 / 2) 2 0 (2 * PI))
           (Visualization.drawCircle [255%Z] 1 100 100)
        /\ x = 0.75 * 100 + 50 /\ 100 < x).
Proof.
  split; [lra|]. split; [lra|]. split; [lra|]. split; [lra|]. split; [lra|].
  pose proof (radial_leaves_surface 100 100 400
                ltac:(lra) ltac:(lra) ltac:(lra)) as (_ & H2 & _ & H4 & _).
  split.
  - exact (H2 []).
  - exact (H4 [] 0%nat ltac:(lra) ltac:(lra)).
Defined.

(** A smaller side below 200 and a 255 sample at a plotted index do not by
    themselves put a point off the surface.  First revision, a surface of
    800 by 100 and a buffer of 1024 samples whose only non-zero sample is
    the 255 at index 0: that dot is drawn at (475, 50), and every dot and
    every end of a segment is on the surface. *)
Lemma radial_wide_surface_stays_inside :
  let data := 255%Z :: repeat 0%Z 1023 in
  let cmds := Visualization.drawCircle data frequencyBinCount 800 100 in
  Rmin 800 100 < 200
  /\ nth 0 data 0%Z = 255%Z
  /\ In (arc 475 50 2 0 (2 * PI)) cmds
  /\ Forall (fun p => 0 <= fst p <= 800 /\ 0 <= snd p <= 100)
       (arc_centres cmds ++ vertices cmds).
Proof.
  intros data cmds.
  assert (Hm : Rmin 800 100 = 100)
    by (unfold Rmin; destruct (Rle_dec 800 100); lra).
  split; [rewrite Hm; lra|]. split; [reflexivity|]. split.
  - pose proof (drawCircle_first_dot 255 (repeat 0%Z 1023) 1023 800 100) as H.
    replace (800 / 2 + Visualization.pointRadius (Rmin 800 100 / 4) 255)
      with 475 in H
      by (rewrite Hm; unfold Visualization.pointRadius; lra).
    replace (100 / 2) with 50 in H by lra.
    exact H.
  - subst cmds. unfold Visualization.drawCircle. cbv zeta.
    rewrite arc_centres_app, vertices_app. cbn [arc_centres vertices app].
    apply Forall_cons; [cbn [fst snd]; lra|].
    eapply Forall_impl; [|apply drawCircle_loop_points].
    intros p (j & _ & ->). unfold Visualization.drawCircle_point. cbv zeta.
    cbn [fst snd]. rewrite Hm. unfold Visualization.pointRadius.
    destruct j as [|j].
    + replace (INR 0 / INR frequencyBinCount * 2 * PI) with 0
        by (simpl INR; unfold Rdiv; ring).
      rewrite cos_0, sin_0. subst data. cbn [nth]. lra.
    + subst data. cbn [nth]. rewrite nth_repeat.
      pose proof (COS_bound (INR (S j) / INR frequencyBinCount * 2 * PI)).
      pose proof (SIN_bound (INR (S j) / INR frequencyBinCount * 2 * PI)).
      lra.
Qed.

(** ** Lifecycle: counting opens and closes *)

Lemma opens_snoc (t : list Event) (e : Event) :
  opens (t ++ [e]) = (opens t + (if is_opened e then 1 else 0))%nat.
Proof.
  unfold opens. rewrite filter_app, length_app. simpl.
  destruct (is_opened e); reflexivity.
Qed.

Lemma closes_snoc (t : list Event) (e : Event) :
  closes (t ++ [e]) = (closes t + (if is_track_stopped e then 1 else 0))%nat.
Proof.
  unfold closes. rewrite filter_app, length_app. simpl.
  destruct (is_track_stopped e); reflexivity.
Qed.

Lemma remove_id_self (n : nat) : remove_id n [n] = [].
Proof. unfold remove_id. simpl. rewrite Nat.eqb_refl. reflexivity. Qed.

Lemma filter_twice {A : Type} (f : A -> bool) (l : list A) :
  filter f (filter f l) = filter f l.
Proof.
  induction l as [|a l IH]; simpl; [reflexivity|].
  destruct (f a) eqn:E; simpl; rewrite ?E, IH; reflexivity.
Qed.

Lemma remove_id_In (c n : nat) (l : list nat) :
  In c (remove_id n l) <-> In c l /\ c <> n.
Proof.
  unfold remove_id. rewrite filter_In.
  destruct (Nat.eqb_spec c n); simpl; intuition congruence.
Qed.

Lemma remove_id_NoDup (n : nat) (l : list nat) :
  NoDup l -> NoDup (remove_id n l).
Proof. apply NoDup_filter. Qed.

Lemma remove_id_Forall (P : nat -> Prop) (n : nat) (l : list nat) :
  Forall P l -> Forall P (remove_id n l).
Proof.
  rewrite !Forall_forall. intros H x Hx. apply remove_id_In in Hx. apply H, Hx.
Qed.

Lemma remove_id_length (n : nat) (l : list nat) :
  NoDup l -> In n l -> S (List.length (remove_id n l)) = List.length l.
Proof.
  unfold remove_id. induction 1 as [|a l Ha Hl IH]; intros Hin; [destruct Hin|].
  simpl. destruct (Nat.eqb_spec a n) as [->|Hne]; simpl.
  - f_equal. clear IH Hin Hl. induction l as [|b l IH]; [reflexivity|].
    simpl. destruct (Nat.eqb_spec b n) as [->|Hb]; simpl.
    + exfalso. apply Ha. left. reflexivity.
    + f_equal. apply IH. intros H. apply Ha. right. exact H.
  - f_equal. apply IH. destruct Hin as [E|Hin]; [contradiction | exact Hin].
Qed.

Lemma bounded_fresh (c : nat) (l : list nat) :
  Forall (fun s => (s <= c)%nat) l -> ~ In (S c) l.
Proof. rewrite Forall_forall. intros H Hin. apply H in Hin. lia. Qed.

Lemma bounded_mono (c c' : nat) (l : list nat) :
  (c <= c')%nat -> Forall (fun s => (s <= c)%nat) l ->
  Forall (fun s => (s <= c')%nat) l.
Proof. intros Hc. apply Forall_impl. intros s Hs. lia. Qed.

(** Closes one conjunct of [accounted] after a handler has run on a world
    whose fields are explicit. *)
Ltac solve_streams :=
  match goal with
  | |- NoDup (remove_id _ _) => apply remove_id_NoDup; solve_streams
  | |- NoDup (_ :: _) =>
      constructor;
      [ let H := fresh in
        intros H;
        repeat match goal with
               | Hb : Forall _ _ |- _ => rewrite Forall_forall in Hb
               end;
        match goal with
        | Hb : forall x, In x _ -> _ |- _ => apply Hb in H; lia
        end
      | solve_streams ]
  | |- NoDup _ => assumption
  | |- Forall _ (remove_id _ _) => apply remove_id_Forall; solve_streams
  | |- Forall _ (_ :: _) => constructor; [lia | solve_streams]
  | |- Forall _ _ =>
      match goal with
      | Hb : Forall _ ?l |- Forall _ ?l =>
          revert Hb; apply Forall_impl; intros; lia
      end
  | |- forall s, Some _ = Some s -> _ =>
      let s := fresh "s" in
      let E := fresh "E" in
      intros s E; injection E as <-;
      first [ left; reflexivity
            | right; match goal with
                     | Hin : forall s, Some _ = Some s -> _ |- _ =>
                         apply Hin; reflexivity
                     end
            | match goal with
              | Hin : forall s, Some _ = Some s -> _ |- _ =>
                  apply Hin; reflexivity
              end ]
  | |- forall s, None = Some s -> _ =>
      let s := fresh "s" in
      let E := fresh "E" in
      intros s E; discriminate E
  | |- _ = _ :> bool => first [reflexivity | assumption]
  | |- _ = _ :> nat =>
      rewrite ?opens_snoc, ?closes_snoc;
      cbn [is_opened is_track_stopped List.length];
      repeat match goal with
             | Hnd : NoDup ?l, Hin : forall s, Some ?x = Some s -> In s ?l
               |- context [List.length (remove_id ?x ?l)] =>
                 let E := fresh in
                 pose proof (remove_id_length x l Hnd (Hin x eq_refl)) as E;
                 revert E; generalize (List.length (remove_id x l)); intros
             end;
      lia
  end.

(** ** Lifecycle of the first revision *)

Module VisualizationFacts.
Import Visualization.

#[local] Arguments transform : simpl never.

Ltac open_world w :=
  let st := fresh "st" in
  let rf := fresh "rf" in
  let hs := fresh "hs" in
  let tr := fresh "tr" in
  destruct w as [st rf hs tr]; destruct st, rf, hs.

(** Runs the handlers on a world whose fields are explicit, once the tests
    they make have been decided. *)
Ltac run_handlers :=
  cbv beta iota zeta delta
    [handleToggleRecording startVisualization stopVisualization visualize draw
     startVisualization_request startVisualization_settle
     getMicrophones_permission getMicrophones_devices
     requestAnimationFrame cancelAnimationFrame getUserMedia stopTracks
     connect disconnect fresh
     setSelectedMicrophone setVisualizationType setIsRecording
     set_audioContextRef set_analyserRef set_sourceRef set_animationRef
     set_streamRef set_visualizationTypeRef set_canvas set_audio
     set_liveStreams set_connected set_counter set_frames
     set_effect set_starting
     on_state on_refs on_host emit
     state refs host trace
     selectedMicrophone visualizationType isRecording
     audioContextRef analyserRef sourceRef animationRef streamRef
     visualizationTypeRef
     canvas frequencyData timeDomainData liveStreams connected counter frames
     effect starting
     invariant consistent one_frame idle same_state
     fst snd option_list is_some].

Ltac open_invariant H :=
  unfold invariant, consistent, one_frame in H; simpl in H.

Ltac solve_one_frame :=
  first [ left; reflexivity
        | right; split; [reflexivity|]; split;
          [discriminate | eexists; reflexivity] ].

Ltac solve_invariant :=
  run_handlers; simpl;
  rewrite ?Nat.eqb_refl, ?remove_id_self, ?opens_snoc, ?closes_snoc, ?filter_twice;
  simpl in *;
  repeat match goal with |- _ /\ _ => split end;
  try reflexivity; try assumption; try lia; try solve_one_frame.

Lemma vis_invariant_mount (canvas0 : Rect) : invariant (mount canvas0).
Proof. unfold mount. solve_invariant. Qed.



Lemma vis_invariant_stop (w : World) :
  invariant w -> invariant (stopVisualization w) /\ idle (stopVisualization w).
Proof.
  open_world w. intros Hinv. open_invariant Hinv.
  destruct Hinv as ((Hl & Hc & Hn) & Hs1 & Hs2 & Hf).
  destruct sourceRef0, streamRef0; simpl in *; subst; try discriminate;
    destruct Hf as [-> | (_ & Hh & cl & ->)];
    destruct animationRef0 as [|h]; try congruence; solve_invariant.
Qed.

Lemma vis_stop_when_idle (w : World) :
  invariant w -> isRecording (state w) = false ->
  same_state (stopVisualization w) w.
Proof.
  open_world w. intros Hinv Hr. open_invariant Hinv. simpl in Hr.
  destruct Hinv as ((Hl & Hc & Hn) & Hs1 & Hs2 & Hf). subst.
  destruct sourceRef0, streamRef0; simpl in *; try discriminate.
  destruct Hf as [-> | (? & _)]; [|discriminate].
  destruct animationRef0; solve_invariant.
Qed.

Lemma vis_invariant_start (acq : Acquire) (raises : bool) (w : World) :
  invariant w -> isRecording (state w) = false ->
  invariant (startVisualization acq raises w).
Proof.
  open_world w. intros Hinv Hr.
  assert (Hstay := Hinv). open_invariant Hinv. simpl in Hr.
  destruct Hinv as ((Hl & Hc & Hn) & Hs1 & Hs2 & Hf). subst.
  destruct sourceRef0, streamRef0; simpl in *; try discriminate.
  destruct Hf as [-> | (? & _)]; [|discriminate]. subst.
  unfold startVisualization. simpl selectedMicrophone.
  destruct (String.eqb selectedMicrophone0 ""); [exact Hstay|]. clear Hstay.
  destruct audioContextRef0, acq, canvas0, raises, visualizationTypeRef0;
    solve_invariant.
Qed.

Lemma vis_invariant_draw (cl : DrawClosure) (raises : bool) (w : World) :
  invariant w -> isRecording (state w) = true -> frames (host w) = [] ->
  invariant (fst (draw cl raises w)).
Proof.
  open_world w. intros Hinv Hr Hf. open_invariant Hinv. simpl in Hr, Hf.
  destruct Hinv as ((Hl & Hc & Hn) & Hs1 & Hs2 & _). subst.
  destruct sourceRef0, streamRef0; simpl in *; try discriminate.
  destruct raises, visualizationTypeRef0; solve_invariant.
Qed.

Lemma vis_find_frame_one (h : nat) (w : World) (cl : DrawClosure) :
  one_frame w -> find_frame h w = Some cl ->
  isRecording (state w) = true
  /\ filter (fun f => negb (Nat.eqb (fst f) h)) (frames (host w)) = [].
Proof.
  unfold one_frame, find_frame.
  intros [E | (Hr & _ & cl' & E)]; rewrite E; simpl; [discriminate|].
  destruct (Nat.eqb (animationRef (refs w)) h); simpl; [auto | discriminate].
Qed.

(** What the counts say in a world that satisfies the invariant. *)
Lemma vis_invariant_counts (w : World) :
  invariant w ->
  (List.length (liveStreams (host w)) <= 1)%nat
  /\ opens (trace w)
     = (closes (trace w) + (if isRecording (state w) then 1 else 0))%nat.
Proof.
  intros ((Hl & _ & Hn) & Hs & _).
  rewrite Hn, Hl, <- Hs. destruct (streamRef (refs w)); simpl; auto.
Qed.

(** A start whose request is rejected changes no state, closes and opens
    nothing, requests no frame; it logs to the console. *)
Lemma vis_start_rejected (m : string) (raises : bool) (w : World) :
  String.eqb (selectedMicrophone (state w)) "" = false ->
  let w' := startVisualization (Rejected m) raises w in
  state w' = state w
  /\ streamRef (refs w') = streamRef (refs w)
  /\ sourceRef (refs w') = sourceRef (refs w)
  /\ liveStreams (host w') = liveStreams (host w)
  /\ connected (host w') = connected (host w)
  /\ frames (host w') = frames (host w)
  /\ trace w' = trace w ++ [rejected m;
                            console_error "Error starting visualization:"].
Proof.
  intros Hd. unfold startVisualization. rewrite Hd. clear Hd.
  open_world w. destruct audioContextRef0; run_handlers;
    rewrite <- ?app_assoc; repeat split; reflexivity.
Qed.

(** A frame cycle whose transform returns. *)
Lemma vis_draw_returns (cl : DrawClosure) (w : World) :
  let t := visualizationTypeRef (refs w) in
  let data := match t with
              | bar => frequencyData (host w)
              | _ => timeDomainData (host w)
              end in
  exists w',
    draw cl false w = (w', false)
    /\ trace w'
       = trace w
         ++ [frame_requested (S (counter (host w)));
             match t with bar => read_frequency | _ => read_time_domain end;
             painted [fillStyle (Css "rgba(15, 23, 42, 0.2)");
                      fillRect 0 0 (cwidth cl) (cheight cl)];
             painted (transform t data cl)].
Proof.
  open_world w. destruct visualizationTypeRef0; run_handlers;
    rewrite <- ?app_assoc; eexists; split; reflexivity.
Qed.

(** A frame cycle whose transform throws: the exception leaves [draw], the
    state and the session are as before, and the request made at the top of
    the cycle is pending. *)
Lemma vis_draw_throws (cl : DrawClosure) (w : World) :
  exists w',
    draw cl true w = (w', true)
    /\ state w' = state w
    /\ streamRef (refs w') = streamRef (refs w)
    /\ sourceRef (refs w') = sourceRef (refs w)
    /\ liveStreams (host w') = liveStreams (host w)
    /\ connected (host w') = connected (host w)
    /\ frames (host w') = (animationRef (refs w'), cl) :: frames (host w).
Proof.
  open_world w. destruct visualizationTypeRef0; run_handlers;
    eexists; (split; [reflexivity|]); repeat split; reflexivity.
Qed.

(** What a frame cycle does is the same before and after a resize. *)
Lemma vis_draw_ignores_resize (cl : DrawClosure) (raises : bool) (r : Rect) (w : World) :
  trace (fst (draw cl raises (step (resize r) w)))
  = trace (fst (draw cl raises w)).
Proof.
  simpl. open_world w. simpl.
  destruct canvas0, raises, visualizationTypeRef0; run_handlers; reflexivity.
Qed.

(** [visualize] hands the size the canvas has now to the closure it
    requests frames for. *)
Lemma vis_visualize_captures (raises : bool) (w : World) (c : Rect) (a : nat) :
  canvas (host w) = Some c -> analyserRef (refs w) = Some a ->
  exists h,
    frames (host (fst (visualize raises w)))
    = (h, {| analyser := a; bufferLength := frequencyBinCount;
             cwidth := width c; cheight := height c |})
        :: frames (host w).
Proof.
  open_world w. simpl. intros -> ->.
  destruct raises, visualizationTypeRef0; run_handlers; eexists; reflexivity.
Qed.

(** [startVisualization] stops no stream. *)
Lemma vis_start_closes_nothing (acq : Acquire) (raises : bool) (w : World) :
  closes (trace (startVisualization acq raises w)) = closes (trace w).
Proof.
  unfold startVisualization.
  destruct (String.eqb (selectedMicrophone (state w)) ""); [reflexivity|].
  open_world w.
  destruct audioContextRef0, acq, canvas0, raises, visualizationTypeRef0;
    run_handlers; rewrite ?closes_snoc; simpl; lia.
Qed.

(** *** Runs of the page *)

(** [click] is the run of a start in which the promise settles before the
    next event of the page. *)
Lemma vis_click_is_press_settle (acq : Acquire) (raises : bool) (w : World) :
  isRecording (state w) = false ->
  String.eqb (selectedMicrophone (state w)) "" = false ->
  step (settle acq raises) (step press w) = step (click acq raises) w.
Proof.
  intros Hr Hd. cbn [step]. unfold handleToggleRecording. rewrite Hr.
  unfold startVisualization, startVisualization_request. rewrite Hd.
  open_world w. destruct audioContextRef0; reflexivity.
Qed.

(** [getMicrophones] is the run of the mount effect in which nothing
    happens between its two [await]s. *)
Lemma vis_getMicrophones_is_two_steps (perm : Acquire)
    (devices : list Media.MediaDeviceInfo) (w : World) :
  effect (host w) = awaiting_permission ->
  step (enumerated devices) (step (permission perm) w)
  = set_effect settled (snd (getMicrophones perm devices w)).
Proof.
  intros He. cbn [step]. rewrite He. open_world w. simpl in He. subst.
  destruct perm as [|m]; [|reflexivity].
  unfold getMicrophones. run_handlers.
  destruct (filter Media.is_audioinput devices); reflexivity.
Qed.

Ltac open_accounted H :=
  unfold accounted in H; cbn [state refs host trace liveStreams counter
                              streamRef isRecording] in H;
  let Hnd := fresh "Hnd" in
  let Hb := fresh "Hb" in
  let Hin := fresh "Hin" in
  let Hn := fresh "Hn" in
  let Hs := fresh "Hs" in
  destruct H as (Hnd & Hb & Hin & Hn & Hs).

Ltac solve_accounted :=
  run_handlers; unfold accounted;
  cbn [state refs host trace liveStreams counter streamRef isRecording];
  repeat match goal with |- _ /\ _ => split end;
  solve_streams.

Lemma vis_accounted_stop (w : World) :
  accounted w -> accounted (stopVisualization w).
Proof.
  intros H. open_world w. open_accounted H.
  destruct animationRef0 as [|h], sourceRef0, streamRef0; solve_accounted.
Qed.

Lemma vis_accounted_settle (acq : Acquire) (raises : bool) (w : World) :
  accounted w -> accounted (startVisualization_settle acq raises w).
Proof.
  intros H. open_world w. open_accounted H.
  destruct acq, canvas0, analyserRef0, raises, visualizationTypeRef0, streamRef0;
    solve_accounted.
Qed.

Lemma vis_accounted_step (i : Input) (w : World) :
  accounted w -> accounted (step i w).
Proof.
  intros H.
  destruct i as [acq raises | t | d | h raises | r | f t | | | acq raises
                 | perm | devices]; cbn [step].
  - unfold handleToggleRecording.
    case_eq (isRecording (state w)); intros _; [apply vis_accounted_stop, H|].
    unfold startVisualization.
    case_eq (String.eqb (selectedMicrophone (state w)) ""); intros _; [exact H|].
    apply (vis_accounted_settle acq raises).
    open_world w. open_accounted H. destruct audioContextRef0, streamRef0;
      solve_accounted.
  - open_world w. exact H.
  - case_eq (isRecording (state w)); intros _; [exact H|]. open_world w. exact H.
  - destruct (find_frame h w) as [cl|]; [|exact H].
    open_world w. open_accounted H.
    destruct raises, visualizationTypeRef0, streamRef0; solve_accounted.
  - destruct (canvas (host w)); [|exact H]. open_world w. exact H.
  - open_world w. exact H.
  - pose proof (vis_accounted_stop w H) as Hs.
    destruct (stopVisualization w) as [st rf hs tr]. destruct hs. exact Hs.
  - case_eq (isRecording (state w)); intros _; [apply vis_accounted_stop, H|].
    unfold startVisualization_request.
    case_eq (String.eqb (selectedMicrophone (state w)) ""); intros _; [exact H|].
    open_world w. open_accounted H. destruct audioContextRef0, streamRef0;
      solve_accounted.
  - destruct (starting (host w)) as [|n] eqn:E; [exact H|].
    apply vis_accounted_settle. clear E. open_world w. exact H.
  - destruct (effect (host w)); try exact H.
    open_world w. open_accounted H. destruct perm, streamRef0; solve_accounted.
  - destruct (effect (host w)); try exact H.
    open_world w. open_accounted H. unfold getMicrophones_devices.
    destruct (filter Media.is_audioinput devices), streamRef0; solve_accounted.
Qed.

Lemma vis_accounted_mount (canvas0 : Rect) : accounted (mount canvas0).
Proof.
  unfold accounted, mount. simpl.
  repeat split; [constructor | constructor | intros s E; discriminate E].
Qed.

Lemma vis_reachable_accounted (w : World) : reachable w -> accounted w.
Proof.
  induction 1 as [canvas0 | i w _ IH].
  - apply vis_accounted_mount.
  - apply vis_accounted_step, IH.
Qed.



End VisualizationFacts.

(** ** Lifecycle of the second revision *)

Module RecordingFacts.
Import Recording.

#[local] Arguments transform : simpl never.

Ltac open_world w :=
  let st := fresh "st" in
  let rf := fresh "rf" in
  let hs := fresh "hs" in
  let tr := fresh "tr" in
  destruct w as [st rf hs tr]; destruct st, rf, hs.

Ltac open_props p :=
  let ctx := fresh "ctx" in
  let an := fresh "an" in
  let rc := fresh "rc" in
  let vt := fresh "vt" in
  let dev := fresh "dev" in
  let dbg := fresh "dbg" in
  destruct p as [ctx an rc vt dev dbg].

(** Runs the handlers on a world whose fields are explicit, once the tests
    they make have been decided. *)
Ltac run_handlers :=
  cbv beta iota zeta delta
    [startRecording stopRecording draw drawFrame
     startRecording_request startRecording_settle
     loadAudioDevices_permission loadAudioDevices_devices
     requestAnimationFrame cancelAnimationFrame getUserMedia stopTracks
     connect disconnect newAudioContext closeContext fresh
     setAudioContext setAnalyser setIsRecording setVisualizationType
     setSelectedDevice setDebugInfo
     set_animationFrameId set_streamRef set_sourceRef
     set_mounted set_box set_size set_audio set_liveStreams set_connected
     set_contexts set_counter set_frames set_effect set_starting
     on_state on_refs on_host emit
     state refs host trace
     audioContext analyser isRecording visualizationType selectedDevice debugInfo
     animationFrameId streamRef sourceRef
     props analyserNode rect bufferLength startProps startContext
     mounted box size frequencyData liveStreams connected contexts counter frames
     effect starting
     invariant consistent one_frame idle same_state same_lifecycle
     fst snd option_list is_some negb].

Ltac open_invariant H :=
  unfold invariant, consistent, one_frame in H; simpl in H.

Ltac solve_invariant :=
  run_handlers; simpl;
  rewrite ?Nat.eqb_refl, ?remove_id_self, ?opens_snoc, ?closes_snoc,
    ?filter_twice;
  simpl in *;
  repeat match goal with |- _ /\ _ => split end;
  try reflexivity; try assumption; try lia.

Lemma rec_invariant_mount (box0 : Rect) : invariant (mount box0).
Proof. unfold mount, props0. solve_invariant. Qed.



Lemma rec_stop_closes (p : Props) (w : World) :
  let w' := stopRecording p w in
  isRecording (state w') = false
  /\ refs w' = {| animationFrameId := None; streamRef := None; sourceRef := None |}
  /\ debugInfo (state w') = Text "Recording stopped"
  /\ (forall f, In f (frames (host w')) -> In f (frames (host w))).
Proof.
  open_world w. open_props p.
  destruct animationFrameId0, streamRef0, sourceRef0, ctx, mounted0;
    solve_invariant; auto; intros f Hf; apply filter_In in Hf; tauto.
Qed.

Lemma rec_consistent_stop (p : Props) (w : World) :
  consistent w ->
  consistent (stopRecording p w)
  /\ liveStreams (host (stopRecording p w)) = []
  /\ connected (host (stopRecording p w)) = [].
Proof.
  open_world w. open_props p. intros Hc. open_invariant Hc.
  destruct Hc as (Hl & Hc & Hn). subst.
  destruct animationFrameId0, streamRef0, sourceRef0, ctx, mounted0;
    solve_invariant.
Qed.

(** [startRecording] keeps the session accounting from any world, idle or
    not: it closes what is open before it opens anything. *)
Lemma rec_consistent_start (p : Props) (acq : Acquire) (raises : bool) (w : World) :
  consistent w ->
  consistent (startRecording p acq raises w)
  /\ (List.length (liveStreams (host (startRecording p acq raises w))) <= 1)%nat.
Proof.
  intros Hc. unfold startRecording.
  destruct (String.eqb (selectedDevice p) "").
  { split.
    - open_world w. exact Hc.
    - open_world w. open_invariant Hc. destruct Hc as (-> & _).
      destruct streamRef0; simpl; lia. }
  destruct (rec_consistent_stop p w Hc) as (Hc1 & Hl1 & Hn1).
  destruct (rec_stop_closes p w) as (_ & Hr1 & _).
  revert Hc1 Hl1 Hn1 Hr1. generalize (stopRecording p w) as w1.
  clear w Hc. intros w1 Hc Hl1 Hn1 Hr1.
  open_world w1. open_props p. open_invariant Hc.
  destruct Hc as (Hl & Hc & Hn). simpl in *. subst. injection Hr1 as -> -> ->.
  destruct acq, raises, mounted0, rc, ctx; solve_invariant.
Qed.

Lemma rec_invariant_stop (p : Props) (w : World) :
  invariant w -> invariant (stopRecording p w) /\ idle (stopRecording p w).
Proof.
  open_world w. open_props p. intros Hinv. open_invariant Hinv.
  destruct Hinv as ((Hl & Hc & Hn) & Hs1 & Hs2 & -> & ->). subst.
  destruct streamRef0, sourceRef0, ctx, mounted0; solve_invariant.
Qed.

(** Started by the button, [startRecording] sees [isRecording = false], and
    so does the [drawFrame] it creates: no frame request is ever made. *)
Lemma rec_invariant_start (acq : Acquire) (raises : bool) (w : World) :
  invariant w -> isRecording (state w) = false ->
  invariant (startRecording (state w) acq raises w).
Proof.
  open_world w. intros Hinv Hr.
  assert (Hstay := Hinv). open_invariant Hinv. simpl in Hr.
  destruct Hinv as ((Hl & Hc & Hn) & Hs1 & Hs2 & -> & ->). subst.
  destruct streamRef0, sourceRef0; simpl in *; try discriminate.
  unfold startRecording. simpl selectedDevice.
  destruct (String.eqb selectedDevice0 "").
  { revert Hstay. unfold invariant, consistent. simpl. tauto. }
  clear Hstay.
  destruct audioContext0, acq, raises, mounted0; solve_invariant.
Qed.

Lemma rec_invariant_counts (w : World) :
  invariant w ->
  (List.length (liveStreams (host w)) <= 1)%nat
  /\ opens (trace w)
     = (closes (trace w) + (if isRecording (state w) then 1 else 0))%nat.
Proof.
  intros ((Hl & _ & Hn) & Hs & _).
  rewrite Hn, Hl, <- Hs. destruct (streamRef (refs w)); simpl; auto.
Qed.


Lemma rec_stop_when_idle (p : Props) (w : World) :
  invariant w -> isRecording (state w) = false ->
  same_lifecycle (stopRecording p w) w
  /\ opens (trace (stopRecording p w)) = opens (trace w)
  /\ closes (trace (stopRecording p w)) = closes (trace w).
Proof.
  open_world w. open_props p. intros Hinv Hr. open_invariant Hinv. simpl in Hr.
  destruct Hinv as ((Hl & Hc & Hn) & Hs1 & Hs2 & -> & ->). subst.
  destruct streamRef0, sourceRef0; simpl in *; try discriminate.
  destruct ctx, mounted0; solve_invariant.
Qed.

(** What [stopRecording] does on the host: it opens nothing, requests no
    frame, lets no exception out, and stops and disconnects what the refs
    hold. *)
Lemma rec_stop_emits (p : Props) (w : World) :
  exists pre,
    trace (stopRecording p w) = trace w ++ pre
    /\ opens pre = 0%nat
    /\ ~ In uncaught pre
    /\ (forall h, ~ In (frame_requested h) pre)
    /\ (forall s, streamRef (refs w) = Some s -> In (track_stopped s) pre)
    /\ (forall s, sourceRef (refs w) = Some s -> In (disconnected s) pre).
Proof.
  open_world w. open_props p.
  destruct animationFrameId0, streamRef0, sourceRef0, ctx, mounted0;
    run_handlers; rewrite <- ?app_assoc; simpl;
    (eexists; split; [first [reflexivity | symmetry; apply app_nil_r]|]);
    simpl; repeat split; try reflexivity;
    try (intros ? E; inversion E; subst; simpl; tauto);
    try (intros ? E; simpl in E; intuition discriminate);
    try (intros E; simpl in E; intuition discriminate).
Qed.

(** After its [stopRecording], [startRecording] lets no exception out and
    opens one stream if the request is granted, none if it is rejected. *)
Lemma rec_start_emits (p : Props) (acq : Acquire) (raises : bool) (w : World) :
  String.eqb (selectedDevice p) "" = false ->
  exists post,
    trace (startRecording p acq raises w) = trace (stopRecording p w) ++ post
    /\ ~ In uncaught post
    /\ opens post = match acq with Granted => 1%nat | Rejected _ => 0%nat end
    /\ (forall m, acq = Rejected m ->
          In (console_error "Error starting recording:") post
          /\ forall h, ~ In (frame_requested h) post).
Proof.
  intros Hd. unfold startRecording. rewrite Hd.
  destruct (rec_stop_closes p w) as (_ & Hr1 & _).
  revert Hr1. generalize (stopRecording p w) as w1. clear w. intros w1 Hr1.
  open_world w1. open_props p. simpl in *. injection Hr1 as -> -> ->.
  destruct acq, raises, mounted0, rc, ctx;
    run_handlers; rewrite <- ?app_assoc; simpl;
    (eexists; split; [first [reflexivity | symmetry; apply app_nil_r]|]);
    simpl; repeat split; try reflexivity;
    try (intros E; simpl in E; intuition discriminate);
    try discriminate;
    try (intros ? E; simpl in E; intuition discriminate);
    try (simpl; tauto);
    try (intros ? ? E; simpl in E; intuition discriminate).
Qed.

(** A start whose request is rejected ends idle, whatever was open. *)
Lemma rec_start_rejected (p : Props) (m : string) (raises : bool) (w : World) :
  consistent w -> String.eqb (selectedDevice p) "" = false ->
  let w' := startRecording p (Rejected m) raises w in
  isRecording (state w') = false
  /\ refs w' = {| animationFrameId := None; streamRef := None; sourceRef := None |}
  /\ liveStreams (host w') = [] /\ connected (host w') = []
  /\ (forall f, In f (frames (host w')) -> In f (frames (host w)))
  /\ debugInfo (state w') = Text "Recording stopped".
Proof.
  intros Hc Hd. unfold startRecording. rewrite Hd.
  destruct (rec_consistent_stop p w Hc) as (_ & Hl1 & Hn1).
  destruct (rec_stop_closes p w) as (_ & Hr1 & _ & Hf1).
  revert Hl1 Hn1 Hr1 Hf1. generalize (stopRecording p w) as w1.
  intros w1 Hl1 Hn1 Hr1 Hf1.
  open_world w1. open_props p. simpl in *. injection Hr1 as -> -> ->. subst.
  destruct ctx, mounted0; solve_invariant; exact Hf1.
Qed.

Lemma rec_filter_tracked (w : World) (h : nat) :
  one_frame w -> animationFrameId (refs w) = Some h ->
  filter (fun f => negb (Nat.eqb (fst f) h)) (frames (host w)) = [].
Proof.
  unfold one_frame. intros Hone Hh.
  induction (frames (host w)) as [|f l IH]; simpl; [reflexivity|].
  assert (E : fst f = h).
  { specialize (Hone f (or_introl eq_refl)). congruence. }
  rewrite E, Nat.eqb_refl. simpl. apply IH.
  intros f' Hf'. apply Hone. right. exact Hf'.
Qed.

Lemma rec_stop_cancels (p : Props) (w : World) :
  one_frame w -> frames (host (stopRecording p w)) = [].
Proof.
  intros Hone.
  destruct (animationFrameId (refs w)) as [h|] eqn:Ha.
  - pose proof (rec_filter_tracked w h Hone Ha) as Hf.
    open_world w. open_props p. simpl in *. subst.
    destruct streamRef0, sourceRef0, ctx, mounted0; run_handlers; exact Hf.
  - assert (Hf : frames (host w) = []).
    { unfold one_frame in Hone.
      destruct (frames (host w)) as [|f l]; [reflexivity|].
      specialize (Hone f (or_introl eq_refl)). congruence. }
    open_world w. open_props p. simpl in *. subst.
    destruct streamRef0, sourceRef0, ctx, mounted0; run_handlers; reflexivity.
Qed.

Lemma rec_consistent_emit (e : Event) (w : World) :
  is_opened e = false -> is_track_stopped e = false ->
  consistent w -> consistent (emit e w).
Proof.
  intros H1 H2 Hc. open_world w. open_invariant Hc.
  unfold consistent. simpl. rewrite opens_snoc, closes_snoc, H1, H2.
  rewrite !Nat.add_0_r. exact Hc.
Qed.

(** A frame cycle that is past its recording test and whose transform
    throws: it logs the error and runs the [stopRecording] of its render. *)
Lemma rec_drawFrame_fault (cl : FrameClosure) (w : World) :
  isRecording (props cl) = true ->
  drawFrame cl true w
  = stopRecording (props cl)
      (emit (console_error "Error in visualization:")
         (emit (painted [fillStyle (Css "rgb(20, 20, 20)");
                         fillRect 0 0 (width (size (host w)))
                           (height (size (host w)))])
            (emit read_frequency w))).
Proof. intros Hr. unfold drawFrame. rewrite Hr. reflexivity. Qed.

(** A frame cycle that is past its recording test reads the spectrum. *)
Lemma rec_drawFrame_reads (cl : FrameClosure) (raises : bool) (w : World) :
  isRecording (props cl) = true ->
  exists evs,
    trace (drawFrame cl raises w) = trace w ++ read_frequency :: evs
    /\ ~ In read_time_domain evs.
Proof.
  intros Hr. destruct raises.
  - rewrite rec_drawFrame_fault by exact Hr.
    destruct (rec_stop_emits (props cl)
                (emit (console_error "Error in visualization:")
                   (emit (painted [fillStyle (Css "rgb(20, 20, 20)");
                                   fillRect 0 0 (width (size (host w)))
                                     (height (size (host w)))])
                      (emit read_frequency w))))
      as (pre & Hpre & _ & _ & _ & _ & _).
    rewrite Hpre. simpl. rewrite <- !app_assoc. simpl.
    eexists. split; [reflexivity|].
    intros [E|[E|Hin]]; try discriminate.
    revert Hin Hpre. clear.
    generalize (emit (console_error "Error in visualization:")
                  (emit (painted [fillStyle (Css "rgb(20, 20, 20)");
                                  fillRect 0 0 (width (size (host w)))
                                    (height (size (host w)))])
                     (emit read_frequency w))) as w1.
    intros w1 Hin Hpre. open_world w1. destruct cl as [p an r n]. open_props p.
    simpl in Hpre.
    destruct animationFrameId0, streamRef0, sourceRef0, ctx, mounted0;
      revert Hpre; run_handlers; rewrite <- ?app_assoc; simpl;
      intros Hpre;
      first [ apply app_inv_head in Hpre
            | rewrite <- (app_nil_r tr) in Hpre at 1; apply app_inv_head in Hpre ];
      subst pre; simpl in Hin; intuition discriminate.
  - open_world w. destruct cl as [p an r n]. open_props p. simpl in Hr. subst.
    run_handlers. rewrite <- ?app_assoc. simpl.
    eexists. split; [reflexivity|]. simpl. intuition discriminate.
Qed.

(** What a frame cycle does is the same before and after a resize. *)
Lemma rec_drawFrame_ignores_resize (cl : FrameClosure) (raises : bool) (r : Rect)
    (w : World) :
  trace (drawFrame cl raises (step (resize r) w))
  = trace (drawFrame cl raises w).
Proof.
  simpl. open_world w. destruct cl as [p an r0 n]. open_props p.
  destruct rc, raises, animationFrameId0, streamRef0, sourceRef0, ctx, mounted0;
    run_handlers; reflexivity.
Qed.

(** [draw] hands the layout box the canvas has now to the closure. *)
Lemma rec_draw_captures (p : Props) (an : nat) (w : World) :
  mounted (host w) = true -> isRecording p = true ->
  exists h,
    frames (host (draw p an false w))
    = (h, {| props := p; analyserNode := an; rect := box (host w);
             bufferLength := frequencyBinCount |})
        :: frames (host w).
Proof.
  open_world w. simpl. intros -> Hr. open_props p. simpl in Hr. subst.
  run_handlers. eexists. reflexivity.
Qed.

(** A frame cycle that is past its recording test and whose transform
    returns paints the transform of the closure's style on the closure's
    rectangle. *)
Lemma rec_drawFrame_paints (cl : FrameClosure) (w : World) :
  isRecording (props cl) = true ->
  In (painted (transform (visualizationType (props cl))
                 (frequencyData (host w)) (rect cl)))
     (trace (drawFrame cl false w)).
Proof.
  intros Hr. open_world w. destruct cl as [p an r n]. open_props p.
  simpl in Hr. subst. run_handlers.
  apply in_or_app. left. apply in_or_app. right. left. reflexivity.
Qed.

(** Stopping a stream the host has just opened leaves the live streams as
    they were. *)
Lemma rec_remove_id_fresh (c : nat) (l : list nat) :
  Forall (fun s => (s <= c)%nat) l -> remove_id (S c) (S c :: l) = l.
Proof.
  intros Hb. unfold remove_id. simpl. rewrite Nat.eqb_refl. simpl.
  induction Hb as [|a l Ha Hl IH]; [reflexivity|].
  simpl. destruct (Nat.eqb_spec a (S c)); [lia|]. simpl. f_equal. exact IH.
Qed.

(** *** Runs of the page *)

Lemma remove_nth_snoc {A : Type} (l : list A) (a : A) :
  nth_error (l ++ [a]) (List.length l) = Some a
  /\ remove_nth (List.length l) (l ++ [a]) = l.
Proof.
  split.
  - rewrite nth_error_app2, Nat.sub_diag by lia. reflexivity.
  - unfold remove_nth.
    rewrite firstn_app, Nat.sub_diag, firstn_all, skipn_all2
      by (rewrite length_app; simpl; lia).
    simpl. rewrite !app_nil_r. reflexivity.
Qed.

(** What [stopRecording] does to the pending starts, the counter, the
    audio contexts and the state. *)
Lemma rec_stop_footprint (p : Props) (w : World) :
  let w' := stopRecording p w in
  starting (host w') = starting (host w)
  /\ counter (host w') = counter (host w)
  /\ contexts (host w')
     = match audioContext p with
       | Some c => remove_id c (contexts (host w))
       | None => contexts (host w)
       end
  /\ audioContext (state w')
     = match audioContext p with
       | Some _ => None
       | None => audioContext (state w)
       end
  /\ isRecording (state w') = false
  /\ selectedDevice (state w') = selectedDevice (state w)
  /\ effect (host w') = effect (host w)
  /\ mounted (host w') = mounted (host w).
Proof.
  open_world w. open_props p.
  destruct animationFrameId0, streamRef0, sourceRef0, ctx, mounted0;
    run_handlers; repeat split; reflexivity.
Qed.

(** [click] is the run of a start in which the promise settles before the
    next event of the page. *)
Lemma rec_click_is_press_settle (acq : Acquire) (raises : bool) (w : World) :
  isRecording (state w) = false ->
  String.eqb (selectedDevice (state w)) "" = false ->
  step (settle (List.length (starting (host w))) acq raises) (step press w)
  = step (click acq raises) w.
Proof.
  intros Hr Hd. cbn [step]. rewrite Hr.
  unfold startRecording, startRecording_request. rewrite Hd.
  pose proof (proj1 (rec_stop_footprint (state w) w)) as Hs. cbv zeta in Hs.
  rewrite <- Hs. clear Hs Hr Hd.
  generalize (stopRecording (state w) w). generalize (state w). clear w.
  intros p w0. destruct w0 as [st rf hs tr]. destruct hs.
  cbv beta iota zeta delta
    [newAudioContext fresh set_contexts set_counter set_starting on_host
     state refs host trace mounted box size frequencyData liveStreams
     connected contexts counter frames effect starting].
  destruct (remove_nth_snoc starting0
              {| startProps := p; startContext := S counter0 |}) as (Hn & Hrm).
  rewrite Hn. cbn [startProps startContext]. rewrite Hrm. reflexivity.
Qed.

Ltac open_accounted H :=
  unfold accounted in H; cbn [state refs host trace liveStreams counter
                              streamRef isRecording] in H;
  let Hnd := fresh "Hnd" in
  let Hb := fresh "Hb" in
  let Hin := fresh "Hin" in
  let Hn := fresh "Hn" in
  let Hs := fresh "Hs" in
  destruct H as (Hnd & Hb & Hin & Hn & Hs).

Ltac solve_accounted :=
  run_handlers; unfold accounted;
  cbn [state refs host trace liveStreams counter streamRef isRecording];
  repeat match goal with |- _ /\ _ => split end;
  solve_streams.

Lemma rec_accounted_stop (p : Props) (w : World) :
  accounted w -> accounted (stopRecording p w).
Proof.
  intros H. open_world w. open_props p. open_accounted H.
  destruct animationFrameId0, streamRef0, sourceRef0, ctx, mounted0;
    solve_accounted.
Qed.

Lemma rec_accounted_drawFrame (cl : FrameClosure) (raises : bool) (w : World) :
  accounted w -> accounted (drawFrame cl raises w).
Proof.
  intros H. destruct (isRecording (props cl)) eqn:Hr.
  - destruct raises.
    + rewrite rec_drawFrame_fault by exact Hr. apply rec_accounted_stop.
      open_world w. open_accounted H. destruct streamRef0; solve_accounted.
    + open_world w. destruct cl as [p an r n]. open_props p.
      simpl in Hr. subst. open_accounted H. destruct streamRef0; solve_accounted.
  - open_world w. destruct cl as [p an r n]. open_props p.
    simpl in Hr. subst. open_accounted H.
    destruct animationFrameId0, streamRef0; solve_accounted.
Qed.

Lemma rec_accounted_draw (p : Props) (an : nat) (raises : bool) (w : World) :
  accounted w -> accounted (draw p an raises w).
Proof.
  intros H. unfold draw. destruct (mounted (host w)).
  - apply rec_accounted_drawFrame. open_world w. exact H.
  - open_world w. open_accounted H. destruct streamRef0; solve_accounted.
Qed.

Lemma rec_accounted_settle (p : Props) (c : nat) (acq : Acquire) (raises : bool)
    (w : World) :
  accounted w -> accounted (startRecording_settle p c acq raises w).
Proof.
  intros H. destruct acq as [|m]; unfold startRecording_settle.
  - cbv beta iota zeta delta [getUserMedia fresh].
    apply rec_accounted_draw.
    open_world w. open_accounted H. destruct streamRef0; solve_accounted.
  - apply rec_accounted_stop.
    open_world w. open_accounted H. destruct streamRef0; solve_accounted.
Qed.

Lemma rec_accounted_request (p : Props) (w : World) :
  accounted w -> accounted (snd (startRecording_request p w)).
Proof.
  intros H. unfold startRecording_request.
  destruct (String.eqb (selectedDevice p) "").
  - open_world w. exact H.
  - pose proof (rec_accounted_stop p w H) as Hs.
    destruct (stopRecording p w) as [st rf hs tr]. destruct st, rf, hs.
    open_accounted Hs. destruct streamRef0; solve_accounted.
Qed.

Lemma rec_accounted_step (i : Input) (w : World) :
  accounted w -> accounted (step i w).
Proof.
  intros H.
  destruct i as [acq raises | t | d | h raises | r | f | | | k acq raises
                 | perm | devices]; cbn [step].
  - case_eq (isRecording (state w)); intros _; [apply rec_accounted_stop, H|].
    unfold startRecording.
    case_eq (String.eqb (selectedDevice (state w)) ""); intros _.
    { open_world w. exact H. }
    pose proof (rec_accounted_stop (state w) w H) as Hs.
    destruct (stopRecording (state w) w) as [st rf hs tr]. destruct st, rf, hs.
    cbv beta iota zeta delta [newAudioContext fresh].
    apply (rec_accounted_settle (state w)).
    open_accounted Hs. destruct streamRef0; solve_accounted.
  - open_world w. exact H.
  - case_eq (isRecording (state w)); intros _; [exact H|]. open_world w. exact H.
  - destruct (find_frame h w) as [cl|]; [|exact H].
    apply rec_accounted_drawFrame. open_world w. exact H.
  - open_world w. exact H.
  - open_world w. exact H.
  - apply rec_accounted_stop. open_world w. exact H.
  - case_eq (isRecording (state w)); intros _; [apply rec_accounted_stop, H|].
    pose proof (rec_accounted_request (state w) w H) as Hq.
    destruct (startRecording_request (state w) w) as [[c|] w'];
      [|exact Hq].
    simpl in Hq. open_world w'. exact Hq.
  - destruct (nth_error (starting (host w)) k) as [cl|]; [|exact H].
    apply rec_accounted_settle. open_world w. exact H.
  - destruct (effect (host w)); try exact H.
    open_world w. open_accounted H.
    destruct perm, mounted0, streamRef0; run_handlers; unfold accounted;
      cbn [state refs host trace liveStreams counter streamRef isRecording];
      rewrite ?opens_snoc, ?closes_snoc; cbn [is_opened is_track_stopped];
      rewrite ?rec_remove_id_fresh by exact Hb;
      repeat match goal with |- _ /\ _ => split end;
      solve_streams.
  - destruct (effect (host w)); try exact H.
    open_world w. open_accounted H. unfold loadAudioDevices_devices.
    cbn [mounted host]. destruct mounted0;
      [destruct (map _ (filter Media.is_audioinput devices))|];
      cbn [String.eqb selectedDevice props0];
      destruct streamRef0; solve_accounted.
Qed.

Lemma rec_accounted_mount (box0 : Rect) : accounted (mount box0).
Proof.
  unfold accounted, mount. simpl.
  repeat split; [constructor | constructor | intros s E; discriminate E].
Qed.

Lemma rec_reachable_accounted (w : World) : reachable w -> accounted w.
Proof.
  induction 1 as [box0 | i w _ IH].
  - apply rec_accounted_mount.
  - apply rec_accounted_step, IH.
Qed.

(** **** No frame is ever requested *)

Lemma remove_nth_decompose {A : Type} (k : nat) (l : list A) (a : A) :
  nth_error l k = Some a ->
  exists l1 l2, l = l1 ++ a :: l2 /\ remove_nth k l = l1 ++ l2.
Proof.
  intros H. exists (firstn k l), (skipn (S k) l). split; [|reflexivity].
  symmetry. apply firstn_skipn_middle, H.
Qed.

Lemma rec_stale_stop (p : Props) (w : World) :
  stale w -> stale (stopRecording p w).
Proof.
  open_world w. open_props p. unfold stale. simpl. intros (-> & -> & Hs).
  destruct streamRef0, sourceRef0, ctx, mounted0; run_handlers;
    (split; [reflexivity|]; split; [reflexivity | exact Hs]).
Qed.

Lemma rec_stale_drawFrame (cl : FrameClosure) (raises : bool) (w : World) :
  isRecording (props cl) = false -> stale w -> stale (drawFrame cl raises w).
Proof.
  open_world w. destruct cl as [p an r n]. open_props p. unfold stale. simpl.
  intros -> (-> & -> & Hs). run_handlers.
  split; [reflexivity|]. split; [reflexivity | exact Hs].
Qed.

Lemma rec_stale_draw (p : Props) (an : nat) (raises : bool) (w : World) :
  isRecording p = false -> stale w -> stale (draw p an raises w).
Proof.
  intros Hp H. unfold draw. destruct (mounted (host w)).
  - apply rec_stale_drawFrame; [exact Hp|]. open_world w. exact H.
  - open_world w. exact H.
Qed.

Lemma rec_stale_settle (p : Props) (c : nat) (acq : Acquire) (raises : bool)
    (w : World) :
  isRecording p = false -> stale w ->
  stale (startRecording_settle p c acq raises w).
Proof.
  intros Hp H. destruct acq as [|m]; unfold startRecording_settle.
  - cbv beta iota zeta delta [getUserMedia fresh].
    apply rec_stale_draw; [exact Hp|]. open_world w. exact H.
  - apply rec_stale_stop. open_world w. exact H.
Qed.

Lemma rec_stale_request (p : Props) (w : World) :
  stale w -> stale (snd (startRecording_request p w)).
Proof.
  intros H. unfold startRecording_request.
  destruct (String.eqb (selectedDevice p) "").
  - open_world w. exact H.
  - pose proof (rec_stale_stop p w H) as Hs.
    destruct (stopRecording p w) as [st rf hs tr]. destruct st, rf, hs.
    exact Hs.
Qed.

Lemma rec_stale_step (i : Input) (w : World) : stale w -> stale (step i w).
Proof.
  intros H.
  destruct i as [acq raises | t | d | h raises | r | f | | | k acq raises
                 | perm | devices]; cbn [step].
  - case_eq (isRecording (state w)); intros Hr; [apply rec_stale_stop, H|].
    unfold startRecording.
    case_eq (String.eqb (selectedDevice (state w)) ""); intros _.
    { open_world w. exact H. }
    pose proof (rec_stale_stop (state w) w H) as Hs.
    destruct (stopRecording (state w) w) as [st rf hs tr]. destruct st, rf, hs.
    cbv beta iota zeta delta [newAudioContext fresh].
    apply (rec_stale_settle (state w)); [exact Hr | exact Hs].
  - open_world w. exact H.
  - case_eq (isRecording (state w)); intros _; [exact H|]. open_world w. exact H.
  - unfold find_frame. rewrite (proj1 H). exact H.
  - open_world w. exact H.
  - open_world w. exact H.
  - apply rec_stale_stop. open_world w. exact H.
  - case_eq (isRecording (state w)); intros Hr; [apply rec_stale_stop, H|].
    pose proof (rec_stale_request (state w) w H) as Hq.
    destruct (startRecording_request (state w) w) as [[c|] w'];
      [|exact Hq].
    simpl in Hq. destruct Hq as (Hf & Ha & Hs).
    open_world w'. unfold stale. simpl in *.
    split; [exact Hf|]. split; [exact Ha|].
    apply Forall_app. split; [exact Hs|]. constructor; [exact Hr | constructor].
  - destruct (nth_error (starting (host w)) k) as [cl|] eqn:Hk; [|exact H].
    destruct H as (Hf & Ha & Hs).
    destruct (remove_nth_decompose k _ cl Hk) as (l1 & l2 & El & Er).
    rewrite Er. rewrite El in Hs.
    apply Forall_app in Hs as (Hs1 & Hs2). inversion Hs2 as [|? ? Hcl Hs2']. subst.
    apply rec_stale_settle; [exact Hcl|].
    clear Hk El Er. open_world w. unfold stale. simpl in *.
    split; [exact Hf|]. split; [exact Ha|].
    apply Forall_app. split; assumption.
  - destruct (effect (host w)); try exact H.
    open_world w. destruct perm, mounted0; exact H.
  - destruct (effect (host w)); try exact H.
    open_world w. unfold loadAudioDevices_devices. cbn [mounted host].
    destruct mounted0;
      [destruct (map _ (filter Media.is_audioinput devices))|];
      exact H.
Qed.

Lemma rec_reachable_stale (w : World) : reachable w -> stale w.
Proof.
  induction 1 as [box0 | i w _ IH].
  - unfold stale, mount. simpl. repeat split; constructor.
  - apply rec_stale_step, IH.
Qed.

(** **** The audio contexts *)

Lemma rec_named_pending (c : nat) (w : World) :
  contexts_tracked w -> named c w ->
  ~ In c (map startContext (starting (host w))).
Proof.
  intros (_ & Hk2 & _) Hn Hin. apply in_map_iff in Hin as (cl & <- & Hcl).
  rewrite Forall_forall in Hk2. exact (proj2 (proj2 (Hk2 cl Hcl)) Hn).
Qed.

(** A step that creates no pending start and names no new context. *)
Lemma rec_tracked_frame (w w' : World) :
  contexts_tracked w ->
  (counter (host w) <= counter (host w'))%nat ->
  starting (host w') = starting (host w) ->
  (audioContext (state w') = None
   \/ audioContext (state w') = audioContext (state w)) ->
  (forall cl, In cl (starting (host w)) ->
              In (startContext cl) (contexts (host w)) ->
              In (startContext cl) (contexts (host w'))) ->
  (isRecording (state w') = true ->
   exists c, audioContext (state w') = Some c /\ In c (contexts (host w'))) ->
  contexts_tracked w'.
Proof.
  intros (Hk1 & Hk2 & Hk3 & Hk4) Hc Hs Ha Hx Hr.
  assert (Hmono : forall c, named c w' -> named c w).
  { unfold named. rewrite Hs. intros c [H|H]; [|right; exact H].
    destruct Ha as [E|E]; rewrite E in H; [discriminate | left; exact H]. }
  unfold contexts_tracked. rewrite Hs.
  split; [intros c Hn; specialize (Hk1 c (Hmono c Hn)); lia|].
  split; [|split; [exact Hk3 | exact Hr]].
  rewrite Forall_forall in *. intros cl Hcl.
  destruct (Hk2 cl Hcl) as (H1 & H2 & H3).
  split; [lia|]. split; [exact (Hx cl Hcl H2)|].
  intros Hn. exact (H3 (Hmono _ Hn)).
Qed.

Lemma rec_tracked_stop (p : Props) (w : World) :
  contexts_tracked w ->
  (forall c, audioContext p = Some c ->
             ~ In c (map startContext (starting (host w)))) ->
  contexts_tracked (stopRecording p w).
Proof.
  intros H Hp.
  destruct (rec_stop_footprint p w) as (Hs & Hc & Hx & Ha & Hr & _).
  apply (rec_tracked_frame w); [exact H | lia | exact Hs | | |].
  - rewrite Ha. destruct (audioContext p); [left | right]; reflexivity.
  - rewrite Hx. intros cl Hcl Hin.
    destruct (audioContext p) as [c|]; [|exact Hin].
    apply remove_id_In. split; [exact Hin|].
    intros E. apply (Hp c eq_refl). rewrite <- E. apply in_map, Hcl.
  - rewrite Hr. discriminate.
Qed.

Lemma rec_tracked_newAudioContext (w : World) :
  contexts_tracked w -> contexts_tracked (snd (newAudioContext w)).
Proof.
  intros H. apply (rec_tracked_frame w); [exact H | | | | |];
    destruct w as [st rf hs tr]; destruct hs; simpl.
  - lia.
  - reflexivity.
  - right. reflexivity.
  - intros cl _ Hin. right. exact Hin.
  - intros Hr. destruct (proj2 (proj2 (proj2 H)) Hr) as (c & Hc & Hin).
    exists c. split; [exact Hc | right; exact Hin].
Qed.

(** Taking the [k]-th pending start out of the list. *)
Lemma rec_tracked_drop (k : nat) (cl : StartClosure) (w : World) :
  contexts_tracked w -> nth_error (starting (host w)) k = Some cl ->
  let w' := set_starting (remove_nth k (starting (host w))) w in
  contexts_tracked w'
  /\ (startContext cl <= counter (host w'))%nat
  /\ In (startContext cl) (contexts (host w'))
  /\ ~ In (startContext cl) (map startContext (starting (host w')))
  /\ (forall c, audioContext (startProps cl) = Some c ->
                ~ In c (map startContext (starting (host w')))).
Proof.
  intros (Hk1 & Hk2 & Hk3 & Hk4) Hk.
  destruct (remove_nth_decompose k _ cl Hk) as (l1 & l2 & El & Er).
  rewrite Er. clear Hk Er.
  destruct w as [st rf hs tr]. destruct hs. unfold contexts_tracked, named in *.
  simpl in *. subst starting0.
  rewrite map_app in Hk3. simpl in Hk3.
  apply NoDup_remove in Hk3 as (Hnd & Hnot). rewrite <- map_app in Hnd, Hnot.
  apply Forall_app in Hk2 as (Hf1 & Hf2).
  inversion Hf2 as [|? ? (Hb & Hin & Hnn) Hf2']. subst.
  assert (Hex : forall c,
            Exists (fun cl0 => audioContext (startProps cl0) = Some c) (l1 ++ l2) ->
            Exists (fun cl0 => audioContext (startProps cl0) = Some c)
              (l1 ++ cl :: l2)).
  { intros c H. apply Exists_app in H as [H|H]; apply Exists_app;
      [left | right; right]; exact H. }
  split; [|split; [exact Hb | split; [exact Hin | split; [exact Hnot|]]]].
  - split; [intros c [H|H]; apply Hk1; [left | right; apply Hex]; exact H|].
    split; [|split; [exact Hnd | exact Hk4]].
    apply Forall_app. split; [revert Hf1 | revert Hf2']; apply Forall_impl;
      intros a (H1 & H2 & H3); (split; [exact H1|]; split; [exact H2|]);
      intros [H|H]; apply H3; [left | right; apply Hex | left | right; apply Hex];
      exact H.
  - intros c Hc Hin'. apply in_map_iff in Hin' as (cl' & E & Hcl').
    assert (Hall : Forall (fun cl0 =>
                     ~ (audioContext st = Some (startContext cl0)
                        \/ Exists (fun cl1 => audioContext (startProps cl1)
                                              = Some (startContext cl0))
                             (l1 ++ cl :: l2))) (l1 ++ l2)).
    { apply Forall_app. split; [revert Hf1 | revert Hf2']; apply Forall_impl;
        intros a (_ & _ & H3); exact H3. }
    rewrite Forall_forall in Hall. apply (Hall cl' Hcl').
    right. apply Exists_app. right. left. rewrite E. exact Hc.
Qed.

(** The continuation of a start whose stream is granted names the context
    of its own call. *)
Lemma rec_tracked_settle_granted (p : Props) (c : nat) (raises : bool)
    (w : World) :
  contexts_tracked w -> isRecording p = false ->
  In c (contexts (host w)) -> (c <= counter (host w))%nat ->
  ~ In c (map startContext (starting (host w))) ->
  contexts_tracked (startRecording_settle p c Granted raises w).
Proof.
  intros (Hk1 & Hk2 & Hk3 & Hk4) Hp Hin Hb Hnot.
  assert (Hfp : let w' := startRecording_settle p c Granted raises w in
                starting (host w') = starting (host w)
                /\ (counter (host w) <= counter (host w'))%nat
                /\ contexts (host w') = contexts (host w)
                /\ audioContext (state w') = Some c).
  { clear - Hp. open_world w. open_props p. simpl in Hp. subst.
    destruct mounted0, animationFrameId0; run_handlers;
      repeat split; try reflexivity; lia. }
  cbv zeta in Hfp. destruct Hfp as (Hs & Hc & Hx & Ha).
  unfold contexts_tracked, named. rewrite Hs, Hx, Ha.
  split.
  { intros c' [E|H]; [injection E as <-; lia|].
    specialize (Hk1 c' (or_intror H)). lia. }
  split; [|split; [exact Hk3 | intros _; exists c; split; [reflexivity | exact Hin]]].
  rewrite Forall_forall in *. intros cl Hcl.
  destruct (Hk2 cl Hcl) as (H1 & H2 & H3).
  split; [lia|]. split; [exact H2|].
  intros [E|H]; [|apply H3; right; exact H].
  injection E as E. apply Hnot. rewrite E. apply in_map, Hcl.
Qed.

(** A start that reaches its [await]: the context it created joins the
    pending starts, with the state its render saw. *)
Lemma rec_tracked_request (p : Props) (w : World) :
  contexts_tracked w ->
  (forall c, audioContext p = Some c ->
             (c <= counter (host w))%nat
             /\ ~ In c (map startContext (starting (host w)))) ->
  contexts_tracked
    (set_starting
       (starting (host w)
        ++ [{| startProps := p; startContext := S (counter (host w)) |}])
       (snd (newAudioContext w))).
Proof.
  intros (Hk1 & Hk2 & Hk3 & Hk4) Hp.
  destruct w as [st rf hs tr]. destruct hs.
  unfold contexts_tracked, named in *. simpl in *.
  assert (Hnew : forall x,
            audioContext st = Some x
            \/ Exists (fun cl => audioContext (startProps cl) = Some x)
                 (starting0
                  ++ [{| startProps := p; startContext := S counter0 |}]) ->
            (x <= counter0)%nat).
  { intros x [H|H]; [apply Hk1; left; exact H|].
    apply Exists_app in H as [H|H]; [apply Hk1; right; exact H|].
    inversion H as [? ? E|? ? E]; [|inversion E]. simpl in E.
    apply (Hp x E). }
  split; [intros x H; specialize (Hnew x H); lia|].
  split; [|split].
  - apply Forall_app. split.
    + rewrite Forall_forall in *. intros cl Hcl.
      destruct (Hk2 cl Hcl) as (H1 & H2 & H3).
      split; [lia|]. split; [right; exact H2|].
      intros [H|H]; [apply H3; left; exact H|].
      apply Exists_app in H as [H|H]; [apply H3; right; exact H|].
      inversion H as [? ? E|? ? E]; [|inversion E]. simpl in E.
      apply (proj2 (Hp _ E)). apply in_map, Hcl.
    + constructor; [|constructor]. simpl.
      split; [lia|]. split; [left; reflexivity|].
      intros H. specialize (Hnew _ H). lia.
  - rewrite map_app. simpl. apply NoDup_app; [exact Hk3 | repeat constructor; intros [] |].
    intros a Ha [E|[]]. subst a. apply in_map_iff in Ha as (cl & E & Hcl).
    rewrite Forall_forall in Hk2. destruct (Hk2 cl Hcl) as (H1 & _). lia.
  - intros Hr. destruct (Hk4 Hr) as (c & Hc & Hin).
    exists c. split; [exact Hc | right; exact Hin].
Qed.

Lemma rec_request_footprint (p : Props) (w : World) :
  String.eqb (selectedDevice p) "" = false ->
  startRecording_request p w
  = (Some (S (counter (host (stopRecording p w)))),
     snd (newAudioContext (stopRecording p w))).
Proof.
  intros Hd. unfold startRecording_request. rewrite Hd.
  destruct (stopRecording p w) as [st rf hs tr]. destruct hs. reflexivity.
Qed.

Lemma rec_startRecording_split (p : Props) (acq : Acquire) (raises : bool)
    (w : World) :
  startRecording p acq raises w
  = match startRecording_request p w with
    | (Some context, w') => startRecording_settle p context acq raises w'
    | (None, w') => w'
    end.
Proof.
  unfold startRecording, startRecording_request.
  destruct (String.eqb (selectedDevice p) ""); [reflexivity|].
  destruct (stopRecording p w) as [st rf hs tr]. destruct hs. reflexivity.
Qed.

(** A step that touches neither the contexts, nor the pending starts, nor
    the context the state names, nor the recording flag. *)
Ltac tracked_frame H :=
  eapply rec_tracked_frame;
  [ exact H
  | simpl; lia
  | reflexivity
  | right; reflexivity
  | intros ? _ ?; assumption
  | exact (proj2 (proj2 (proj2 H))) ].

Lemma rec_tracked_step (i : Input) (w : World) :
  stale w -> contexts_tracked w -> contexts_tracked (step i w).
Proof.
  intros Hst H.
  assert (Hstate : forall c, audioContext (state w) = Some c ->
                     ~ In c (map startContext (starting (host w)))).
  { intros c Hc. apply rec_named_pending; [exact H | left; exact Hc]. }
  assert (Hbound : forall c, audioContext (state w) = Some c ->
                     (c <= counter (host w))%nat).
  { intros c Hc. apply (proj1 H). left. exact Hc. }
  pose proof (rec_tracked_stop (state w) w H Hstate) as H1.
  destruct (rec_stop_footprint (state w) w) as (Hs1 & Hc1 & _).
  pose proof (rec_tracked_newAudioContext _ H1) as H2.
  destruct i as [acq raises | t | d | h raises | r | f | | | k acq raises
                 | perm | devices]; cbn [step].
  - case_eq (isRecording (state w)); intros Hr; [exact H1|].
    rewrite rec_startRecording_split.
    case_eq (String.eqb (selectedDevice (state w)) ""); intros Hd.
    { unfold startRecording_request. rewrite Hd. open_world w. exact H. }
    rewrite rec_request_footprint by exact Hd.
    destruct acq as [|m].
    + apply rec_tracked_settle_granted; [exact H2 | exact Hr | | |].
      * destruct (stopRecording (state w) w) as [st rf hs tr]. destruct hs.
        left. reflexivity.
      * destruct (stopRecording (state w) w) as [st rf hs tr]. destruct hs.
        simpl. lia.
      * intros Hin. apply in_map_iff in Hin as (cl & E & Hcl).
        assert (Hcl' : In cl (starting (host (stopRecording (state w) w)))).
        { destruct (stopRecording (state w) w) as [st rf hs tr]. destruct hs.
          exact Hcl. }
        destruct H1 as (_ & Hk2 & _). rewrite Forall_forall in Hk2.
        destruct (Hk2 cl Hcl') as (Hb & _). lia.
    + unfold startRecording_settle. apply rec_tracked_stop.
      * destruct (stopRecording (state w) w) as [st rf hs tr].
        destruct st, rf, hs. exact H2.
      * intros c Hc. specialize (Hstate c Hc). rewrite <- Hs1 in Hstate.
        destruct (stopRecording (state w) w) as [st rf hs tr]. destruct hs.
        exact Hstate.
  - open_world w. exact H.
  - case_eq (isRecording (state w)); intros _; [exact H|]. open_world w. exact H.
  - unfold find_frame. rewrite (proj1 Hst). exact H.
  - open_world w. exact H.
  - open_world w. exact H.
  - apply rec_tracked_stop; [open_world w; exact H | intros c E; discriminate E].
  - case_eq (isRecording (state w)); intros Hr; [exact H1|].
    case_eq (String.eqb (selectedDevice (state w)) ""); intros Hd.
    { unfold startRecording_request. rewrite Hd. open_world w. exact H. }
    rewrite rec_request_footprint by exact Hd.
    apply (rec_tracked_request (state w) (stopRecording (state w) w) H1).
    intros c Hc. rewrite Hs1, Hc1. split; [apply Hbound | apply Hstate]; exact Hc.
  - destruct (nth_error (starting (host w)) k) as [cl|] eqn:Hk; [|exact H].
    destruct (rec_tracked_drop k cl w H Hk) as (Hd1 & Hb & Hin & Hnot & Hpo).
    cbv zeta in Hd1, Hb, Hin, Hnot, Hpo.
    assert (Hcl : isRecording (startProps cl) = false).
    { destruct Hst as (_ & _ & Hf). rewrite Forall_forall in Hf.
      apply Hf. exact (nth_error_In _ _ Hk). }
    destruct acq as [|m].
    + apply rec_tracked_settle_granted; assumption.
    + unfold startRecording_settle. apply rec_tracked_stop.
      * destruct w as [st rf hs tr]. destruct st, rf, hs. exact Hd1.
      * intros c Hc. specialize (Hpo c Hc).
        destruct w as [st rf hs tr]. destruct hs. exact Hpo.
  - destruct (effect (host w)); try exact H.
    open_world w. destruct perm, mounted0; run_handlers; tracked_frame H.
  - destruct (effect (host w)); try exact H.
    open_world w. unfold loadAudioDevices_devices. cbn [mounted host].
    destruct mounted0;
      [destruct (map _ (filter Media.is_audioinput devices))|];
      cbn [String.eqb selectedDevice props0]; run_handlers; tracked_frame H.
Qed.

Lemma rec_reachable_tracked (w : World) :
  reachable w -> stale w /\ contexts_tracked w.
Proof.
  induction 1 as [box0 | i w Hw (Hs & Ht)].
  - split; [apply rec_reachable_stale; constructor|].
    unfold contexts_tracked, named, mount, props0. simpl.
    split; [intros c [E|E]; [discriminate E | inversion E]|].
    split; [constructor|]. split; [constructor | intros E; discriminate E].
  - split; [apply rec_stale_step, Hs | apply rec_tracked_step; assumption].
Qed.



(** A refused start leaves no frame request pending when the one the ref
    held was the only one. *)
Lemma rec_start_rejected_frames (p : Props) (m : string) (raises : bool)
    (w : World) :
  one_frame w -> String.eqb (selectedDevice p) "" = false ->
  frames (host (startRecording p (Rejected m) raises w)) = [].
Proof.
  intros Hf Hd. rewrite rec_startRecording_split, rec_request_footprint by exact Hd.
  unfold startRecording_settle.
  pose proof (rec_stop_cancels p w Hf) as H0.
  destruct (stopRecording p w) as [st rf hs tr]. destruct st, rf, hs.
  simpl in H0. subst.
  open_props p.
  destruct animationFrameId0, streamRef0, sourceRef0, ctx, mounted0;
    run_handlers; reflexivity.
Qed.

(** **** Nothing is ever drawn *)

Ltac split_trace H :=
  repeat (apply in_app_or in H; destruct H as [H|H];
          [|right; destruct H as [<-|[]]; simpl; eauto]);
  left; exact H.

Lemma rec_quiet_stop (p : Props) (w : World) (e : Event) :
  In e (trace (stopRecording p w)) -> In e (trace w) \/ quiet e.
Proof.
  open_world w. open_props p.
  destruct animationFrameId0, streamRef0, sourceRef0, ctx, mounted0;
    run_handlers; intros Hin; split_trace Hin.
Qed.

Lemma rec_quiet_settle (p : Props) (c : nat) (acq : Acquire) (raises : bool)
    (w : World) (e : Event) :
  isRecording p = false ->
  In e (trace (startRecording_settle p c acq raises w)) ->
  In e (trace w) \/ quiet e.
Proof.
  intros Hp. destruct acq as [|m].
  - open_world w. open_props p. simpl in Hp. subst.
    destruct mounted0, animationFrameId0; run_handlers; intros Hin;
      split_trace Hin.
  - unfold startRecording_settle. intros Hin.
    apply rec_quiet_stop in Hin as [Hin|Hq]; [|right; exact Hq].
    revert Hin. open_world w. run_handlers. intros Hin. split_trace Hin.
Qed.

Lemma rec_quiet_request (p : Props) (w : World) (e : Event) :
  In e (trace (snd (startRecording_request p w))) -> In e (trace w) \/ quiet e.
Proof.
  unfold startRecording_request.
  destruct (String.eqb (selectedDevice p) "").
  - open_world w. intros Hin. left. exact Hin.
  - intros Hin. apply (rec_quiet_stop p w).
    destruct (stopRecording p w) as [st rf hs tr]. destruct hs. exact Hin.
Qed.

(** The events one step of the page adds to the trace: no sample is read,
    no frame is requested, and all that is painted is the background. *)
Lemma rec_quiet_step (i : Input) (w : World) (e : Event) :
  stale w -> In e (trace (step i w)) -> In e (trace w) \/ quiet e.
Proof.
  intros Hst.
  destruct i as [acq raises | t | d | h raises | r | f | | | k acq raises
                 | perm | devices]; cbn [step].
  - case_eq (isRecording (state w)); intros Hr; [apply rec_quiet_stop|].
    rewrite rec_startRecording_split. intros Hin.
    destruct (startRecording_request (state w) w) as [[c|] w'] eqn:E.
    + destruct (rec_quiet_settle _ _ _ _ _ _ Hr Hin) as [Hin'|Hq];
        [|right; exact Hq].
      apply (rec_quiet_request (state w) w). rewrite E. exact Hin'.
    + apply (rec_quiet_request (state w) w). rewrite E. exact Hin.
  - open_world w. intros Hin. left. exact Hin.
  - case_eq (isRecording (state w)); intros _; [intros Hin; left; exact Hin|].
    open_world w. intros Hin. left. exact Hin.
  - unfold find_frame. rewrite (proj1 Hst). intros Hin. left. exact Hin.
  - open_world w. intros Hin. left. exact Hin.
  - open_world w. intros Hin. left. exact Hin.
  - intros Hin. apply rec_quiet_stop in Hin as [Hin|Hq]; [|right; exact Hq].
    left. revert Hin. open_world w. intros Hin. exact Hin.
  - case_eq (isRecording (state w)); intros Hr; [apply rec_quiet_stop|].
    intros Hin. apply (rec_quiet_request (state w) w).
    destruct (startRecording_request (state w) w) as [[c|] w']; [|exact Hin].
    revert Hin. open_world w'. intros Hin. exact Hin.
  - destruct (nth_error (starting (host w)) k) as [cl|] eqn:Hk;
      [|intros Hin; left; exact Hin].
    assert (Hcl : isRecording (startProps cl) = false).
    { destruct Hst as (_ & _ & Hf). rewrite Forall_forall in Hf.
      apply Hf. exact (nth_error_In _ _ Hk). }
    intros Hin.
    destruct (rec_quiet_settle _ _ _ _ _ _ Hcl Hin) as [Hin'|Hq];
      [|right; exact Hq].
    left. revert Hin'. clear. open_world w. intros Hin. exact Hin.
  - destruct (effect (host w)); try (intros Hin; left; exact Hin).
    open_world w. destruct perm, mounted0; run_handlers; intros Hin;
      split_trace Hin.
  - destruct (effect (host w)); try (intros Hin; left; exact Hin).
    open_world w. unfold loadAudioDevices_devices. cbn [mounted host].
    destruct mounted0;
      [destruct (map _ (filter Media.is_audioinput devices))|];
      cbn [String.eqb selectedDevice props0]; run_handlers; intros Hin;
      left; exact Hin.
Qed.

Lemma rec_reachable_quiet (w : World) :
  reachable w -> forall e, In e (trace w) -> quiet e.
Proof.
  induction 1 as [box0 | i w Hw IH]; intros e Hin; [destruct Hin|].
  destruct (rec_quiet_step i w e (rec_reachable_stale w Hw) Hin) as [Hold|Hq];
    [exact (IH e Hold) | exact Hq].
Qed.

End RecordingFacts.

(** ** Sessions *)

(** C5, as amended.  In the second revision [startRecording] first closes
    whatever session the refs hold (it stops the tracks of the stream and
    disconnects the source) and only then opens a stream; run with no other
    event between its request and the answer, it keeps the refs and the
    counts consistent with the host from any world, recording or not, and
    leaves at most one stream live.  The first revision's
    [startVisualization] stops no stream: the toggle handler calls it only
    when not recording.  In both revisions, in every world reachable through
    the page's events, opens = closes + the number of live streams, the
    stream [streamRef] holds is live, and a stream is held exactly while
    recording, so that opens >= closes + 1 while recording. *)
Theorem session_accounting :
  (forall p acq raises w,
     Recording.consistent w ->
     String.eqb (Recording.selectedDevice p) "" = false ->
     let w' := Recording.startRecording p acq raises w in
     Recording.consistent w'
     /\ (List.length (Recording.liveStreams (Recording.host w')) <= 1)%nat
     /\ exists pre post,
          Recording.trace w' = Recording.trace w ++ pre ++ post
          /\ opens pre = 0%nat
          /\ (forall s, Recording.streamRef (Recording.refs w) = Some s ->
                In (track_stopped s) pre)
          /\ (forall s, Recording.sourceRef (Recording.refs w) = Some s ->
                In (disconnected s) pre)
          /\ opens post = match acq with Granted => 1%nat | Rejected _ => 0%nat end)
  /\ (forall w,
        Recording.reachable w ->
        opens (Recording.trace w)
        = (closes (Recording.trace w)
           + List.length (Recording.liveStreams (Recording.host w)))%nat
        /\ (forall s, Recording.streamRef (Recording.refs w) = Some s ->
              In s (Recording.liveStreams (Recording.host w)))
        /\ is_some (Recording.streamRef (Recording.refs w))
           = Recording.isRecording (Recording.state w)
        /\ (closes (Recording.trace w)
            + (if Recording.isRecording (Recording.state w) then 1 else 0)
            <= opens (Recording.trace w))%nat)
  /\ (forall w,
        Visualization.reachable w ->
        opens (Visualization.trace w)
        = (closes (Visualization.trace w)
           + List.length (Visualization.liveStreams (Visualization.host w)))%nat
        /\ (forall s, Visualization.streamRef (Visualization.refs w) = Some s ->
              In s (Visualization.liveStreams (Visualization.host w)))
        /\ is_some (Visualization.streamRef (Visualization.refs w))
           = Visualization.isRecording (Visualization.state w)
        /\ (closes (Visualization.trace w)
            + (if Visualization.isRecording (Visualization.state w) then 1 else 0)
            <= opens (Visualization.trace w))%nat)
  /\ (forall acq raises w,
        closes (Visualization.trace (Visualization.startVisualization acq raises w))
        = closes (Visualization.trace w))
  /\ (forall acq raises w,
        Visualization.isRecording (Visualization.state w) = true ->
        Visualization.handleToggleRecording acq raises w
        = Visualization.stopVisualization w).
Proof.
  split; [|split; [|split; [|split]]];
    [ | | | exact VisualizationFacts.vis_start_closes_nothing
      | intros acq raises w Hr; unfold Visualization.handleToggleRecording;
        rewrite Hr; reflexivity ].
  - intros p acq raises w Hc Hd w'.
    destruct (RecordingFacts.rec_consistent_start p acq raises w Hc) as (Hc' & Hl').
    split; [exact Hc'|]. split; [exact Hl'|].
    destruct (RecordingFacts.rec_stop_emits p w) as (pre & Hpre & Ho & _ & _ & Hs & Hsrc).
    destruct (RecordingFacts.rec_start_emits p acq raises w Hd) as (post & Hpost & _ & Hop & _).
    exists pre, post. subst w'. rewrite Hpost, Hpre, app_assoc. auto.
  - intros w Hw.
    destruct (RecordingFacts.rec_reachable_accounted w Hw)
      as (_ & _ & Hin & Hn & Hs).
    split; [exact Hn|]. split; [exact Hin|]. split; [exact Hs|].
    rewrite Hn, <- Hs.
    destruct (Recording.streamRef (Recording.refs w)) as [s|]; simpl; [|lia].
    specialize (Hin s eq_refl).
    destruct (Recording.liveStreams (Recording.host w)); [destruct Hin | simpl; lia].
  - intros w Hw.
    destruct (VisualizationFacts.vis_reachable_accounted w Hw)
      as (_ & _ & Hin & Hn & Hs).
    split; [exact Hn|]. split; [exact Hin|]. split; [exact Hs|].
    rewrite Hn, <- Hs.
    destruct (Visualization.streamRef (Visualization.refs w)) as [s|]; simpl; [|lia].
    specialize (Hin s eq_refl).
    destruct (Visualization.liveStreams (Visualization.host w));
      [destruct Hin | simpl; lia].
Qed.

Lemma session_accounting_witness :
  Visualization.reachable visualizing
  /\ opens (Visualization.trace visualizing)
     = (closes (Visualization.trace visualizing)
        + List.length (Visualization.liveStreams (Visualization.host visualizing)))%nat.
Proof.
  assert (Hr : Visualization.reachable visualizing).
  { exact (Visualization.reachable_step _ _
             (Visualization.reachable_step _ _
                (Visualization.reachable_mount surface))). }
  split; [exact Hr|].
  exact (proj1 (proj1 (proj2 (proj2 session_accounting)) visualizing Hr)).
Defined.

(** C5 fails as stated: the first revision's [startVisualization], called
    while a session is open, opens a second stream and stops nothing: two
    streams are live, with 2 opens and 0 closes. *)
Lemma start_while_visualizing_leaks :
  let w := Visualization.startVisualization Granted false visualizing in
  Visualization.isRecording (Visualization.state visualizing) = true
  /\ List.length (Visualization.liveStreams (Visualization.host w)) = 2%nat
  /\ opens (Visualization.trace w) = 2%nat
  /\ closes (Visualization.trace w) = 0%nat.
Proof. lazy. repeat split; reflexivity. Qed.

(** ** Stopping *)


Lemma recording_reachable : Recording.reachable recording.
Proof.
  exact (Recording.reachable_step _ _
           (Recording.reachable_step _ _ (Recording.reachable_mount surface))).
Qed.

Lemma recording_consistent :
  Recording.consistent recording /\ Recording.one_frame recording.
Proof.
  split.
  - change recording
      with (Recording.startRecording
              (Recording.state
                 (Recording.setSelectedDevice "mic-1" (Recording.mount surface)))
              Granted false
              (Recording.setSelectedDevice "mic-1" (Recording.mount surface))).
    apply RecordingFacts.rec_consistent_start.
    exact (proj1 (RecordingFacts.rec_invariant_mount surface)).
  - intros f Hf.
    rewrite (proj1 (RecordingFacts.rec_reachable_stale recording
                      recording_reachable)) in Hf.
    destruct Hf.
Qed.



(** ** Starting *)

(** C8, as amended.  A start whose [getUserMedia] is rejected is abandoned
    and caught inside the handler.  First revision: the React state is as it
    was, nothing is opened, closed or requested, an idle world stays idle,
    and the only trace is the console message; with no microphone selected
    [startVisualization] does nothing at all.  Second revision: from every
    world whose refs agree with the host (the stream and the source they
    hold are the only ones open, the frame request they hold the only one
    pending) the result is idle, the error is logged to the console, no
    frame is requested and no exception leaves the handler; with no device
    selected [startRecording] only sets the debug line to "No device
    selected". *)
Theorem rejected_start_stays_idle :
  (forall m raises w,
     String.eqb (Visualization.selectedMicrophone (Visualization.state w)) "" = false ->
     let w' := Visualization.startVisualization (Rejected m) raises w in
     Visualization.state w' = Visualization.state w
     /\ (Visualization.idle w -> Visualization.idle w')
     /\ Visualization.trace w'
        = Visualization.trace w
          ++ [rejected m; console_error "Error starting visualization:"])
  /\ (forall acq raises w,
        String.eqb (Visualization.selectedMicrophone (Visualization.state w)) "" = true ->
        Visualization.startVisualization acq raises w = w)
  /\ (forall p m raises w,
        Recording.consistent w -> Recording.one_frame w ->
        String.eqb (Recording.selectedDevice p) "" = false ->
        let w' := Recording.startRecording p (Rejected m) raises w in
        Recording.idle w'
        /\ exists evs,
             Recording.trace w' = Recording.trace w ++ evs
             /\ In (console_error "Error starting recording:") evs
             /\ ~ In uncaught evs
             /\ forall h, ~ In (frame_requested h) evs)
  /\ (forall p acq raises w,
        String.eqb (Recording.selectedDevice p) "" = true ->
        Recording.startRecording p acq raises w
        = Recording.setDebugInfo (Recording.Text "No device selected") w).
Proof.
  repeat match goal with |- _ /\ _ => split end.
  - intros m raises w Hd w'.
    destruct (VisualizationFacts.vis_start_rejected m raises w Hd)
      as (Hs & H1 & H2 & H3 & H4 & H5 & Ht).
    fold w' in Hs, H1, H2, H3, H4, H5, Ht.
    split; [exact Hs|]. split; [|exact Ht].
    unfold Visualization.idle. rewrite Hs, H1, H2, H3, H4, H5. tauto.
  - intros acq raises w Hd. unfold Visualization.startVisualization.
    rewrite Hd. reflexivity.
  - intros p m raises w Hc Hf Hd w'.
    destruct (RecordingFacts.rec_start_rejected p m raises w Hc Hd)
      as (H1 & H2 & H3 & H4 & _ & _).
    fold w' in H1, H2, H3, H4.
    split.
    + unfold Recording.idle. repeat split; auto.
      apply (RecordingFacts.rec_start_rejected_frames p m raises w Hf Hd).
    + destruct (RecordingFacts.rec_stop_emits p w) as (pre & Hpre & _ & Hu & Hq & _).
      destruct (RecordingFacts.rec_start_emits p (Rejected m) raises w Hd)
        as (post & Hpost & Hu' & _ & Hlog).
      destruct (Hlog m eq_refl) as (Hlog1 & Hlog2).
      exists (pre ++ post). subst w'. rewrite Hpost, Hpre, app_assoc.
      split; [reflexivity|]. split; [apply in_or_app; right; exact Hlog1|].
      split.
      * intros Hin. apply in_app_or in Hin. tauto.
      * intros h Hin. apply in_app_or in Hin.
        destruct Hin as [Hin|Hin]; [exact (Hq h Hin) | exact (Hlog2 h Hin)].
  - intros p acq raises w Hd. unfold Recording.startRecording.
    rewrite Hd. reflexivity.
Qed.

Lemma rejected_start_stays_idle_witness :
  Recording.consistent recording
  /\ Recording.one_frame recording
  /\ String.eqb (Recording.selectedDevice (Recording.state recording)) "" = false
  /\ Recording.idle
       (Recording.startRecording (Recording.state recording)
          (Rejected "Permission denied") false recording).
Proof.
  split; [exact (proj1 recording_consistent)|].
  split; [exact (proj2 recording_consistent)|]. split; [reflexivity|].
  exact (proj1 (proj1 (proj2 (proj2 rejected_start_stays_idle))
                  (Recording.state recording) "Permission denied"%string false
                  recording (proj1 recording_consistent)
                  (proj2 recording_consistent) eq_refl)).
Defined.

(** C8 fails as stated: in the first revision, after a start whose request
    is refused the React state, which is all the page is rendered from, is
    what it was before the click; the error went to the console only. *)
Lemma refused_start_surfaces_nothing :
  let before :=
    Visualization.run [Visualization.choose_microphone "mic-1"]
      (Visualization.mount surface) in
  Visualization.state refused = Visualization.state before
  /\ Visualization.trace refused
     = [rejected "Permission denied";
        console_error "Error starting visualization:"].
Proof. lazy. split; reflexivity. Qed.

(** In the second revision the message of a refused start is set and then
    overwritten by the [stopRecording] of the [catch] block: the debug line
    ends as "Recording stopped". *)
Remark refused_start_message_is_overwritten (p : Recording.Props) (m : string)
    (raises : bool) (w : Recording.World) :
  Recording.consistent w ->
  String.eqb (Recording.selectedDevice p) "" = false ->
  Recording.debugInfo
    (Recording.state (Recording.startRecording p (Rejected m) raises w))
  = Recording.Text "Recording stopped".
Proof.
  intros Hc Hd. apply (RecordingFacts.rec_start_rejected p m raises w Hc Hd).
Qed.

(** ** The size of the canvas *)

(** A side that is a whole number of pixels is kept as it is. *)
Lemma canvas_dimension_integer (default n : Z) :
  (0 <= n <= 2147483647)%Z -> canvas_dimension default (IZR n) = IZR n.
Proof.
  intros Hn. unfold canvas_dimension, to_unsigned_long, truncate. cbv zeta.
  destruct (Rle_dec 0 (IZR n)) as [_|Hneg];
    [|exfalso; apply Hneg, IZR_le; lia].
  assert (E : Int_part (IZR n) = n).
  { symmetry. apply Int_part_spec. split; lra. }
  rewrite E, Z.mod_small by lia.
  destruct (Z.leb_spec n 2147483647); [reflexivity | lia].
Qed.

(** A fractional side is not: the attribute is an [unsigned long], and a
    layout box 800.5 wide gives a canvas 800 wide. *)
Remark canvas_dimension_truncates : canvas_dimension 300 800.5 = 800.
Proof.
  unfold canvas_dimension, to_unsigned_long, truncate. cbv zeta.
  destruct (Rle_dec 0 800.5) as [_|Hneg]; [|exfalso; apply Hneg; lra].
  assert (E : Int_part 800.5 = 800%Z).
  { symmetry. apply Int_part_spec. split; lra. }
  rewrite E. reflexivity.
Qed.

(** ** Frame cycles *)

(** C9, as amended.  Second revision: when a transform throws in a frame
    cycle that is past its recording test, [drawFrame] logs the error to the
    console and runs [stopRecording]: from a world whose refs are consistent
    with the host and whose only pending request is the one held in
    [animationFrameId], the result is idle; no frame is requested and no
    exception leaves the callback.  First revision: [draw] has no handler.
    The exception leaves the callback, the state and the session are
    untouched, and the frame requested at the top of the cycle stays
    pending, so the loop goes on. *)
Theorem transform_fault_handling :
  (forall cl w,
     Recording.isRecording (Recording.props cl) = true ->
     Recording.consistent w -> Recording.one_frame w ->
     let w' := Recording.drawFrame cl true w in
     Recording.idle w'
     /\ exists evs,
          Recording.trace w' = Recording.trace w ++ evs
          /\ In (console_error "Error in visualization:") evs
          /\ ~ In uncaught evs
          /\ forall h, ~ In (frame_requested h) evs)
  /\ (forall cl w,
        exists w',
          Visualization.draw cl true w = (w', true)
          /\ Visualization.state w' = Visualization.state w
          /\ Visualization.streamRef (Visualization.refs w')
             = Visualization.streamRef (Visualization.refs w)
          /\ Visualization.sourceRef (Visualization.refs w')
             = Visualization.sourceRef (Visualization.refs w)
          /\ Visualization.liveStreams (Visualization.host w')
             = Visualization.liveStreams (Visualization.host w)
          /\ Visualization.connected (Visualization.host w')
             = Visualization.connected (Visualization.host w)
          /\ Visualization.frames (Visualization.host w')
             = (Visualization.animationRef (Visualization.refs w'), cl)
                 :: Visualization.frames (Visualization.host w))
  /\ (forall h cl w,
        Visualization.find_frame h w = Some cl ->
        exists t,
          Visualization.trace (Visualization.step (Visualization.animation_frame h true) w)
          = t ++ [uncaught]).
Proof.
  repeat match goal with |- _ /\ _ => split end.
  - intros cl w Hr Hc Hone w'. subst w'.
    rewrite RecordingFacts.rec_drawFrame_fault by exact Hr.
    set (w3 := Recording.emit _ _).
    assert (Hc3 : Recording.consistent w3).
    { unfold w3. repeat apply RecordingFacts.rec_consistent_emit; auto. }
    assert (Hone3 : Recording.one_frame w3) by exact Hone.
    destruct (RecordingFacts.rec_consistent_stop (Recording.props cl) w3 Hc3)
      as (_ & Hl & Hn).
    destruct (RecordingFacts.rec_stop_closes (Recording.props cl) w3)
      as (Hrec & Hrefs & _ & _).
    pose proof (RecordingFacts.rec_stop_cancels (Recording.props cl) w3 Hone3) as Hf.
    split; [repeat split; assumption|].
    destruct (RecordingFacts.rec_stop_emits (Recording.props cl) w3)
      as (pre & Hpre & _ & Hu & Hq & _).
    eexists. rewrite Hpre. unfold w3. simpl. rewrite <- !app_assoc. simpl.
    split; [reflexivity|]. split; [simpl; tauto|]. split.
    + simpl. intros [E|[E|[E|Hin]]]; try discriminate. exact (Hu Hin).
    + intros h. simpl. intros [E|[E|[E|Hin]]]; try discriminate.
      exact (Hq h Hin).
  - exact VisualizationFacts.vis_draw_throws.
  - intros h cl w Hfind. simpl. rewrite Hfind.
    destruct (VisualizationFacts.vis_draw_throws cl
                (Visualization.set_frames
                   (filter (fun f => negb (Nat.eqb (fst f) h))
                      (Visualization.frames (Visualization.host w))) w))
      as (w' & Hd & _).
    rewrite Hd. eexists. reflexivity.
Qed.

Lemma transform_fault_handling_witness :
  Recording.isRecording (Recording.props (frame_closure Recording.bar)) = true
  /\ Recording.consistent recording /\ Recording.one_frame recording
  /\ Recording.idle
       (Recording.drawFrame (frame_closure Recording.bar) true recording).
Proof.
  destruct recording_consistent as (Hc & Hone).
  split; [reflexivity|]. split; [exact Hc|]. split; [exact Hone|].
  exact (proj1 (proj1 transform_fault_handling (frame_closure Recording.bar)
                  recording eq_refl Hc Hone)).
Defined.

(** C9 fails as stated: in the first revision, when the transform of the
    pending frame throws while visualizing, the exception leaves the
    callback, the component is still recording with its stream live, and a
    frame request is pending. *)
Lemma fault_leaves_loop_running :
  In uncaught (Visualization.trace frame_with_fault)
  /\ Visualization.isRecording (Visualization.state frame_with_fault) = true
  /\ Visualization.liveStreams (Visualization.host frame_with_fault) = [2%nat]
  /\ List.length (Visualization.frames (Visualization.host frame_with_fault)) = 1%nat.
Proof.
  split; [|lazy; repeat split; reflexivity].
  unfold frame_with_fault, visualizing. cbn -[Visualization.transform].
  repeat (try (left; reflexivity); right).
Qed.

(** First revision: every frame cycle reads the style from the ref at that
    moment; it reads the frequency-domain buffer when that style is [bar]
    and the time-domain buffer otherwise, and it dispatches to the transform
    of that same style.  A style change touches neither the recording flag,
    the session refs, the host nor the trace (the loop is neither stopped nor
    restarted), and the next frame cycle dispatches to the new style. *)
Theorem frame_follows_current_style :
  (forall cl w,
     let t := Visualization.visualizationTypeRef (Visualization.refs w) in
     let data :=
       match t with
       | Visualization.bar => Visualization.frequencyData (Visualization.host w)
       | _ => Visualization.timeDomainData (Visualization.host w)
       end in
     exists w',
       Visualization.draw cl false w = (w', false)
       /\ Visualization.trace w'
          = Visualization.trace w
            ++ [frame_requested (S (Visualization.counter (Visualization.host w)));
                match t with
                | Visualization.bar => read_frequency
                | _ => read_time_domain
                end;
                painted [fillStyle (Css "rgba(15, 23, 42, 0.2)");
                         fillRect 0 0 (Visualization.cwidth cl)
                           (Visualization.cheight cl)];
                painted (Visualization.transform t data cl)])
  /\ (forall t w,
        let w' := Visualization.step (Visualization.choose_style t) w in
        Visualization.visualizationTypeRef (Visualization.refs w') = t
        /\ Visualization.isRecording (Visualization.state w')
           = Visualization.isRecording (Visualization.state w)
        /\ Visualization.streamRef (Visualization.refs w')
           = Visualization.streamRef (Visualization.refs w)
        /\ Visualization.sourceRef (Visualization.refs w')
           = Visualization.sourceRef (Visualization.refs w)
        /\ Visualization.animationRef (Visualization.refs w')
           = Visualization.animationRef (Visualization.refs w)
        /\ Visualization.host w' = Visualization.host w
        /\ Visualization.trace w' = Visualization.trace w)
  /\ (forall t cl w,
        let data :=
          match t with
          | Visualization.bar => Visualization.frequencyData (Visualization.host w)
          | _ => Visualization.timeDomainData (Visualization.host w)
          end in
        last (Visualization.trace
                (fst (Visualization.draw cl false
                        (Visualization.step (Visualization.choose_style t) w))))
             uncaught
        = painted (Visualization.transform t data cl)).
Proof.
  repeat match goal with |- _ /\ _ => split end.
  - exact VisualizationFacts.vis_draw_returns.
  - intros t w. destruct w as [st rf hs tr]. destruct st, rf, hs.
    simpl. repeat split; reflexivity.
  - intros t cl w data.
    destruct (VisualizationFacts.vis_draw_returns cl
                (Visualization.step (Visualization.choose_style t) w))
      as (w' & Hd & Ht).
    rewrite Hd. simpl fst. rewrite Ht.
    destruct w as [st rf hs tr]. destruct st, rf, hs. simpl.
    match goal with
    | |- last (?l ++ [?a; ?b; ?c; ?d]) _ = _ =>
        change (l ++ [a; b; c; d]) with (l ++ ([a; b; c] ++ [d]));
        rewrite app_assoc, last_last
    end.
    subst data. simpl. destruct t; reflexivity.
Qed.

Lemma recording_bars_reachable : Recording.reachable recording_bars.
Proof.
  unfold recording_bars, Recording.run. cbn [fold_left].
  repeat apply Recording.reachable_step. apply Recording.reachable_mount.
Qed.

(** C4.  The second revision does not do what the claim says, and the
    first does (see above).  In the second revision in use (permission
    granted, the microphone listed and selected, Start Recording clicked and
    the stream granted, the style switched to bars, the analyser with data)
    the component is recording with the bars style current, yet no buffer
    has been read, nothing but the background has been painted, and
    whichever frame handle the scheduler runs, nothing happens: the only
    frame cycle ran inside [startRecording], tested the [isRecording] its
    closure captured and returned without requesting a frame. *)
Theorem active_recording_runs_no_frame_cycle :
  Recording.reachable recording_bars
  /\ Recording.isRecording (Recording.state recording_bars) = true
  /\ Recording.visualizationType (Recording.state recording_bars) = Recording.bar
  /\ Recording.frequencyData (Recording.host recording_bars) = zeros
  /\ ~ In read_frequency (Recording.trace recording_bars)
  /\ ~ In read_time_domain (Recording.trace recording_bars)
  /\ (forall cmds,
        In (painted cmds) (Recording.trace recording_bars) ->
        exists r, cmds = [fillStyle (Css "rgb(20, 20, 20)");
                          fillRect 0 0 (width r) (height r)])
  /\ (forall h raises,
        Recording.step (Recording.animation_frame h raises) recording_bars
        = recording_bars).
Proof.
  pose proof recording_bars_reachable as Hw.
  pose proof (RecordingFacts.rec_reachable_quiet recording_bars Hw) as Hq.
  split; [exact Hw|]. split; [reflexivity|]. split; [reflexivity|].
  split; [reflexivity|].
  split; [exact (Hq read_frequency)|]. split; [exact (Hq read_time_domain)|].
  split; [intros cmds; exact (Hq (painted cmds))|].
  intros h raises. cbn [Recording.step]. unfold Recording.find_frame.
  rewrite (proj1 (RecordingFacts.rec_reachable_stale recording_bars Hw)).
  reflexivity.
Qed.

(** C7, as amended.  Neither revision reads the geometry for the transform
    in the frame cycle.  First revision: [visualize] reads the canvas size
    once and hands it to the closure [draw]; every cycle of that closure
    washes and transforms with that size, and what it does is the same
    whether or not the canvas was resized before it.  Second revision:
    [draw] reads the layout box once and hands it to the closure
    [drawFrame], whose transform gets that box in every cycle that is past
    the recording test, resized or not. *)
Theorem frame_geometry_is_cached :
  (forall raises w c a,
     Visualization.canvas (Visualization.host w) = Some c ->
     Visualization.analyserRef (Visualization.refs w) = Some a ->
     exists h,
       Visualization.frames
         (Visualization.host (fst (Visualization.visualize raises w)))
       = (h, {| Visualization.analyser := a;
                Visualization.bufferLength := frequencyBinCount;
                Visualization.cwidth := width c;
                Visualization.cheight := height c |})
           :: Visualization.frames (Visualization.host w))
  /\ (forall cl raises r w,
        Visualization.trace
          (fst (Visualization.draw cl raises
                  (Visualization.step (Visualization.resize r) w)))
        = Visualization.trace (fst (Visualization.draw cl raises w)))
  /\ (forall p an w,
        Recording.mounted (Recording.host w) = true ->
        Recording.isRecording p = true ->
        exists h,
          Recording.frames (Recording.host (Recording.draw p an false w))
          = (h, {| Recording.props := p; Recording.analyserNode := an;
                   Recording.rect := Recording.box (Recording.host w);
                   Recording.bufferLength := frequencyBinCount |})
              :: Recording.frames (Recording.host w))
  /\ (forall cl raises r w,
        Recording.trace
          (Recording.drawFrame cl raises
             (Recording.step (Recording.resize r) w))
        = Recording.trace (Recording.drawFrame cl raises w))
  /\ (forall cl data,
        Visualization.transform Visualization.line data cl
        = Visualization.drawLine data (Visualization.bufferLength cl)
            (Visualization.cwidth cl) (Visualization.cheight cl)
        /\ Visualization.transform Visualization.circle data cl
           = Visualization.drawCircle data (Visualization.bufferLength cl)
               (Visualization.cwidth cl) (Visualization.cheight cl)
        /\ Visualization.transform Visualization.bar data cl
           = Visualization.drawBars data (Visualization.bufferLength cl)
               (Visualization.cwidth cl) (Visualization.cheight cl))
  /\ (forall cl w,
        exists w',
          Visualization.draw cl false w = (w', false)
          /\ last (Visualization.trace w') uncaught
             = painted
                 (Visualization.transform
                    (Visualization.visualizationTypeRef (Visualization.refs w))
                    (match Visualization.visualizationTypeRef (Visualization.refs w) with
                     | Visualization.bar =>
                         Visualization.frequencyData (Visualization.host w)
                     | _ => Visualization.timeDomainData (Visualization.host w)
                     end) cl))
  /\ (forall cl w,
        Recording.isRecording (Recording.props cl) = true ->
        In (painted
              (Recording.transform
                 (Recording.visualizationType (Recording.props cl))
                 (Recording.frequencyData (Recording.host w))
                 (Recording.rect cl)))
           (Recording.trace (Recording.drawFrame cl false w))).
Proof.
  repeat match goal with |- _ /\ _ => split end.
  - exact VisualizationFacts.vis_visualize_captures.
  - exact VisualizationFacts.vis_draw_ignores_resize.
  - exact RecordingFacts.rec_draw_captures.
  - exact RecordingFacts.rec_drawFrame_ignores_resize.
  - intros cl data. repeat split; reflexivity.
  - intros cl w.
    destruct (VisualizationFacts.vis_draw_returns cl w) as (w' & Hd & Ht).
    exists w'. split; [exact Hd|]. rewrite Ht.
    match goal with
    | |- last (?l ++ [?a; ?b; ?c; ?d]) _ = _ =>
        change (l ++ [a; b; c; d]) with (l ++ ([a; b; c] ++ [d]));
        rewrite app_assoc, last_last
    end.
    reflexivity.
  - exact RecordingFacts.rec_drawFrame_paints.
Qed.

Lemma frame_geometry_is_cached_witness :
  Recording.mounted (Recording.host recording) = true
  /\ Recording.isRecording (Recording.props (frame_closure Recording.bar)) = true
  /\ exists h,
       Recording.frames
         (Recording.host
            (Recording.draw (Recording.props (frame_closure Recording.bar))
               4 false recording))
       = (h, {| Recording.props := Recording.props (frame_closure Recording.bar);
                Recording.analyserNode := 4;
                Recording.rect := Recording.box (Recording.host recording);
                Recording.bufferLength := frequencyBinCount |})
           :: Recording.frames (Recording.host recording).
Proof.
  split; [reflexivity|]. split; [reflexivity|].
  exact (proj1 (proj2 (proj2 frame_geometry_is_cached))
           (Recording.props (frame_closure Recording.bar)) 4%nat recording
           eq_refl eq_refl).
Defined.

Lemma drawLine_first_vertex (data : list Z) (n : nat) (w h : R) :
  nth 3 (Visualization.drawLine data (S n) w h) stroke
  = moveTo 0 (Visualization.drawLine_y h (nth 0 data 0%Z)).
Proof. reflexivity. Qed.

(** C7 fails as stated: in the first revision, a loop started on an
    800 x 400 canvas that is resized to 400 x 200 before its next frame
    still draws that frame for 800 x 400: the line transform got the old
    size, and what it drew is not what it draws for the new size. *)
Lemma resized_frame_uses_old_geometry :
  Visualization.canvas (Visualization.host frame_after_resize) = Some small_surface
  /\ last (Visualization.trace frame_after_resize) uncaught
     = painted (Visualization.drawLine zeros frequencyBinCount 800 400)
  /\ Visualization.drawLine zeros frequencyBinCount 800 400
     <> Visualization.drawLine zeros frequencyBinCount 400 200.
Proof.
  split; [reflexivity|]. split.
  - unfold frame_after_resize, visualizing.
    cbn -[Visualization.transform frequencyBinCount zeros]. reflexivity.
  - intros E.
    apply (f_equal (fun l => nth 3 l stroke)) in E.
    unfold zeros in E. change frequencyBinCount with (S 1023) in E.
    rewrite !drawLine_first_vertex in E. cbn [repeat nth] in E.
    injection E as E. rewrite !drawLine_y_affine in E. lra.
Qed.

(** In the second revision no frame request is ever pending in a world
    reached through the page's events: the [drawFrame] that the button's
    [startRecording] creates saw [isRecording = false] and returns at its
    test. *)
Remark recording_requests_no_frame (w : Recording.World) :
  Recording.reachable w ->
  Recording.frames (Recording.host w) = []
  /\ Recording.animationFrameId (Recording.refs w) = None.
Proof.
  intros Hw.
  destruct (RecordingFacts.rec_reachable_stale w Hw) as (Hf & Ha & _).
  split; assumption.
Qed.

(** * Further properties of the transforms *)

Lemma seq_succ_map (n : nat) : seq 1 n = map S (seq 0 n).
Proof. symmetry. apply seq_shift. Qed.

Lemma nth_byte_range (data : list Z) (k : nat) :
  Forall byte_range data -> byte_range (nth k data 0%Z).
Proof.
  intros H. destruct (Nat.lt_ge_cases k (List.length data)) as [Hk|Hk].
  - apply Forall_nth; assumption.
  - rewrite nth_overflow by exact Hk. unfold byte_range. lia.
Qed.

(** The loop of [drawLine]: one vertex per iteration, [sliceWidth] apart. *)
Lemma drawLine_loop_vertices (data : list Z) (sliceWidth h : R) :
  forall (n i : nat) (x : R),
    vertices (Visualization.drawLine_loop data sliceWidth h n i x)
    = map (fun k => (x + INR k * sliceWidth,
                     Visualization.drawLine_y h (nth (i + k) data 0%Z)))
        (seq 0 n).
Proof.
  induction n as [|n IH]; intros i x; [reflexivity|].
  cbn [Visualization.drawLine_loop seq map].
  rewrite seq_succ_map, map_map.
  assert (Hhead : vertices
            ((if Nat.eqb i 0
              then moveTo x (Visualization.drawLine_y h (nth i data 0%Z))
              else lineTo x (Visualization.drawLine_y h (nth i data 0%Z)))
             :: Visualization.drawLine_loop data sliceWidth h n (S i)
                  (x + sliceWidth))
          = (x, Visualization.drawLine_y h (nth i data 0%Z))
              :: vertices (Visualization.drawLine_loop data sliceWidth h n (S i)
                             (x + sliceWidth)))
    by (destruct (Nat.eqb i 0); reflexivity).
  rewrite Hhead, IH. f_equal.
  - rewrite Nat.add_0_r. f_equal. simpl. ring.
  - apply map_ext. intros k. rewrite S_INR.
    replace (S i + k)%nat with (i + S k)%nat by lia. f_equal. ring.
Qed.

(** X1.  The first revision's waveform: the [k]-th of the [n] vertices is at
    the abscissa [k * width / n] and at the ordinate of sample [k]; with
    samples in [0, 255] on a surface of non-negative sides the whole path
    lies on the surface. *)
Theorem drawLine_path_on_surface (data : list Z) (n : nat) (w h : R)
    (Hw : 0 <= w) (Hh : 0 <= h) (Hdata : Forall byte_range data) :
  vertices (Visualization.drawLine data n w h)
  = map (fun k => (INR k * (w / INR n),
                   Visualization.drawLine_y h (nth k data 0%Z)))
      (seq 0 n)
  /\ Forall (fun p => 0 <= fst p <= w /\ 0 <= snd p <= h)
       (vertices (Visualization.drawLine data n w h)).
Proof.
  assert (E : vertices (Visualization.drawLine data n w h)
              = map (fun k => (INR k * (w / INR n),
                               Visualization.drawLine_y h (nth k data 0%Z)))
                  (seq 0 n)).
  { unfold Visualization.drawLine. cbv zeta.
    rewrite !vertices_app, drawLine_loop_vertices. simpl.
    rewrite app_nil_r. apply map_ext. intros k. f_equal. ring. }
  split; [exact E|]. rewrite E. apply Forall_forall.
  intros p Hp. apply in_map_iff in Hp. destruct Hp as (k & <- & Hk).
  apply in_seq in Hk. cbn [fst snd].
  assert (Hn : 0 < INR n) by (apply lt_0_INR; lia).
  assert (Hk0 : 0 <= INR k) by apply pos_INR.
  assert (Hkn : INR k < INR n) by (apply lt_INR; lia).
  pose proof (byte_range_IZR _ (nth_byte_range data k Hdata)) as Hs.
  rewrite drawLine_y_affine. split.
  - assert (Hslot : 0 <= w / INR n) by (apply slot_width; exact Hw).
    split; [nra|].
    replace w with (INR n * (w / INR n)) at 2 by (field; lra). nra.
  - split; nra.
Qed.

Lemma drawLine_path_on_surface_witness :
  0 <= 400 /\ 0 <= 200 /\ Forall byte_range [0; 255]%Z
  /\ Forall (fun p => 0 <= fst p <= 400 /\ 0 <= snd p <= 200)
       (vertices (Visualization.drawLine [0; 255]%Z 2 400 200)).
Proof.
  assert (Hd : Forall byte_range [0; 255]%Z)
    by (repeat constructor; unfold byte_range; lia).
  split; [lra|]. split; [lra|]. split; [exact Hd|].
  exact (proj2 (drawLine_path_on_surface [0; 255]%Z 2 400 200
                  ltac:(lra) ltac:(lra) Hd)).
Defined.

(** The loop of [drawStraightLine]: one vertex per sample. *)
Lemma drawStraightLine_loop_vertices (sliceWidth : R) (rect : Rect) :
  forall (samples : list Z) (i : nat) (x : R),
    vertices (Recording.drawStraightLine_loop samples sliceWidth rect i x)
    = map (fun k => (x + INR k * sliceWidth,
                     Recording.drawStraightLine_y rect (nth k samples 0%Z)))
        (seq 0 (List.length samples)).
Proof.
  induction samples as [|s rest IH]; intros i x; [reflexivity|].
  cbn [Recording.drawStraightLine_loop List.length seq map].
  rewrite seq_succ_map, map_map.
  assert (Hhead : forall y tl,
            vertices ((if Nat.eqb i 0 then moveTo x y else lineTo x y) :: tl)
            = (x, y) :: vertices tl)
    by (intros; destruct (Nat.eqb i 0); reflexivity).
  rewrite Hhead, IH. f_equal.
  - f_equal. simpl. ring.
  - apply map_ext. intros k. rewrite S_INR. cbn [nth]. f_equal. ring.
Qed.

(** X2.  The second revision's line: the [k]-th data vertex is at the
    abscissa [k * width / N] and at the ordinate of sample [k], and the path
    ends with the centre guide line; with samples in [0, 255] on a surface
    of non-negative sides every data vertex lies on the surface, in its
    upper half (never below the centre line). *)
Theorem drawStraightLine_path_upper_half (data : list Z) (w h : R)
    (Hw : 0 <= w) (Hh : 0 <= h) (Hdata : Forall byte_range data) :
  let rect := {| width := w; height := h |} in
  let path :=
    map (fun k => (INR k * (w / INR (List.length data)),
                   Recording.drawStraightLine_y rect (nth k data 0%Z)))
      (seq 0 (List.length data)) in
  vertices (Recording.drawStraightLine data rect)
  = path ++ [(0, h / 2); (w, h / 2)]
  /\ Forall (fun p => 0 <= fst p <= w /\ 0 <= snd p <= h / 2) path.
Proof.
  intros rect path. split.
  - unfold Recording.drawStraightLine. cbv zeta.
    rewrite !vertices_app, drawStraightLine_loop_vertices. simpl.
    f_equal. apply map_ext. intros k. f_equal. ring.
  - subst path. apply Forall_forall.
    intros p Hp. apply in_map_iff in Hp. destruct Hp as (k & <- & Hk).
    apply in_seq in Hk. cbn [fst snd].
    set (n := List.length data) in *.
    assert (Hn : 0 < INR n) by (apply lt_0_INR; lia).
    assert (Hk0 : 0 <= INR k) by apply pos_INR.
    assert (Hkn : INR k < INR n) by (apply lt_INR; lia).
    pose proof (byte_range_IZR _ (nth_byte_range data k Hdata)) as Hs.
    unfold rect. rewrite drawStraightLine_y_affine. split.
    + assert (Hslot : 0 <= w / INR n) by (apply slot_width; exact Hw).
      split; [nra|].
      replace w with (INR n * (w / INR n)) at 2 by (field; lra). nra.
    + split; nra.
Qed.

Lemma drawStraightLine_path_upper_half_witness :
  0 <= 400 /\ 0 <= 200 /\ Forall byte_range [0; 255]%Z
  /\ vertices (Recording.drawStraightLine [0; 255]%Z
                 {| width := 400; height := 200 |})
     = map (fun k => (INR k * (400 / INR 2),
                      Recording.drawStraightLine_y
                        {| width := 400; height := 200 |}
                        (nth k [0; 255]%Z 0%Z)))
         (seq 0 2)
       ++ [(0, 200 / 2); (400, 200 / 2)].
Proof.
  assert (Hd : Forall byte_range [0; 255]%Z)
    by (repeat constructor; unfold byte_range; lia).
  split; [lra|]. split; [lra|]. split; [exact Hd|].
  exact (proj1 (drawStraightLine_path_upper_half [0; 255]%Z 400 200
                  ltac:(lra) ltac:(lra) Hd)).
Defined.

(** The loop of the first revision's [drawCircle], one iteration unfolded. *)
Lemma drawCircle_loop_step (data : list Z) (n : nat) (cx cy r : R)
    (fuel i : nat) :
  (i < n)%nat ->
  exists x y px py,
    Visualization.drawCircle_loop data n cx cy r (S fuel) i
    = [beginPath; arc x y 2 0 (2 * PI); fillStyle (Css "#a78bfa"); fill]
        ++ (if Nat.ltb 0 i then
              [beginPath; moveTo px py; lineTo x y;
               strokeStyle (Css "#a78bfa"); lineWidth 1; stroke]
            else [])
        ++ Visualization.drawCircle_loop data n cx cy r fuel (i + 8).
Proof.
  intros Hi. cbn [Visualization.drawCircle_loop].
  destruct (Nat.ltb_spec i n) as [_|Hge]; [|lia].
  destruct (Visualization.drawCircle_point data n cx cy r i) as [x y].
  destruct (Visualization.drawCircle_point data n cx cy r (i - 8)) as [px py].
  exists x, y, px, py. reflexivity.
Qed.

Lemma drawCircle_loop_count (data : list Z) (n : nat) (cx cy r : R) :
  forall (fuel i : nat),
    (n <= i + 8 * fuel)%nat ->
    let c := List.length
               (arc_centres (Visualization.drawCircle_loop data n cx cy r fuel i)) in
    (n <= i + 8 * c)%nat /\ (0 < c -> i + 8 * c < n + 8)%nat.
Proof.
  induction fuel as [|fuel IH]; intros i Hf c; subst c.
  - simpl. lia.
  - destruct (Nat.lt_ge_cases i n) as [Hi|Hi].
    + destruct (drawCircle_loop_step data n cx cy r fuel i Hi)
        as (x & y & px & py & ->).
      specialize (IH (i + 8)%nat ltac:(lia)). cbv zeta in IH.
      rewrite !arc_centres_app.
      destruct (Nat.ltb 0 i); cbn [arc_centres app List.length]; lia.
    + cbn [Visualization.drawCircle_loop].
      destruct (Nat.ltb_spec i n) as [Hlt|_]; [lia|]. simpl. lia.
Qed.

Lemma drawCircle_loop_segments (data : list Z) (n : nat) (cx cy r : R) :
  forall (fuel i : nat),
    (0 < i)%nat ->
    let cmds := Visualization.drawCircle_loop data n cx cy r fuel i in
    List.length (vertices cmds) = (2 * List.length (arc_centres cmds))%nat
    /\ moves cmds = List.length (arc_centres cmds).
Proof.
  induction fuel as [|fuel IH]; intros i Hi cmds; subst cmds.
  - simpl. auto.
  - destruct (Nat.lt_ge_cases i n) as [Hlt|Hge].
    + destruct (drawCircle_loop_step data n cx cy r fuel i Hlt)
        as (x & y & px & py & ->).
      specialize (IH (i + 8)%nat ltac:(lia)). cbv zeta in IH.
      destruct IH as (IHv & IHm).
      destruct (Nat.ltb_spec 0 i) as [_|Hz]; [|lia].
      rewrite !arc_centres_app, !vertices_app, !moves_app.
      cbn [arc_centres vertices moves app List.length]. rewrite ?length_app.
      cbn [List.length]. lia.
    + cbn [Visualization.drawCircle_loop].
      destruct (Nat.ltb_spec i n) as [Hlt|_]; [lia|]. simpl. auto.
Qed.

Lemma drawCircle_loop_open (data : list Z) (n : nat) (cx cy r : R) :
  forall (fuel i : nat),
    ~ In closePath (Visualization.drawCircle_loop data n cx cy r fuel i).
Proof.
  induction fuel as [|fuel IH]; intros i; [simpl; tauto|].
  destruct (Nat.lt_ge_cases i n) as [Hlt|Hge].
  - destruct (drawCircle_loop_step data n cx cy r fuel i Hlt)
      as (x & y & px & py & ->).
    intros Hin. apply in_app_or in Hin. destruct Hin as [Hin|Hin].
    + simpl in Hin. intuition discriminate.
    + apply in_app_or in Hin. destruct Hin as [Hin|Hin].
      * destruct (Nat.ltb 0 i); simpl in Hin; intuition discriminate.
      * exact (IH _ Hin).
  - cbn [Visualization.drawCircle_loop].
    destruct (Nat.ltb_spec i n) as [Hlt|_]; [lia|]. simpl. tauto.
Qed.

(** The loop of the first revision's [drawCircle] started at a multiple of
    8: its commands, iteration by iteration. *)
Lemma drawCircle_loop_unfold (data : list Z) (n : nat) (cx cy r : R) :
  forall (fuel k : nat),
    (n <= 8 * k + 8 * fuel)%nat ->
    Visualization.drawCircle_loop data n cx cy r fuel (8 * k)
    = flat_map
        (fun k =>
           let '(x, y) := Visualization.drawCircle_point data n cx cy r (8 * k) in
           [beginPath; arc x y 2 0 (2 * PI); fillStyle (Css "#a78bfa"); fill]
             ++ (if Nat.ltb 0 k then
                   let '(prevX, prevY) :=
                     Visualization.drawCircle_point data n cx cy r (8 * (k - 1)) in
                   [beginPath; moveTo prevX prevY; lineTo x y;
                    strokeStyle (Css "#a78bfa"); lineWidth 1; stroke]
                 else []))
        (seq k ((n + 7) / 8 - k)).
Proof.
  pose proof (Nat.div_mod_eq (n + 7) 8) as Hq.
  pose proof (Nat.mod_upper_bound (n + 7) 8 ltac:(lia)) as Hr.
  revert Hq Hr. generalize ((n + 7) mod 8)%nat. generalize ((n + 7) / 8)%nat.
  intros d m Hq Hr.
  induction fuel as [|fuel IH]; intros k Hf.
  - replace (d - k)%nat with 0%nat by lia. reflexivity.
  - cbn [Visualization.drawCircle_loop].
    destruct (Nat.ltb_spec (8 * k) n) as [Hlt|Hge].
    + replace (d - k)%nat with (S (d - S k)) by lia.
      cbn [seq flat_map].
      replace (8 * k + 8)%nat with (8 * S k)%nat by lia.
      rewrite (IH (S k)) by lia.
      replace (8 * k - 8)%nat with (8 * (k - 1))%nat by lia.
      destruct (Visualization.drawCircle_point data n cx cy r (8 * k))
        as [x y].
      destruct (Visualization.drawCircle_point data n cx cy r (8 * (k - 1)))
        as [px py].
      destruct k as [|k].
      * reflexivity.
      * replace (0 <? 8 * S k)%nat with true
          by (symmetry; apply Nat.ltb_lt; lia).
        cbn [Nat.ltb Nat.leb]. rewrite <- !app_assoc. reflexivity.
    + replace (d - k)%nat with 0%nat by lia. reflexivity.
Qed.

(** X3.  The first revision's radial transform plots every eighth sample
    only.  After the base circle it runs through the indices 0, 8, 16, ...
    below the buffer length [n], [ceil(n / 8)] of them: for each it draws
    the dot of that sample at [drawCircle_point], and for each but the first
    a separate segment from the dot of the index 8 below to this dot.  So it
    draws [ceil(n / 8)] dots and one segment fewer, and it never closes the
    path (the last dot is not joined to the first). *)
Theorem drawCircle_plots_every_eighth (data : list Z) (n : nat) (w h : R) :
  let cmds := Visualization.drawCircle data n w h in
  let point :=
    Visualization.drawCircle_point data n (w / 2) (h / 2) (Rmin w h / 4) in
  let dots := ((n + 7) / 8)%nat in
  cmds
  = [beginPath; arc (w / 2) (h / 2) (Rmin w h / 4) 0 (2 * PI);
     strokeStyle (Css "#a78bfa"); lineWidth 2; stroke]
      ++ flat_map
           (fun k =>
              let '(x, y) := point (8 * k)%nat in
              [beginPath; arc x y 2 0 (2 * PI); fillStyle (Css "#a78bfa"); fill]
                ++ (if Nat.ltb 0 k then
                      let '(prevX, prevY) := point (8 * (k - 1))%nat in
                      [beginPath; moveTo prevX prevY; lineTo x y;
                       strokeStyle (Css "#a78bfa"); lineWidth 1; stroke]
                    else []))
           (seq 0 dots)
  /\ List.length (arc_centres cmds) = S dots
  /\ List.length (vertices cmds) = (2 * (dots - 1))%nat
  /\ moves cmds = (dots - 1)%nat
  /\ ~ In closePath cmds.
Proof.
  intros cmds point dots. split.
  { subst cmds point dots. unfold Visualization.drawCircle. cbv zeta.
    f_equal.
    pose proof (drawCircle_loop_unfold data n (w / 2) (h / 2) (Rmin w h / 4)
                  n 0 ltac:(lia)) as E.
    rewrite Nat.sub_0_r in E. exact E. }
  assert (Hold :
    let c := (List.length (arc_centres cmds) - 1)%nat in
    (n <= 8 * c)%nat /\ (8 * c < n + 8)%nat
    /\ List.length (arc_centres cmds) = S c
    /\ List.length (vertices cmds) = (2 * (c - 1))%nat
    /\ moves cmds = (c - 1)%nat
    /\ ~ In closePath cmds).
  { subst cmds. unfold Visualization.drawCircle. cbv zeta.
    set (cx := w / 2). set (cy := h / 2). set (r := Rmin w h / 4).
    rewrite arc_centres_app, vertices_app, moves_app, length_app.
    cbn [arc_centres vertices moves List.length app Nat.add].
    replace (1 + List.length
                   (arc_centres (Visualization.drawCircle_loop data n cx cy r n 0)) - 1)%nat
      with (List.length
              (arc_centres (Visualization.drawCircle_loop data n cx cy r n 0)))
      by lia.
    pose proof (drawCircle_loop_count data n cx cy r n 0 ltac:(lia)) as Hc.
    cbv zeta in Hc.
    assert (Hopen : ~ In closePath
                        ([beginPath; arc cx cy r 0 (2 * PI);
                          strokeStyle (Css "#a78bfa"); lineWidth 2; stroke]
                         ++ Visualization.drawCircle_loop data n cx cy r n 0)).
    { intros Hin. apply in_app_or in Hin. destruct Hin as [Hin|Hin].
      - simpl in Hin. intuition discriminate.
      - exact (drawCircle_loop_open data n cx cy r n 0 Hin). }
    destruct n as [|m].
    - simpl. repeat split; auto; lia.
    - destruct (drawCircle_loop_step data (S m) cx cy r m 0 ltac:(lia))
        as (x & y & px & py & E).
      rewrite E in Hc |- *. cbn [Nat.ltb Nat.leb app] in Hc |- *.
      pose proof (drawCircle_loop_segments data (S m) cx cy r m 8 ltac:(lia))
        as (Hv & Hm).
      cbn [arc_centres vertices moves List.length app Nat.add] in Hc |- *.
      rewrite E in Hopen. cbn [Nat.ltb Nat.leb app] in Hopen.
      repeat split; try lia; exact Hopen. }
  cbv zeta in Hold. destruct Hold as (H1 & H2 & H3 & H4 & H5 & H6).
  assert (E : (List.length (arc_centres cmds) - 1)%nat = dots).
  { subst dots. pose proof (Nat.div_mod_eq (n + 7) 8).
    pose proof (Nat.mod_upper_bound (n + 7) 8 ltac:(lia)). lia. }
  rewrite E in H3, H4, H5. auto.
Qed.

Lemma drawCircle_loop_vertices (len : nat) (rect : Rect) :
  forall (samples : list Z) (i : nat),
    let cmds := Recording.drawCircle_loop samples len rect i in
    vertices cmds
    = map (fun k =>
             let angle := INR (i + k) * 2 * PI / INR len in
             let radius := Recording.radius rect (nth k samples 0%Z) in
             (width rect / 2 + radius * cos angle,
              height rect / 2 + radius * sin angle))
        (seq 0 (List.length samples))
    /\ moves cmds
       = (if Nat.eqb i 0 then Nat.min (List.length samples) 1 else 0)%nat
    /\ ~ In closePath cmds.
Proof.
  induction samples as [|s rest IH]; intros i cmds; subst cmds.
  - simpl. destruct (Nat.eqb i 0); auto.
  - destruct (IH (S i)) as (IHv & IHm & IHc).
    cbn [Recording.drawCircle_loop List.length seq map].
    rewrite seq_succ_map, map_map.
    assert (Hv : forall x y tl,
              vertices ((if Nat.eqb i 0 then moveTo x y else lineTo x y) :: tl)
              = (x, y) :: vertices tl)
      by (intros; destruct (Nat.eqb i 0); reflexivity).
    rewrite Hv, IHv. split; [|split].
    + f_equal.
      * rewrite Nat.add_0_r. reflexivity.
      * apply map_ext. intros k. cbv zeta. cbn [nth].
        replace (S i + k)%nat with (i + S k)%nat by lia. reflexivity.
    + destruct (Nat.eqb i 0) eqn:E; cbn [moves]; rewrite IHm; simpl.
      * destruct (List.length rest); reflexivity.
      * reflexivity.
    + intros [Hin|Hin]; [|exact (IHc Hin)].
      destruct (Nat.eqb i 0); discriminate.
Qed.

(** X4.  The second revision's radial transform plots every sample: the
    [k]-th of the [N] vertices is at the angle [k * 2 * PI / N] and at the
    radius of sample [k]; the vertices form one sub-path, which is closed
    back to its first vertex before it is stroked. *)
Theorem drawCircle_one_closed_path (data : list Z) (rect : Rect) :
  let cmds := Recording.drawCircle data rect in
  vertices cmds
  = map (fun k =>
           let angle := INR k * 2 * PI / INR (List.length data) in
           let radius := Recording.radius rect (nth k data 0%Z) in
           (width rect / 2 + radius * cos angle,
            height rect / 2 + radius * sin angle))
      (seq 0 (List.length data))
  /\ moves cmds = Nat.min (List.length data) 1
  /\ exists body, cmds = body ++ [closePath; stroke] /\ ~ In closePath body.
Proof.
  intros cmds. subst cmds. unfold Recording.drawCircle. cbv zeta.
  destruct (drawCircle_loop_vertices (List.length data) rect data 0)
    as (Hv & Hm & Hc).
  rewrite !vertices_app, !moves_app, Hv, Hm. simpl.
  rewrite app_nil_r, Nat.add_0_r. split; [reflexivity|]. split; [reflexivity|].
  eexists. split.
  - rewrite !app_comm_cons. reflexivity.
  - simpl. intros Hin.
    repeat (destruct Hin as [Hin|Hin]; [discriminate|]).
    exact (Hc Hin).
Qed.

(** The loop of the first revision's [drawBars]: the bars drawn are those
    of consecutive samples, [barWidth + 1] apart, and the last one drawn
    starts within the width. *)
Lemma drawBars_loop_rects (data : list Z) (barWidth w h : R) :
  0 <= barWidth ->
  forall (n i : nat) (x : R),
    x <= w ->
    exists m,
      (m <= n)%nat /\ (0 < n -> 0 < m)%nat
      /\ rects (Visualization.drawBars_loop data barWidth w h n i x)
         = map (fun k =>
                  let barHeight := IZR (nth (i + k) data 0%Z) / 255 * h in
                  (x + INR k * (barWidth + 1), h - barHeight,
                   barWidth, barHeight))
             (seq 0 m)
      /\ INR m * (barWidth + 1) <= w - x + (barWidth + 1).
Proof.
  intros Hb. induction n as [|n IH]; intros i x Hx.
  - exists 0%nat. simpl. repeat split; try lia. lra.
  - cbn [Visualization.drawBars_loop]. cbv zeta.
    destruct (Rlt_dec w (x + (barWidth + 1))) as [Hout|Hin].
    + exists 1%nat. cbn [rects app seq map].
      rewrite Nat.add_0_r. repeat split; try lia.
      * do 2 f_equal. f_equal. f_equal. simpl. ring.
      * simpl. lra.
    + destruct (IH (S i) (x + (barWidth + 1)) ltac:(lra))
        as (m & Hm & Hpos & Hr & Hlen).
      exists (S m). cbn [rects app]. rewrite Hr.
      cbn [seq map]. rewrite seq_succ_map, map_map, Nat.add_0_r.
      repeat split; try lia.
      * f_equal.
        -- do 3 f_equal. simpl. ring.
        -- apply map_ext. intros k. cbv zeta. rewrite S_INR.
           replace (S i + k)%nat with (i + S k)%nat by lia.
           do 3 f_equal. ring.
      * rewrite S_INR. lra.
Qed.

(** X5.  The first revision's bars, on a surface of positive width with a
    non-empty buffer of samples in [0, 255]: the [m] bars drawn are those of
    samples [0 .. m-1], bar [k] at the abscissa [k * (barWidth + 1)]; each
    stands on the bottom edge and is at most as high as the surface; at
    least one bar is drawn, and [(m - 1) * 2.5 < n]: the samples beyond the
    first two fifths of the buffer are never drawn. *)
Theorem drawBars_draws_low_bins (data : list Z) (n : nat) (w h : R)
    (Hw : 0 < w) (Hh : 0 <= h) (Hn : (0 < n)%nat)
    (Hdata : Forall byte_range data) :
  let barWidth := w / INR n * 2.5 in
  exists m,
    (1 <= m <= n)%nat
    /\ rects (Visualization.drawBars data n w h)
       = map (fun k =>
                let barHeight := IZR (nth k data 0%Z) / 255 * h in
                (INR k * (barWidth + 1), h - barHeight, barWidth, barHeight))
           (seq 0 m)
    /\ (INR m - 1) * 2.5 < INR n
    /\ Forall (fun r => let '(_, y, _, bh) := r in
                 0 <= bh <= h /\ y + bh = h)
         (rects (Visualization.drawBars data n w h)).
Proof.
  intros barWidth.
  assert (HN : 0 < INR n) by (apply lt_0_INR; exact Hn).
  assert (Ha : 0 < w / INR n) by (apply Rdiv_lt_0_compat; assumption).
  assert (Han : w / INR n * INR n = w) by (field; lra).
  assert (Hbw : 0 <= barWidth) by (subst barWidth; lra).
  destruct (drawBars_loop_rects data barWidth w h Hbw n 0 0 ltac:(lra))
    as (m & Hm & Hpos & Hr & Hlen).
  exists m. unfold Visualization.drawBars. cbv zeta. fold barWidth.
  assert (E : rects (Visualization.drawBars_loop data barWidth w h n 0 0)
              = map (fun k =>
                       let barHeight := IZR (nth k data 0%Z) / 255 * h in
                       (INR k * (barWidth + 1), h - barHeight, barWidth,
                        barHeight))
                  (seq 0 m)).
  { rewrite Hr. apply map_ext. intros k. cbv zeta. simpl. do 3 f_equal. ring. }
  specialize (Hpos Hn).
  split; [lia|]. split; [exact E|]. split.
  - assert (Hm1 : 1 <= INR m) by (apply (le_INR 1); lia).
    subst barWidth. set (a := w / INR n) in *.
    destruct (Rle_lt_dec (INR n) ((INR m - 1) * 2.5)) as [Hbad|Hok]; [|exact Hok].
    exfalso. nra.
  - rewrite E. apply Forall_forall. intros p Hp.
    apply in_map_iff in Hp. destruct Hp as (k & <- & _). cbv zeta.
    pose proof (byte_range_IZR _ (nth_byte_range data k Hdata)) as Hs.
    split; [split; nra | ring].
Qed.

Lemma drawBars_draws_low_bins_witness :
  0 < 400 /\ 0 <= 200 /\ (0 < 4)%nat /\ Forall byte_range [255; 0; 255; 0]%Z
  /\ exists m,
       (1 <= m <= 4)%nat
       /\ (INR m - 1) * 2.5 < INR 4
       /\ List.length (rects (Visualization.drawBars [255; 0; 255; 0]%Z 4 400 200))
          = m.
Proof.
  assert (Hd : Forall byte_range [255; 0; 255; 0]%Z)
    by (repeat constructor; unfold byte_range; lia).
  split; [lra|]. split; [lra|]. split; [lia|]. split; [exact Hd|].
  destruct (drawBars_draws_low_bins [255; 0; 255; 0]%Z 4 400 200
              ltac:(lra) ltac:(lra) ltac:(lia) Hd) as (m & Hm & Hr & Hb & _).
  exists m. split; [exact Hm|]. split; [exact Hb|].
  rewrite Hr, length_map, length_seq. reflexivity.
Defined.

(** The loop of the second revision's [drawBars]: one bar per sample, one
    slot apart. *)
Lemma drawBars_loop_all (barWidth barSpacing : R) (rect : Rect) :
  forall (samples : list Z) (x : R),
    rects (Recording.drawBars_loop samples barWidth barSpacing rect x)
    = map (fun k =>
             let barHeight := height rect * (IZR (nth k samples 0%Z) / 255) in
             (x + INR k * (barWidth + barSpacing), height rect - barHeight,
              barWidth, barHeight))
        (seq 0 (List.length samples)).
Proof.
  induction samples as [|s rest IH]; intros x; [reflexivity|].
  cbn [Recording.drawBars_loop]. cbv zeta. rewrite rects_app, IH.
  cbn [rects app List.length seq map]. rewrite seq_succ_map, map_map.
  f_equal.
  - do 3 f_equal. simpl. ring.
  - apply map_ext. intros k. cbv zeta. rewrite S_INR. cbn [nth].
    do 3 f_equal. ring.
Qed.

(** X6.  The second revision's bars, with samples in [0, 255] on a surface
    of non-negative height: every sample gets a bar, bar [k] at the abscissa
    [k * width / N], [0.8 * width / N] wide and [height * s / 255] high;
    each stands on the bottom edge and is at most as high as the surface. *)
Theorem drawBars_one_bar_per_sample (data : list Z) (w h : R)
    (Hh : 0 <= h) (Hdata : Forall byte_range data) :
  let rect := {| width := w; height := h |} in
  let N := List.length data in
  rects (Recording.drawBars data rect)
  = map (fun k =>
           let barHeight := h * (IZR (nth k data 0%Z) / 255) in
           (INR k * (w / INR N), h - barHeight, w / INR N * 0.8, barHeight))
      (seq 0 N)
  /\ Forall (fun r => let '(_, y, _, bh) := r in
               0 <= bh <= h /\ y + bh = h)
       (rects (Recording.drawBars data rect)).
Proof.
  intros rect N.
  assert (E : rects (Recording.drawBars data rect)
              = map (fun k =>
                       let barHeight := h * (IZR (nth k data 0%Z) / 255) in
                       (INR k * (w / INR N), h - barHeight, w / INR N * 0.8,
                        barHeight))
                  (seq 0 N)).
  { unfold Recording.drawBars. cbv zeta. rewrite drawBars_loop_all.
    fold N. apply map_ext. intros k. cbv zeta. simpl.
    do 3 f_equal. nra. }
  split; [exact E|].
  rewrite E. apply Forall_forall. intros p Hp.
  apply in_map_iff in Hp. destruct Hp as (k & <- & _). cbv zeta.
  pose proof (byte_range_IZR _ (nth_byte_range data k Hdata)) as Hs.
  split; [split; nra | ring].
Qed.

Lemma drawBars_one_bar_per_sample_witness :
  0 <= 200 /\ Forall byte_range [255; 0; 255; 0]%Z
  /\ List.length
       (rects (Recording.drawBars [255; 0; 255; 0]%Z
                 {| width := 400; height := 200 |})) = 4%nat.
Proof.
  assert (Hd : Forall byte_range [255; 0; 255; 0]%Z)
    by (repeat constructor; unfold byte_range; lia).
  split; [lra|]. split; [exact Hd|].
  rewrite (proj1 (drawBars_one_bar_per_sample [255; 0; 255; 0]%Z 400 200
                    ltac:(lra) Hd)).
  reflexivity.
Defined.

(** * Further properties of the frame cycle *)

Lemma fold_add_bounds (M : Z) :
  forall (l : list Z) (a : Z),
    Forall (fun s => (0 <= s <= M)%Z) l ->
    (a <= fold_left Z.add l a <= a + M * Z.of_nat (List.length l))%Z.
Proof.
  induction l as [|s l IH]; intros a Hl.
  - simpl. lia.
  - inversion Hl as [|? ? Hs Hl']; subst.
    specialize (IH (a + s)%Z Hl'). cbn [fold_left List.length].
    rewrite Nat2Z.inj_succ. nia.
Qed.

Lemma fold_max_spec :
  forall (l : list Z) (a : Z),
    let m := fold_left Z.max l a in
    (a <= m)%Z /\ Forall (fun s => (s <= m)%Z) l /\ (m = a \/ In m l).
Proof.
  induction l as [|s l IH]; intros a m; subst m.
  - simpl. repeat split; auto; lia.
  - destruct (IH (Z.max a s)) as (Ha & Hl & Hin). cbn [fold_left].
    repeat split.
    + lia.
    + constructor; [lia | exact Hl].
    + destruct Hin as [E|Hin]; [|right; right; exact Hin].
      rewrite E.
      destruct (Z.max_spec a s) as [[_ Em]|[_ Em]]; rewrite Em;
        [right; left | left]; reflexivity.
Qed.

(** X7.  The statistics a frame cycle of the second revision puts in the
    debug line, for a non-empty buffer of samples in [0, 255] of the length
    the closure expects: Max is a sample of the buffer and no sample exceeds
    it; Avg is the mean of the samples, between 0 and Max. *)
Theorem frame_statistics (cl : Recording.FrameClosure) (w : Recording.World)
    (Hrec : Recording.isRecording (Recording.props cl) = true)
    (Hdata : Forall byte_range (Recording.frequencyData (Recording.host w)))
    (Hlen : Recording.bufferLength cl
            = List.length (Recording.frequencyData (Recording.host w)))
    (Hpos : (0 < Recording.bufferLength cl)%nat) :
  let data := Recording.frequencyData (Recording.host w) in
  exists avg max,
    Recording.debugInfo (Recording.state (Recording.drawFrame cl false w))
    = Recording.Stats avg max (Recording.bufferLength cl) (Recording.rect cl)
    /\ In max data
    /\ Forall (fun s => (s <= max)%Z) data
    /\ avg * INR (List.length data) = IZR (fold_left Z.add data 0%Z)
    /\ 0 <= avg <= IZR max.
Proof.
  intros data.
  exists (IZR (fold_left Z.add data 0%Z) / INR (Recording.bufferLength cl)),
         (fold_left Z.max data 0%Z).
  assert (E0 : Recording.debugInfo
                 (Recording.state (Recording.drawFrame cl false w))
               = Recording.Stats
                   (IZR (fold_left Z.add data 0%Z)
                    / INR (Recording.bufferLength cl))
                   (fold_left Z.max data 0%Z)
                   (Recording.bufferLength cl) (Recording.rect cl)).
  { subst data. clear Hdata Hlen Hpos.
    destruct w as [st rf hs tr]. destruct st, rf, hs.
    destruct cl as [p an r n]. destruct p. simpl in Hrec. subst.
    unfold Recording.drawFrame. simpl. reflexivity. }
  change (Forall byte_range data) in Hdata.
  change (Recording.bufferLength cl = List.length data) in Hlen.
  clearbody data.
  destruct (fold_max_spec data 0%Z) as (Hm0 & Hmax & Hin). cbv zeta in *.
  assert (Hn : 0 < INR (Recording.bufferLength cl)) by (apply lt_0_INR; exact Hpos).
  split; [|split; [|split; [|split]]].
  - exact E0.
  - destruct Hin as [E|Hin]; [|exact Hin].
    destruct data as [|s l] eqn:Ed.
    + rewrite Hlen in Hpos. simpl in Hpos. lia.
    + left. inversion Hdata as [|? ? Hs _]; subst.
      inversion Hmax as [|? ? Hle _]; subst.
      unfold byte_range in Hs. cbn [fold_left] in *.
      rewrite E in Hle |- *. lia.
  - exact Hmax.
  - rewrite <- Hlen. field. lra.
  - assert (Hb : Forall (fun s => (0 <= s <= fold_left Z.max data 0)%Z) data).
    { apply Forall_forall. intros s Hs.
      pose proof (proj1 (Forall_forall _ _) Hdata s Hs) as [H0 _].
      pose proof (proj1 (Forall_forall _ _) Hmax s Hs) as H1.
      cbv beta in H1. lia. }
    pose proof (fold_add_bounds _ data 0%Z Hb) as [Hlo Hhi].
    apply IZR_le in Hlo, Hhi. rewrite plus_IZR, mult_IZR in Hhi.
    rewrite <- INR_IZR_INZ, <- Hlen in Hhi.
    apply IZR_le in Hm0.
    set (S := IZR (fold_left Z.add data 0%Z)) in *.
    set (M := IZR (fold_left Z.max data 0%Z)) in *.
    set (N := INR (Recording.bufferLength cl)) in *.
    split.
    + apply Rmult_le_pos; [lra|]. apply Rlt_le, Rinv_0_lt_compat. exact Hn.
    + apply (Rmult_le_reg_r N); [exact Hn|].
      unfold Rdiv. rewrite Rmult_assoc, Rinv_l by lra. lra.
Qed.

Lemma frame_statistics_witness :
  let w := Recording.set_audio (repeat 7%Z frequencyBinCount) recording in
  Recording.isRecording (Recording.props (frame_closure Recording.bar)) = true
  /\ Forall byte_range (Recording.frequencyData (Recording.host w))
  /\ Recording.bufferLength (frame_closure Recording.bar)
     = List.length (Recording.frequencyData (Recording.host w))
  /\ (0 < Recording.bufferLength (frame_closure Recording.bar))%nat
  /\ exists avg max,
       Recording.debugInfo
         (Recording.state (Recording.drawFrame (frame_closure Recording.bar) false w))
       = Recording.Stats avg max frequencyBinCount surface
       /\ 0 <= avg <= IZR max.
Proof.
  intros w.
  assert (Hd : Forall byte_range (Recording.frequencyData (Recording.host w))).
  { apply Forall_forall. intros s Hs. apply repeat_spec in Hs. subst.
    unfold byte_range. lia. }
  assert (Hl : Recording.bufferLength (frame_closure Recording.bar)
               = List.length (Recording.frequencyData (Recording.host w))).
  { symmetry. apply repeat_length. }
  assert (Hp : (0 < Recording.bufferLength (frame_closure Recording.bar))%nat).
  { unfold frame_closure, frequencyBinCount. simpl. lia. }
  split; [reflexivity|]. split; [exact Hd|]. split; [exact Hl|]. split; [exact Hp|].
  destruct (frame_statistics (frame_closure Recording.bar) w eq_refl Hd Hl Hp)
    as (avg & max & E & _ & _ & _ & Hb).
  exists avg, max. split; [exact E | exact Hb].
Defined.

(** * Further properties of the first revision's lifecycle *)

Module VisualizationLoop.
Import Visualization.
Import VisualizationFacts.

#[local] Arguments transform : simpl never.

Lemma frames_bounded_mono (c c' : nat) (l : list (nat * DrawClosure)) :
  (c <= c')%nat -> Forall (fun f => (1 <= fst f <= c)%nat) l ->
  Forall (fun f => (1 <= fst f <= c')%nat) l.
Proof. intros Hc. apply Forall_impl. intros f Hf. lia. Qed.

Lemma frames_bounded_filter (g : nat * DrawClosure -> bool) (c : nat)
    (l : list (nat * DrawClosure)) :
  Forall (fun f => (1 <= fst f <= c)%nat) l ->
  Forall (fun f => (1 <= fst f <= c)%nat) (filter g l).
Proof.
  rewrite !Forall_forall. intros H f Hf. apply filter_In in Hf. apply H, Hf.
Qed.

Lemma frames_distinct_filter (g : nat * DrawClosure -> bool)
    (l : list (nat * DrawClosure)) :
  NoDup (map fst l) -> NoDup (map fst (filter g l)).
Proof.
  induction l as [|f l IH]; intros H; [constructor|].
  simpl in H. inversion H as [|? ? Hn Hl]. subst.
  simpl. destruct (g f); [|exact (IH Hl)].
  simpl. constructor; [|exact (IH Hl)].
  intros Hin. apply Hn. apply in_map_iff in Hin as (f' & E & Hf').
  apply filter_In in Hf' as (Hf' & _). rewrite <- E. apply in_map, Hf'.
Qed.

Lemma frames_distinct_fresh (g : nat * DrawClosure -> bool) (c c' : nat)
    (l : list (nat * DrawClosure)) :
  (c < c')%nat -> Forall (fun f => (1 <= fst f <= c)%nat) l ->
  ~ In c' (map fst (filter g l)).
Proof.
  intros Hc Hb Hin. apply in_map_iff in Hin as (f & E & Hf).
  apply filter_In in Hf as (Hf & _). rewrite Forall_forall in Hb.
  apply Hb in Hf. lia.
Qed.

Lemma frames_distinct_fresh' (c c' : nat) (l : list (nat * DrawClosure)) :
  (c < c')%nat -> Forall (fun f => (1 <= fst f <= c)%nat) l ->
  ~ In c' (map fst l).
Proof.
  intros Hc Hb Hin. apply in_map_iff in Hin as (f & E & Hf).
  rewrite Forall_forall in Hb. apply Hb in Hf. lia.
Qed.

Ltac open_bounded H :=
  unfold handles_bounded in H;
  cbn [state refs host frames counter animationRef] in H;
  let Hd := fresh "Hd" in
  let Hf := fresh "Hf" in
  let Ha := fresh "Ha" in
  destruct H as (Hd & Hf & Ha).

Ltac solve_bounded :=
  run_handlers; unfold handles_bounded;
  cbn [state refs host frames counter animationRef];
  split;
  [ cbn [map fst];
    repeat first [ assumption
                 | apply frames_distinct_filter
                 | constructor;
                   [ first [ eapply frames_distinct_fresh; [|eassumption]; lia
                           | eapply frames_distinct_fresh'; [|eassumption]; lia ]
                   | ] ]
  | split;
    [ repeat first [ apply Forall_cons; [cbn [fst]; lia|]
                   | apply frames_bounded_filter
                   | eapply frames_bounded_mono; [|eassumption]; lia ]
    | lia ] ].

Lemma vis_bounded_stop (w : World) :
  handles_bounded w -> handles_bounded (stopVisualization w).
Proof.
  intros H. open_world w. open_bounded H.
  destruct animationRef0 as [|h], sourceRef0, streamRef0; solve_bounded.
Qed.

Lemma vis_bounded_settle (acq : Acquire) (raises : bool) (w : World) :
  handles_bounded w -> handles_bounded (startVisualization_settle acq raises w).
Proof.
  intros H. open_world w. open_bounded H.
  destruct acq, canvas0, analyserRef0, raises, visualizationTypeRef0;
    solve_bounded.
Qed.

Lemma vis_bounded_step (i : Input) (w : World) :
  handles_bounded w -> handles_bounded (step i w).
Proof.
  intros H.
  destruct i as [acq raises | t | d | h raises | r | f t | | | acq raises
                 | perm | devices]; cbn [step].
  - unfold handleToggleRecording.
    case_eq (isRecording (state w)); intros _; [apply vis_bounded_stop, H|].
    unfold startVisualization.
    case_eq (String.eqb (selectedMicrophone (state w)) ""); intros _; [exact H|].
    apply (vis_bounded_settle acq raises).
    open_world w. open_bounded H. destruct audioContextRef0; solve_bounded.
  - open_world w. exact H.
  - case_eq (isRecording (state w)); intros _; [exact H|]. open_world w. exact H.
  - destruct (find_frame h w) as [cl|]; [|exact H].
    open_world w. open_bounded H.
    destruct raises, visualizationTypeRef0; solve_bounded.
  - destruct (canvas (host w)); [|exact H]. open_world w. exact H.
  - open_world w. exact H.
  - pose proof (vis_bounded_stop w H) as Hs.
    destruct (stopVisualization w) as [st rf hs tr]. destruct hs. exact Hs.
  - case_eq (isRecording (state w)); intros _; [apply vis_bounded_stop, H|].
    unfold startVisualization_request.
    case_eq (String.eqb (selectedMicrophone (state w)) ""); intros _; [exact H|].
    open_world w. open_bounded H. destruct audioContextRef0; solve_bounded.
  - destruct (starting (host w)) as [|n] eqn:E; [exact H|].
    apply vis_bounded_settle. clear E. open_world w. exact H.
  - destruct (effect (host w)); try exact H.
    open_world w. open_bounded H. destruct perm; solve_bounded.
  - destruct (effect (host w)); try exact H.
    open_world w. open_bounded H. unfold getMicrophones_devices.
    destruct (filter Media.is_audioinput devices); solve_bounded.
Qed.

(** Frame handles are numbers already handed out. *)
Lemma vis_reachable_bounded (w : World) : reachable w -> handles_bounded w.
Proof.
  induction 1 as [canvas0 | i w _ IH].
  - unfold handles_bounded, mount. simpl.
    split; [constructor | split; [constructor | lia]].
  - apply vis_bounded_step, IH.
Qed.

(** Running a pending request replaces it by its successor, for the same
    closure, whether or not the transform throws. *)
Lemma vis_frame_successor (h : nat) (raises : bool) (cl : DrawClosure) (w : World) :
  find_frame h w = Some cl ->
  let w' := step (animation_frame h raises) w in
  frames (host w')
  = (S (counter (host w)), cl)
      :: filter (fun f => negb (Nat.eqb (fst f) h)) (frames (host w))
  /\ animationRef (refs w') = S (counter (host w))
  /\ state w' = state w
  /\ streamRef (refs w') = streamRef (refs w)
  /\ liveStreams (host w') = liveStreams (host w).
Proof.
  intros Hfind. cbv zeta. cbn [step]. rewrite Hfind. clear Hfind.
  open_world w.
  destruct raises, visualizationTypeRef0; run_handlers;
    repeat split; reflexivity.
Qed.

(** No handler of the first revision closes an audio context, and none
    replaces the one the ref holds. *)
Lemma vis_step_keeps_context (i : Input) (w : World) :
  (forall c, In (context_closed c) (trace (step i w)) ->
             In (context_closed c) (trace w))
  /\ (forall c, audioContextRef (refs w) = Some c ->
                audioContextRef (refs (step i w)) = Some c).
Proof.
  assert (Hstop : forall w,
            (forall c, In (context_closed c) (trace (stopVisualization w)) ->
                       In (context_closed c) (trace w))
            /\ (forall c, audioContextRef (refs w) = Some c ->
                          audioContextRef (refs (stopVisualization w)) = Some c)).
  { intros w0. open_world w0.
    destruct animationRef0 as [|h], sourceRef0, streamRef0; run_handlers;
      (split; [intros c Hin | intros c Hc; exact Hc]);
      repeat (apply in_app_or in Hin; destruct Hin as [Hin|Hin];
              [|simpl in Hin; intuition discriminate]);
      exact Hin. }
  assert (Hsettle : forall acq raises w,
            (forall c, In (context_closed c)
                         (trace (startVisualization_settle acq raises w)) ->
                       In (context_closed c) (trace w))
            /\ (forall c, audioContextRef (refs w) = Some c ->
                          audioContextRef
                            (refs (startVisualization_settle acq raises w))
                          = Some c)).
  { intros acq raises w0. open_world w0.
    destruct acq, canvas0, analyserRef0, raises, visualizationTypeRef0;
      run_handlers;
      (split; [intros c Hin | intros c Hc; exact Hc]);
      repeat (apply in_app_or in Hin; destruct Hin as [Hin|Hin];
              [|simpl in Hin; intuition discriminate]);
      exact Hin. }
  assert (Hreq : forall w w',
            startVisualization_request w = Some w' ->
            trace w' = trace w
            /\ (forall c, audioContextRef (refs w) = Some c ->
                          audioContextRef (refs w') = Some c)).
  { intros w0 w'. unfold startVisualization_request.
    destruct (String.eqb (selectedMicrophone (state w0)) ""); [discriminate|].
    open_world w0. destruct audioContextRef0; simpl; intros E;
      injection E as <-; (split; [reflexivity|]); intros c Hc;
      first [exact Hc | discriminate]. }
  destruct i as [acq raises | t | d | h raises | r | f t | | | acq raises
                 | perm | devices]; cbn [step].
  - unfold handleToggleRecording. destruct (isRecording (state w)).
    + apply Hstop.
    + unfold startVisualization.
      destruct (String.eqb (selectedMicrophone (state w)) ""); [tauto|].
      open_world w.
      destruct audioContextRef0, acq, canvas0, raises, visualizationTypeRef0;
        run_handlers;
        (split; [intros c Hin | intros c Hc; first [exact Hc | discriminate]]);
        repeat (apply in_app_or in Hin; destruct Hin as [Hin|Hin];
                [|simpl in Hin; intuition discriminate]);
        exact Hin.
  - open_world w. tauto.
  - destruct (isRecording (state w)); [tauto|]. open_world w. tauto.
  - destruct (find_frame h w) as [cl|]; [|tauto].
    open_world w.
    destruct raises, visualizationTypeRef0; run_handlers;
      (split; [intros c Hin | intros c Hc; exact Hc]);
      repeat (apply in_app_or in Hin; destruct Hin as [Hin|Hin];
              [|simpl in Hin; intuition discriminate]);
      exact Hin.
  - destruct (canvas (host w)); [|tauto]. open_world w. tauto.
  - open_world w. tauto.
  - destruct (Hstop w) as (H1 & H2).
    destruct (stopVisualization w) as [st rf hs tr]. destruct st, rf, hs.
    split; [exact H1 | exact H2].
  - destruct (isRecording (state w)); [apply Hstop|].
    destruct (startVisualization_request w) as [w'|] eqn:E; [|tauto].
    destruct (Hreq w w' E) as (Ht & Hc).
    destruct w' as [st rf hs tr]. destruct hs. simpl in *. subst tr.
    split; [tauto | exact Hc].
  - destruct (starting (host w)) as [|n] eqn:E; [tauto|].
    destruct (Hsettle acq raises (set_starting n w)) as (H1 & H2).
    split.
    + intros c Hin. apply H1 in Hin. clear - Hin. open_world w. exact Hin.
    + intros c Hc. apply H2. clear - Hc. open_world w. exact Hc.
  - destruct (effect (host w)); try tauto.
    open_world w. destruct perm; run_handlers;
      (split; [intros c Hin | intros c Hc; exact Hc]);
      repeat (apply in_app_or in Hin; destruct Hin as [Hin|Hin];
              [|simpl in Hin; intuition discriminate]);
      exact Hin.
  - destruct (effect (host w)); try tauto.
    open_world w. unfold getMicrophones_devices.
    destruct (filter Media.is_audioinput devices); run_handlers; tauto.
Qed.

Lemma find_frame_distinct (l : list (nat * DrawClosure)) (h : nat)
    (cl : DrawClosure) :
  NoDup (map fst l) -> In (h, cl) l ->
  find (fun f => Nat.eqb (fst f) h) l = Some (h, cl).
Proof.
  induction l as [|f l IH]; intros Hd Hin; [destruct Hin|].
  simpl in Hd. inversion Hd as [|? ? Hn Hl]. subst. simpl.
  destruct Hin as [->|Hin]; [cbn [fst]; rewrite Nat.eqb_refl; reflexivity|].
  destruct (Nat.eqb_spec (fst f) h) as [E|_]; [|exact (IH Hl Hin)].
  exfalso. apply Hn. rewrite E. exact (in_map fst l (h, cl) Hin).
Qed.

Lemma find_filter_other (l : list (nat * DrawClosure)) (h a : nat) :
  h <> a ->
  find (fun f => Nat.eqb (fst f) h)
    (filter (fun f => negb (Nat.eqb (fst f) a)) l)
  = find (fun f => Nat.eqb (fst f) h) l.
Proof.
  intros Hne. induction l as [|f l IH]; [reflexivity|]. simpl.
  destruct (Nat.eqb_spec (fst f) a) as [Ea|Ea]; simpl.
  - destruct (Nat.eqb_spec (fst f) h) as [Eh|_]; [congruence | exact IH].
  - destruct (Nat.eqb (fst f) h); [reflexivity | exact IH].
Qed.

Lemma find_filter_same (l : list (nat * DrawClosure)) (a : nat) :
  find (fun f => Nat.eqb (fst f) a)
    (filter (fun f => negb (Nat.eqb (fst f) a)) l) = None.
Proof.
  induction l as [|f l IH]; [reflexivity|]. simpl.
  destruct (Nat.eqb (fst f) a) eqn:E; simpl; [exact IH|].
  rewrite E. exact IH.
Qed.

Lemma filter_absent (l : list (nat * DrawClosure)) (a : nat) :
  Forall (fun f => fst f <> a) l ->
  filter (fun f => negb (Nat.eqb (fst f) a)) l = l.
Proof.
  induction 1 as [|f l Hf _ IH]; [reflexivity|]. simpl.
  destruct (Nat.eqb_spec (fst f) a); [contradiction|]. simpl. f_equal. exact IH.
Qed.

(** [stopVisualization] cancels the request [animationRef] holds, unless
    the ref holds 0. *)
Lemma vis_stop_frames (w : World) :
  frames (host (stopVisualization w))
  = match animationRef (refs w) with
    | O => frames (host w)
    | S _ => filter (fun f => negb (Nat.eqb (fst f) (animationRef (refs w))))
               (frames (host w))
    end.
Proof.
  open_world w.
  destruct animationRef0 as [|h], sourceRef0, streamRef0; run_handlers;
    reflexivity.
Qed.

(** The continuation of a start whose stream is granted. *)
Lemma vis_settle_granted (raises : bool) (w : World) :
  let w' := startVisualization_settle Granted raises w in
  exists stream source analyser,
    isRecording (state w') = true
    /\ (counter (host w) < stream)%nat
    /\ streamRef (refs w') = Some stream
    /\ liveStreams (host w') = stream :: liveStreams (host w)
    /\ sourceRef (refs w') = Some source
    /\ connected (host w') = source :: connected (host w)
    /\ analyserRef (refs w') = Some analyser
    /\ match canvas (host w) with
       | Some c =>
           exists h,
             frames (host w')
             = (h, {| Visualization.analyser := analyser;
                      bufferLength := frequencyBinCount;
                      cwidth := width c; cheight := height c |})
                 :: frames (host w)
             /\ animationRef (refs w') = h
             /\ In (painted [clearRect 0 0 (width c) (height c)]) (trace w')
       | None =>
           frames (host w') = frames (host w)
           /\ forall cmds, In (painted cmds) (trace w') ->
                           In (painted cmds) (trace w)
       end.
Proof.
  cbv zeta. open_world w.
  destruct canvas0, raises, visualizationTypeRef0;
    run_handlers; cbn [cwidth cheight];
    do 3 eexists; (split; [reflexivity|]); (split; [apply Nat.lt_succ_diag_r|]);
    (repeat (split; [reflexivity|]));
    first [ eexists; split; [reflexivity|]; split; [reflexivity|];
            rewrite !in_app_iff; simpl; auto 20
          | intros cmds Hin;
            repeat (apply in_app_or in Hin; destruct Hin as [Hin|Hin];
                    [|simpl in Hin; intuition discriminate]);
            exact Hin ].
Qed.

End VisualizationLoop.

Lemma visualizing_reachable : Visualization.reachable visualizing.
Proof.
  exact (Visualization.reachable_step _ _
           (Visualization.reachable_step _ _
              (Visualization.reachable_mount surface))).
Qed.

Lemma started_twice_reachable : Visualization.reachable started_twice.
Proof.
  unfold started_twice, Visualization.run. cbn [fold_left].
  repeat apply Visualization.reachable_step. apply Visualization.reachable_mount.
Qed.

(** X8.  First revision: in every world reachable through the page's
    events the pending frame requests have distinct handles, each a number
    the host has handed out and never 0: the scheduler's run of a handle runs
    the one request made under it, and no request is pending under the 0
    that [animationRef] holds at first.  The handle [animationRef] holds is
    0 or a number the host has handed out. *)
Theorem pending_frames_are_distinct (w : Visualization.World) :
  Visualization.reachable w ->
  NoDup (map fst (Visualization.frames (Visualization.host w)))
  /\ (forall h cl,
        In (h, cl) (Visualization.frames (Visualization.host w)) ->
        (1 <= h <= Visualization.counter (Visualization.host w))%nat
        /\ Visualization.find_frame h w = Some cl)
  /\ Visualization.find_frame 0 w = None
  /\ (Visualization.animationRef (Visualization.refs w)
      <= Visualization.counter (Visualization.host w))%nat.
Proof.
  intros Hw.
  destruct (VisualizationLoop.vis_reachable_bounded w Hw) as (Hd & Hb & Ha).
  rewrite Forall_forall in Hb.
  split; [exact Hd|]. split; [|split; [|exact Ha]].
  - intros h cl Hin. split; [exact (Hb _ Hin)|].
    unfold Visualization.find_frame.
    rewrite (VisualizationLoop.find_frame_distinct _ h cl Hd Hin). reflexivity.
  - unfold Visualization.find_frame.
    destruct (find (fun f => Nat.eqb (fst f) 0)
                (Visualization.frames (Visualization.host w)))
      as [f|] eqn:E; [|reflexivity].
    apply find_some in E. destruct E as (Hin & Heq).
    apply Nat.eqb_eq in Heq. apply Hb in Hin. lia.
Qed.

Lemma pending_frames_are_distinct_witness :
  Visualization.reachable started_twice
  /\ NoDup (map fst (Visualization.frames (Visualization.host started_twice)))
  /\ Visualization.find_frame 0 started_twice = None.
Proof.
  split; [exact started_twice_reachable|].
  destruct (pending_frames_are_distinct started_twice started_twice_reachable)
    as (H1 & _ & H3 & _).
  split; [exact H1 | exact H3].
Defined.

(** X9.  First revision: when the scheduler runs a pending frame request
    of a reachable world, the cycle takes that request out of the queue and
    puts one in, for the same closure (the same analyser, buffer length and
    canvas size) and under a handle never handed out before, which
    [animationRef] now holds; the requests pending under other handles stay
    as they are, and the cycle that ran cannot run again.  The React state
    and the live streams are as before.  This holds whether or not the
    transform throws. *)
Theorem frame_loop_keeps_its_closure (h : nat) (raises : bool)
    (cl : Visualization.DrawClosure) (w : Visualization.World) :
  Visualization.reachable w ->
  Visualization.find_frame h w = Some cl ->
  let w' := Visualization.step (Visualization.animation_frame h raises) w in
  exists h',
    Visualization.frames (Visualization.host w')
    = (h', cl) :: filter (fun f => negb (Nat.eqb (fst f) h))
                    (Visualization.frames (Visualization.host w))
    /\ Forall (fun f => fst f <> h')
         (Visualization.frames (Visualization.host w))
    /\ h' <> h
    /\ Visualization.animationRef (Visualization.refs w') = h'
    /\ Visualization.find_frame h w' = None
    /\ Visualization.find_frame h' w' = Some cl
    /\ Visualization.state w' = Visualization.state w
    /\ Visualization.liveStreams (Visualization.host w')
       = Visualization.liveStreams (Visualization.host w).
Proof.
  intros Hw Hfind w'.
  destruct (VisualizationLoop.vis_reachable_bounded w Hw) as (_ & Hb & _).
  destruct (VisualizationLoop.vis_frame_successor h raises cl w Hfind)
    as (Hf & Ha & Hs & _ & Hl).
  fold w' in Hf, Ha, Hs, Hl.
  assert (Hh : (h <= Visualization.counter (Visualization.host w))%nat).
  { unfold Visualization.find_frame in Hfind.
    destruct (find (fun f => Nat.eqb (fst f) h)
                (Visualization.frames (Visualization.host w)))
      as [f|] eqn:E; [|discriminate].
    apply find_some in E. destruct E as (Hin & Heq).
    apply Nat.eqb_eq in Heq. rewrite Forall_forall in Hb.
    apply Hb in Hin. lia. }
  exists (S (Visualization.counter (Visualization.host w))).
  split; [exact Hf|]. split.
  { revert Hb. apply Forall_impl. intros f Hle. lia. }
  split; [lia|]. split; [exact Ha|]. split; [|split; [|split; assumption]].
  - unfold Visualization.find_frame. rewrite Hf. cbn [find fst].
    destruct (Nat.eqb_spec (S (Visualization.counter (Visualization.host w))) h);
      [lia|].
    destruct (find (fun f => Nat.eqb (fst f) h)
                (filter (fun f => negb (Nat.eqb (fst f) h))
                   (Visualization.frames (Visualization.host w))))
      as [f|] eqn:E; [|reflexivity].
    apply find_some in E. destruct E as (Hin & Heq).
    apply filter_In in Hin. destruct Hin as (_ & Hne).
    rewrite Heq in Hne. discriminate.
  - unfold Visualization.find_frame. rewrite Hf. cbn [find fst].
    rewrite Nat.eqb_refl. reflexivity.
Qed.

Lemma frame_loop_keeps_its_closure_witness :
  let cl := {| Visualization.analyser := 3%nat;
               Visualization.bufferLength := frequencyBinCount;
               Visualization.cwidth := 800; Visualization.cheight := 400 |} in
  Visualization.reachable visualizing
  /\ Visualization.find_frame 5 visualizing = Some cl
  /\ exists h',
       Visualization.frames
         (Visualization.host
            (Visualization.step (Visualization.animation_frame 5 true) visualizing))
       = (h', cl) :: filter (fun f => negb (Nat.eqb (fst f) 5))
                       (Visualization.frames (Visualization.host visualizing))
       /\ h' <> 5%nat.
Proof.
  cbv zeta.
  assert (Hf : Visualization.find_frame 5 visualizing
               = Some {| Visualization.analyser := 3%nat;
                         Visualization.bufferLength := frequencyBinCount;
                         Visualization.cwidth := 800;
                         Visualization.cheight := 400 |}) by reflexivity.
  split; [exact visualizing_reachable|]. split; [exact Hf|].
  destruct (frame_loop_keeps_its_closure 5 true _ visualizing
              visualizing_reachable Hf) as (h' & H1 & _ & H2 & _).
  exists h'. split; assumption.
Defined.

(** X10.  First revision: [stopVisualization] cancels the frame request
    whose handle [animationRef] holds, and no other: in a reachable world the
    requests pending afterwards are those that were pending under other
    handles, each with its closure.  When the request held was the only one
    pending, none is left after a stop or an unmount: whatever handle the
    scheduler is given, nothing runs and the world is unchanged. *)
Theorem stop_cancels_held_request (w : Visualization.World) :
  Visualization.reachable w ->
  let held := Visualization.animationRef (Visualization.refs w) in
  let w' := Visualization.stopVisualization w in
  Visualization.frames (Visualization.host w')
  = filter (fun f => negb (Nat.eqb (fst f) held))
      (Visualization.frames (Visualization.host w))
  /\ Visualization.find_frame held w' = None
  /\ (forall h, h <> held ->
        Visualization.find_frame h w' = Visualization.find_frame h w)
  /\ (Visualization.one_frame w ->
      forall h raises,
        Visualization.step (Visualization.animation_frame h raises) w' = w'
        /\ Visualization.step (Visualization.animation_frame h raises)
             (Visualization.step Visualization.unmount w)
           = Visualization.step Visualization.unmount w).
Proof.
  intros Hw held w'.
  destruct (VisualizationLoop.vis_reachable_bounded w Hw) as (_ & Hb & _).
  assert (Hf : Visualization.frames (Visualization.host w')
               = filter (fun f => negb (Nat.eqb (fst f) held))
                   (Visualization.frames (Visualization.host w))).
  { unfold w'. rewrite VisualizationLoop.vis_stop_frames. fold held.
    destruct held as [|n] eqn:E; [|reflexivity].
    symmetry. apply VisualizationLoop.filter_absent.
    revert Hb. apply Forall_impl. intros f Hle. lia. }
  split; [exact Hf|]. split; [|split].
  - unfold Visualization.find_frame. rewrite Hf.
    rewrite VisualizationLoop.find_filter_same. reflexivity.
  - intros h Hne. unfold Visualization.find_frame. rewrite Hf.
    rewrite VisualizationLoop.find_filter_other by exact Hne. reflexivity.
  - intros Hone h raises.
    assert (Hnil : Visualization.frames (Visualization.host w') = []).
    { rewrite Hf. destruct Hone as [E | (_ & _ & cl & E)]; rewrite E;
        [reflexivity|].
      fold held. cbn [filter fst]. rewrite Nat.eqb_refl. reflexivity. }
    split.
    + cbn [Visualization.step]. unfold Visualization.find_frame.
      rewrite Hnil. reflexivity.
    + cbn [Visualization.step]. unfold Visualization.find_frame.
      fold w'. destruct w' as [st rf hs tr]. destruct hs.
      simpl in Hnil. subst. reflexivity.
Qed.

Lemma stop_cancels_held_request_witness :
  Visualization.reachable started_twice
  /\ Visualization.find_frame 5
       (Visualization.stopVisualization started_twice)
     = Visualization.find_frame 5 started_twice.
Proof.
  split; [exact started_twice_reachable|].
  destruct (stop_cancels_held_request started_twice started_twice_reachable)
    as (_ & _ & H3 & _).
  apply H3. simpl. discriminate.
Defined.

(** X11.  First revision: when the [getUserMedia] promise of a pending
    start resolves with a stream, in whatever reachable world that happens,
    the component ends recording; the stream is one more live stream, not
    live before, and [streamRef] holds it; the source is one more connected
    source and [sourceRef] holds it.  With a canvas, the canvas was cleared
    and one more frame request is pending, for a closure that holds the new
    analyser, 1024 samples and the size the canvas has when the promise
    resolves; without one, no frame is requested and nothing is painted.
    The streams, sources and frame requests that were there stay. *)
Theorem granted_start_opens_session (raises : bool) (w : Visualization.World) :
  Visualization.reachable w ->
  Visualization.starting (Visualization.host w) <> 0%nat ->
  let w' := Visualization.step (Visualization.settle Granted raises) w in
  exists stream source analyser,
    Visualization.isRecording (Visualization.state w') = true
    /\ Visualization.streamRef (Visualization.refs w') = Some stream
    /\ ~ In stream (Visualization.liveStreams (Visualization.host w))
    /\ Visualization.liveStreams (Visualization.host w')
       = stream :: Visualization.liveStreams (Visualization.host w)
    /\ Visualization.sourceRef (Visualization.refs w') = Some source
    /\ Visualization.connected (Visualization.host w')
       = source :: Visualization.connected (Visualization.host w)
    /\ Visualization.analyserRef (Visualization.refs w') = Some analyser
    /\ match Visualization.canvas (Visualization.host w) with
       | Some c =>
           exists h,
             Visualization.frames (Visualization.host w')
             = (h, {| Visualization.analyser := analyser;
                      Visualization.bufferLength := 1024%nat;
                      Visualization.cwidth := width c;
                      Visualization.cheight := height c |})
                 :: Visualization.frames (Visualization.host w)
             /\ Visualization.animationRef (Visualization.refs w') = h
             /\ In (painted [clearRect 0 0 (width c) (height c)])
                  (Visualization.trace w')
       | None =>
           Visualization.frames (Visualization.host w')
           = Visualization.frames (Visualization.host w)
           /\ forall cmds, In (painted cmds) (Visualization.trace w') ->
                           In (painted cmds) (Visualization.trace w)
       end.
Proof.
  intros Hw Hs. cbn [Visualization.step].
  destruct (Visualization.starting (Visualization.host w)) as [|n] eqn:E;
    [contradiction|].
  destruct (VisualizationFacts.vis_reachable_accounted w Hw)
    as (_ & Hb & _).
  pose proof (VisualizationLoop.vis_settle_granted raises
                (Visualization.set_starting n w)) as H.
  cbv zeta in H.
  replace (Visualization.counter
             (Visualization.host (Visualization.set_starting n w)))
    with (Visualization.counter (Visualization.host w)) in H
    by (destruct w as [st rf hs tr]; destruct hs; reflexivity).
  replace (Visualization.liveStreams
             (Visualization.host (Visualization.set_starting n w)))
    with (Visualization.liveStreams (Visualization.host w)) in H
    by (destruct w as [st rf hs tr]; destruct hs; reflexivity).
  replace (Visualization.connected
             (Visualization.host (Visualization.set_starting n w)))
    with (Visualization.connected (Visualization.host w)) in H
    by (destruct w as [st rf hs tr]; destruct hs; reflexivity).
  replace (Visualization.frames
             (Visualization.host (Visualization.set_starting n w)))
    with (Visualization.frames (Visualization.host w)) in H
    by (destruct w as [st rf hs tr]; destruct hs; reflexivity).
  replace (Visualization.canvas
             (Visualization.host (Visualization.set_starting n w)))
    with (Visualization.canvas (Visualization.host w)) in H
    by (destruct w as [st rf hs tr]; destruct hs; reflexivity).
  replace (Visualization.trace (Visualization.set_starting n w))
    with (Visualization.trace w) in H
    by (destruct w as [st rf hs tr]; destruct hs; reflexivity).
  destruct H as (stream & source & analyser & H1 & H2 & H3 & H4 & H5 & H6
                 & H7 & H8).
  exists stream, source, analyser.
  split; [exact H1|]. split; [exact H3|]. split.
  { intros Hin. rewrite Forall_forall in Hb. apply Hb in Hin. lia. }
  repeat (split; [assumption|]). exact H8.
Qed.

Lemma granted_start_opens_session_witness :
  let w := Visualization.run
             [Visualization.choose_microphone "mic-1"; Visualization.press]
             (Visualization.mount surface) in
  Visualization.reachable w
  /\ Visualization.starting (Visualization.host w) <> 0%nat
  /\ exists stream,
       Visualization.liveStreams
         (Visualization.host (Visualization.step (Visualization.settle Granted false) w))
       = stream :: Visualization.liveStreams (Visualization.host w).
Proof.
  cbv zeta.
  assert (Hw : Visualization.reachable
                 (Visualization.run
                    [Visualization.choose_microphone "mic-1"; Visualization.press]
                    (Visualization.mount surface))).
  { exact (Visualization.reachable_step _ _
             (Visualization.reachable_step _ _
                (Visualization.reachable_mount surface))). }
  assert (Hs : Visualization.starting
                 (Visualization.host
                    (Visualization.run
                       [Visualization.choose_microphone "mic-1"; Visualization.press]
                       (Visualization.mount surface))) <> 0%nat)
    by (simpl; discriminate).
  split; [exact Hw|]. split; [exact Hs|].
  destruct (granted_start_opens_session false _ Hw Hs)
    as (stream & _ & _ & _ & _ & _ & Hl & _).
  exists stream. exact Hl.
Defined.

(** X12.  First revision: no handler closes an audio context, and none
    replaces or clears the one held in [audioContextRef].  In a reachable
    world nothing has been closed, and once the ref holds a context it holds
    that same context after every later event: stop, restart and unmount
    included. *)
Theorem audio_context_is_kept (w : Visualization.World) :
  Visualization.reachable w ->
  (forall c, ~ In (context_closed c) (Visualization.trace w))
  /\ (forall inputs c,
        Visualization.audioContextRef (Visualization.refs w) = Some c ->
        Visualization.audioContextRef
          (Visualization.refs (Visualization.run inputs w)) = Some c).
Proof.
  intros Hw. split.
  - induction Hw as [canvas0 | i w Hw IH]; intros c Hin; [exact Hin|].
    apply (IH c), (proj1 (VisualizationLoop.vis_step_keeps_context i w) c Hin).
  - clear Hw. intros inputs. revert w.
    induction inputs as [|i inputs IH]; intros w c Hc; [exact Hc|].
    simpl. apply IH, (proj2 (VisualizationLoop.vis_step_keeps_context i w) c Hc).
Qed.

Lemma audio_context_is_kept_witness :
  Visualization.reachable visualizing
  /\ Visualization.audioContextRef (Visualization.refs visualizing) = Some 1%nat
  /\ Visualization.audioContextRef
       (Visualization.refs
          (Visualization.run
             [Visualization.click Granted false; Visualization.click Granted false;
              Visualization.unmount] visualizing))
     = Some 1%nat.
Proof.
  split; [exact visualizing_reachable|]. split; [reflexivity|].
  exact (proj2 (audio_context_is_kept visualizing visualizing_reachable)
           [Visualization.click Granted false; Visualization.click Granted false;
            Visualization.unmount] 1%nat eq_refl).
Defined.

(** ** Streams and loops that no ref holds *)

(** On a page where the permission is granted and a microphone listed, the
    stream the mount effect opened is live next to the stream of the
    session, and a click on Stop leaves it live. *)
Remark permission_stream_outlives_session :
  Visualization.liveStreams (Visualization.host listed_then_started) = [3; 1]%nat
  /\ Visualization.isRecording (Visualization.state listed_then_started) = true
  /\ opens (Visualization.trace listed_then_started) = 2%nat
  /\ closes (Visualization.trace listed_then_started) = 0%nat
  /\ (let w := Visualization.step (Visualization.click Granted false)
                 listed_then_started in
      Visualization.isRecording (Visualization.state w) = false
      /\ Visualization.streamRef (Visualization.refs w) = None
      /\ Visualization.liveStreams (Visualization.host w) = [1%nat]).
Proof.
  split; [reflexivity|]. split; [reflexivity|]. split; [reflexivity|].
  split; [reflexivity|]. cbv zeta.
  split; [reflexivity|]. split; reflexivity.
Qed.

(** Two clicks on Start before the first request is answered start two
    sessions and two frame loops; the refs hold the later ones, and a click
    on Stop leaves the earlier stream live and the earlier loop running. *)
Remark overlapping_starts_leave_a_loop :
  Visualization.liveStreams (Visualization.host started_twice) = [6; 2]%nat
  /\ map fst (Visualization.frames (Visualization.host started_twice))
     = [9; 5]%nat
  /\ Visualization.streamRef (Visualization.refs started_twice) = Some 6%nat
  /\ Visualization.animationRef (Visualization.refs started_twice) = 9%nat
  /\ (let w := Visualization.step (Visualization.click Granted false)
                 started_twice in
      Visualization.isRecording (Visualization.state w) = false
      /\ Visualization.liveStreams (Visualization.host w) = [2%nat]
      /\ map fst (Visualization.frames (Visualization.host w)) = [5%nat]).
Proof.
  split; [reflexivity|]. split; [reflexivity|]. split; [reflexivity|].
  split; [reflexivity|]. cbv zeta.
  split; [reflexivity|]. split; reflexivity.
Qed.

(** * Further properties of the second revision's lifecycle *)

Module RecordingLoop.
Import Recording.
Import RecordingFacts.

#[local] Arguments transform : simpl never.

Lemma rec_in_remove_id (c n : nat) (l : list nat) :
  c <> n -> In c l -> In c (remove_id n l).
Proof.
  intros Hne Hin. unfold remove_id. apply filter_In. split; [exact Hin|].
  destruct (Nat.eqb_spec c n); [contradiction | reflexivity].
Qed.

Lemma rec_not_in_remove_id (n : nat) (l : list nat) : ~ In n (remove_id n l).
Proof.
  unfold remove_id. intros Hin. apply filter_In in Hin as (_ & Hn).
  rewrite Nat.eqb_refl in Hn. discriminate.
Qed.

Lemma rec_remove_id_absent (n : nat) (l : list nat) :
  ~ In n l -> remove_id n l = l.
Proof.
  unfold remove_id. induction l as [|a l IH]; intros Hn; simpl; [reflexivity|].
  destruct (Nat.eqb_spec a n) as [->|Hne]; simpl.
  - exfalso. apply Hn. left. reflexivity.
  - rewrite IH; [reflexivity|]. intros Hin. apply Hn. right. exact Hin.
Qed.

(** A step that keeps the pending starts and names no new context. *)
Lemma rec_leak_frame (c : nat) (w w' : World) :
  leaked c w ->
  (counter (host w) <= counter (host w'))%nat ->
  starting (host w') = starting (host w) ->
  (audioContext (state w') = None
   \/ audioContext (state w') = audioContext (state w)) ->
  (In c (contexts (host w)) -> In c (contexts (host w'))) ->
  leaked c w'.
Proof.
  intros (Hin & Hn & Hle & Hp) Hc Hs Ha Hx.
  unfold leaked, named. rewrite Hs.
  split; [exact (Hx Hin)|]. split; [|split; [lia | exact Hp]].
  intros [H|H]; apply Hn; [|right; exact H].
  destruct Ha as [E|E]; rewrite E in H; [discriminate | left; exact H].
Qed.

Lemma rec_leak_stop (p : Props) (c : nat) (w : World) :
  audioContext p <> Some c -> leaked c w -> leaked c (stopRecording p w).
Proof.
  intros Hp H.
  destruct (rec_stop_footprint p w) as (Hs & Hc & Hx & Ha & _).
  apply (rec_leak_frame c w); [exact H | lia | exact Hs | |].
  - rewrite Ha. destruct (audioContext p); [left | right]; reflexivity.
  - rewrite Hx. intros Hin. destruct (audioContext p) as [c'|]; [|exact Hin].
    apply rec_in_remove_id; [congruence | exact Hin].
Qed.

Lemma rec_leak_newAudioContext (c : nat) (w : World) :
  leaked c w -> leaked c (snd (newAudioContext w)).
Proof.
  intros H. apply (rec_leak_frame c w); [exact H | | | |];
    destruct w as [st rf hs tr]; destruct hs; simpl.
  - lia.
  - reflexivity.
  - right. reflexivity.
  - intros Hin. right. exact Hin.
Qed.

Lemma rec_leak_settle_granted (p : Props) (c0 c : nat) (raises : bool)
    (w : World) :
  isRecording p = false -> c0 <> c -> leaked c w ->
  leaked c (startRecording_settle p c0 Granted raises w).
Proof.
  intros Hp Hne (Hin & Hn & Hle & Hnot).
  assert (Hfp : let w' := startRecording_settle p c0 Granted raises w in
                starting (host w') = starting (host w)
                /\ (counter (host w) <= counter (host w'))%nat
                /\ contexts (host w') = contexts (host w)
                /\ audioContext (state w') = Some c0).
  { clear - Hp. open_world w. open_props p. simpl in Hp. subst.
    destruct mounted0, animationFrameId0; run_handlers;
      repeat split; try reflexivity; lia. }
  cbv zeta in Hfp. destruct Hfp as (Hs & Hc & Hx & Ha).
  unfold leaked, named. rewrite Hs, Hx, Ha.
  split; [exact Hin|]. split; [|split; [lia | exact Hnot]].
  intros [E|H]; [congruence|]. apply Hn. right. exact H.
Qed.

Lemma rec_leak_settle_rejected (p : Props) (c0 c : nat) (m : string)
    (raises : bool) (w : World) :
  audioContext p <> Some c -> leaked c w ->
  leaked c (startRecording_settle p c0 (Rejected m) raises w).
Proof.
  intros Hp H. unfold startRecording_settle. apply rec_leak_stop; [exact Hp|].
  destruct w as [st rf hs tr]. destruct st, rf, hs. exact H.
Qed.

(** A start that reaches its [await] neither names nor is given a context
    that is out of reach. *)
Lemma rec_leak_request (p : Props) (c : nat) (w : World) :
  audioContext p <> Some c -> leaked c w -> S (counter (host w)) <> c ->
  leaked c
    (set_starting
       (starting (host w)
        ++ [{| startProps := p; startContext := S (counter (host w)) |}])
       (snd (newAudioContext w))).
Proof.
  intros Hp (Hin & Hn & Hle & Hnot) Hnew.
  destruct w as [st rf hs tr]. destruct hs.
  unfold leaked, named in *. simpl in *.
  split; [right; exact Hin|]. split; [|split; [lia|]].
  - intros [E|E]; [apply Hn; left; exact E|].
    apply Exists_app in E as [E|E]; [apply Hn; right; exact E|].
    inversion E as [? ? E'|? ? E']; [|inversion E']. simpl in E'.
    exact (Hp E').
  - rewrite map_app. simpl. intros E. apply in_app_or in E as [E|[E|[]]];
      [exact (Hnot E) | exact (Hnew E)].
Qed.

(** Taking the [k]-th pending start out of the list. *)
Lemma rec_leak_drop (k : nat) (cl : StartClosure) (c : nat) (w : World) :
  leaked c w -> nth_error (starting (host w)) k = Some cl ->
  leaked c (set_starting (remove_nth k (starting (host w))) w)
  /\ startContext cl <> c
  /\ audioContext (startProps cl) <> Some c.
Proof.
  intros (Hin & Hn & Hle & Hnot) Hk.
  destruct (remove_nth_decompose k _ cl Hk) as (l1 & l2 & El & Er).
  rewrite Er. clear Hk Er.
  destruct w as [st rf hs tr]. destruct hs. unfold leaked, named in *.
  simpl in *. subst starting0.
  split; [|split].
  - split; [exact Hin|]. split; [|split; [exact Hle|]].
    + intros [H|H]; apply Hn; [left; exact H | right].
      apply Exists_app in H as [H|H]; apply Exists_app;
        [left | right; right]; exact H.
    + intros H. apply Hnot. rewrite map_app in *. simpl.
      apply in_app_or in H as [H|H]; apply in_or_app;
        [left | right; right]; exact H.
  - intros E. apply Hnot. rewrite map_app. simpl.
    apply in_or_app. right. left. exact E.
  - intros E. apply Hn. right. apply Exists_app. right. left. exact E.
Qed.

(** An open context that is out of reach stays open and out of reach. *)
Lemma rec_leak_step (i : Input) (w : World) (c : nat) :
  stale w -> leaked c w -> leaked c (step i w).
Proof.
  intros Hst H.
  assert (Hstate : audioContext (state w) <> Some c).
  { intros E. apply (proj1 (proj2 H)). left. exact E. }
  pose proof (rec_leak_stop (state w) c w Hstate H) as H1.
  destruct (rec_stop_footprint (state w) w) as (Hs1 & Hc1 & _).
  pose proof (rec_leak_newAudioContext c _ H1) as H2.
  assert (Hnew : S (counter (host (stopRecording (state w) w))) <> c).
  { rewrite Hc1. destruct H as (_ & _ & Hle & _). lia. }
  destruct i as [acq raises | t | d | h raises | r | f | | | k acq raises
                 | perm | devices]; cbn [step].
  - case_eq (isRecording (state w)); intros Hr; [exact H1|].
    rewrite rec_startRecording_split.
    case_eq (String.eqb (selectedDevice (state w)) ""); intros Hd.
    { unfold startRecording_request. rewrite Hd. open_world w. exact H. }
    rewrite rec_request_footprint by exact Hd.
    destruct acq as [|m].
    + apply rec_leak_settle_granted; assumption.
    + apply rec_leak_settle_rejected; assumption.
  - open_world w. exact H.
  - case_eq (isRecording (state w)); intros _; [exact H|]. open_world w. exact H.
  - unfold find_frame. rewrite (proj1 Hst). exact H.
  - open_world w. exact H.
  - open_world w. exact H.
  - apply rec_leak_stop; [discriminate|]. open_world w. exact H.
  - case_eq (isRecording (state w)); intros Hr; [exact H1|].
    case_eq (String.eqb (selectedDevice (state w)) ""); intros Hd.
    { unfold startRecording_request. rewrite Hd. open_world w. exact H. }
    rewrite rec_request_footprint by exact Hd.
    exact (rec_leak_request (state w) c (stopRecording (state w) w)
             Hstate H1 Hnew).
  - destruct (nth_error (starting (host w)) k) as [cl|] eqn:Hk; [|exact H].
    destruct (rec_leak_drop k cl c w H Hk) as (Hd & Hc0 & Hp0).
    assert (Hcl : isRecording (startProps cl) = false).
    { destruct Hst as (_ & _ & Hf). rewrite Forall_forall in Hf.
      apply Hf. exact (nth_error_In _ _ Hk). }
    destruct acq as [|m].
    + apply rec_leak_settle_granted; assumption.
    + apply rec_leak_settle_rejected; assumption.
  - destruct (effect (host w)); try exact H.
    open_world w. destruct perm, mounted0; run_handlers;
      (eapply rec_leak_frame;
       [exact H | simpl; lia | reflexivity | right; reflexivity
       | intros ?; assumption]).
  - destruct (effect (host w)); try exact H.
    open_world w. unfold loadAudioDevices_devices. cbn [mounted host].
    destruct mounted0;
      [destruct (map _ (filter Media.is_audioinput devices))|];
      cbn [String.eqb selectedDevice props0]; run_handlers;
      (eapply rec_leak_frame;
       [exact H | simpl; lia | reflexivity | right; reflexivity
       | intros ?; assumption]).
Qed.

Lemma rec_leak_run (inputs : list Input) :
  forall (w : World) (c : nat),
    stale w -> leaked c w -> leaked c (run inputs w).
Proof.
  induction inputs as [|i inputs IH]; intros w c Hst HJ; [exact HJ|].
  simpl. apply IH; [apply rec_stale_step, Hst | apply rec_leak_step; assumption].
Qed.

(** A refused start: the context it created stays open, and the state
    names none. *)
Lemma rec_start_refused_context (m : string) (raises : bool) (w : World) :
  String.eqb (selectedDevice (state w)) "" = false ->
  (forall c, audioContext (state w) = Some c -> (c <= counter (host w))%nat) ->
  let c := S (counter (host w)) in
  let w' := startRecording (state w) (Rejected m) raises w in
  In c (contexts (host w')) /\ audioContext (state w') = None
  /\ counter (host w') = c
  /\ starting (host w') = starting (host w)
  /\ (forall e, In e (trace w') -> e = context_closed c -> In e (trace w)).
Proof.
  intros Hd Hk. cbv zeta.
  remember (startRecording (state w) (Rejected m) raises w) as w' eqn:E.
  unfold startRecording in E. rewrite Hd in E. clear Hd. revert E.
  open_world w. simpl in Hk.
  destruct animationFrameId0, streamRef0, sourceRef0,
    audioContext0 as [c'|], mounted0; run_handlers; intros ->;
    cbn [state host trace audioContext contexts counter starting];
    try (assert (Hc' : (c' <= counter0)%nat) by (apply Hk; reflexivity));
    (split;
     [ repeat first [ left; reflexivity
                    | apply rec_in_remove_id; [lia|] ]
     | split; [reflexivity|]; split; [reflexivity|]; split; [reflexivity|];
       intros e Hin ->;
       repeat (apply in_app_or in Hin; destruct Hin as [Hin|Hin];
               [|destruct Hin as [Hin|[]]; first [discriminate Hin
                                                 | injection Hin as Hin; lia]]);
       exact Hin ]).
Qed.

(** A frame cycle of an existing closure does not see a change of style. *)
Lemma rec_drawFrame_ignores_style (cl : FrameClosure) (raises : bool)
    (t : VisualizationType) (w : World) :
  trace (drawFrame cl raises (step (choose_style t) w))
  = trace (drawFrame cl raises w).
Proof.
  cbn [step]. open_world w. destruct cl as [p an r0 n]. open_props p.
  destruct rc, raises, animationFrameId0, streamRef0, sourceRef0, ctx, mounted0;
    run_handlers; reflexivity.
Qed.

(** The button's [stopRecording] closes the context the state names. *)
Lemma rec_stop_closes_context (c : nat) (w : World) :
  audioContext (state w) = Some c ->
  let w' := stopRecording (state w) w in
  audioContext (state w') = None
  /\ ~ In c (contexts (host w'))
  /\ In (context_closed c) (trace w').
Proof.
  intros Hc. open_world w. simpl in Hc. subst.
  destruct animationFrameId0, streamRef0, sourceRef0, mounted0; run_handlers;
    (split; [reflexivity|]; split;
     [apply rec_not_in_remove_id | rewrite !in_app_iff; simpl; auto 10]).
Qed.

(** The cleanup of the first render's effect closes no context, and it
    stops the stream the ref holds. *)
Lemma rec_unmount_keeps_context (w : World) :
  let w' := step unmount w in
  contexts (host w') = contexts (host w)
  /\ audioContext (state w') = audioContext (state w)
  /\ isRecording (state w') = false
  /\ streamRef (refs w') = None
  /\ liveStreams (host w')
     = match streamRef (refs w) with
       | Some s => remove_id s (liveStreams (host w))
       | None => liveStreams (host w)
       end.
Proof.
  cbn [step]. open_world w. unfold props0.
  destruct animationFrameId0, streamRef0, sourceRef0; run_handlers;
    repeat split; reflexivity.
Qed.

(** The continuation of a start whose stream is granted, for a handler
    whose render was not recording, with the canvas mounted. *)
Lemma rec_settle_granted (p : Props) (context : nat) (raises : bool) (w : World) :
  isRecording p = false -> animationFrameId (refs w) = None ->
  mounted (host w) = true ->
  let w' := startRecording_settle p context Granted raises w in
  exists stream source analyserNode,
    isRecording (state w') = true
    /\ audioContext (state w') = Some context
    /\ contexts (host w') = contexts (host w)
    /\ analyser (state w') = Some analyserNode
    /\ (counter (host w) < stream)%nat
    /\ streamRef (refs w') = Some stream
    /\ liveStreams (host w') = stream :: liveStreams (host w)
    /\ sourceRef (refs w') = Some source
    /\ connected (host w') = source :: connected (host w)
    /\ size (host w')
       = {| width := canvas_dimension 300 (width (box (host w)));
            height := canvas_dimension 150 (height (box (host w))) |}
    /\ debugInfo (state w') = Text "Recording started"
    /\ frames (host w') = frames (host w)
    /\ animationFrameId (refs w') = None
    /\ last (trace w') uncaught
       = console_log "Recording stopped, cleaning up animation frame".
Proof.
  intros Hp Ha Hm. cbv zeta.
  remember (startRecording_settle p context Granted raises w) as w' eqn:E.
  revert E. open_world w. open_props p. simpl in Hp, Ha, Hm. subst.
  run_handlers; intros ->;
    cbn [state refs host trace isRecording audioContext analyser debugInfo
         streamRef sourceRef animationFrameId liveStreams connected contexts
         size box frames counter];
    do 3 eexists;
    (repeat (split; [first [reflexivity | apply Nat.lt_succ_diag_r]|]));
    apply last_last.
Qed.

End RecordingLoop.

(** X13.  Second revision: in every world reachable through the page's
    events no sample has been read from the analyser, no frame has been
    requested and none is pending, and all that has been painted is the
    background fill: the [drawFrame] that the button's [startRecording]
    creates saw [isRecording = false], so it returns at its first test. *)
Theorem recording_never_draws (w : Recording.World) :
  Recording.reachable w ->
  ~ In read_frequency (Recording.trace w)
  /\ ~ In read_time_domain (Recording.trace w)
  /\ (forall h, ~ In (frame_requested h) (Recording.trace w))
  /\ Recording.frames (Recording.host w) = []
  /\ (forall cmds, In (painted cmds) (Recording.trace w) ->
        exists r, cmds = [fillStyle (Css "rgb(20, 20, 20)");
                          fillRect 0 0 (width r) (height r)]).
Proof.
  intros Hw.
  pose proof (RecordingFacts.rec_reachable_quiet w Hw) as H.
  split; [exact (H read_frequency)|].
  split; [exact (H read_time_domain)|].
  split; [intros h; exact (H (frame_requested h))|].
  split; [exact (proj1 (RecordingFacts.rec_reachable_stale w Hw))|].
  intros cmds. exact (H (painted cmds)).
Qed.

Lemma recording_never_draws_witness :
  Recording.reachable recording
  /\ Recording.isRecording (Recording.state recording) = true
  /\ ~ In read_frequency (Recording.trace recording)
  /\ Recording.frames (Recording.host recording) = [].
Proof.
  split; [exact recording_reachable|]. split; [reflexivity|].
  destruct (recording_never_draws recording recording_reachable)
    as (H1 & _ & _ & H4 & _).
  split; [exact H1 | exact H4].
Defined.

(** X14.  Second revision: a change of style does not reach a [drawFrame]
    closure that already exists.  What a frame cycle of the closure does is
    the same whether or not the style was changed before it, and a cycle past
    the recording test paints the transform of the style its render saw. *)
Theorem style_change_does_not_reach_frame (cl : Recording.FrameClosure)
    (t : Recording.VisualizationType) (w : Recording.World) :
  (forall raises,
     Recording.trace
       (Recording.drawFrame cl raises (Recording.step (Recording.choose_style t) w))
     = Recording.trace (Recording.drawFrame cl raises w))
  /\ (Recording.isRecording (Recording.props cl) = true ->
      In (painted (Recording.transform
                     (Recording.visualizationType (Recording.props cl))
                     (Recording.frequencyData (Recording.host w))
                     (Recording.rect cl)))
         (Recording.trace
            (Recording.drawFrame cl false
               (Recording.step (Recording.choose_style t) w)))).
Proof.
  assert (Hsame : forall raises,
            Recording.trace
              (Recording.drawFrame cl raises
                 (Recording.step (Recording.choose_style t) w))
            = Recording.trace (Recording.drawFrame cl raises w)).
  { intros raises. apply RecordingLoop.rec_drawFrame_ignores_style. }
  split; [exact Hsame|].
  intros Hr. rewrite Hsame. apply RecordingFacts.rec_drawFrame_paints, Hr.
Qed.

Lemma style_change_does_not_reach_frame_witness :
  Recording.isRecording (Recording.props (frame_closure Recording.straight)) = true
  /\ In (painted (Recording.transform Recording.straight
                    (Recording.frequencyData (Recording.host recording)) surface))
        (Recording.trace
           (Recording.drawFrame (frame_closure Recording.straight) false
              (Recording.step (Recording.choose_style Recording.bar) recording))).
Proof.
  split; [reflexivity|].
  exact (proj2 (style_change_does_not_reach_frame
                  (frame_closure Recording.straight) Recording.bar recording)
           eq_refl).
Defined.

(** X15.  Second revision: a click on Start whose stream is refused, in a
    reachable world that is not recording and has a device selected, leaves
    the audio context it created open on the host while the state names no
    context.  No later event closes it: after any further events it is still
    open and still not the context the state names. *)
Theorem refused_start_leaks_context (m : string) (raises : bool)
    (inputs : list Recording.Input) (w : Recording.World) :
  Recording.reachable w ->
  Recording.isRecording (Recording.state w) = false ->
  String.eqb (Recording.selectedDevice (Recording.state w)) "" = false ->
  let c := S (Recording.counter (Recording.host w)) in
  let w' := Recording.step (Recording.click (Rejected m) raises) w in
  In c (Recording.contexts (Recording.host w'))
  /\ Recording.audioContext (Recording.state w') = None
  /\ (In (context_closed c) (Recording.trace w') ->
      In (context_closed c) (Recording.trace w))
  /\ In c (Recording.contexts (Recording.host (Recording.run inputs w')))
  /\ Recording.audioContext (Recording.state (Recording.run inputs w')) <> Some c.
Proof.
  intros Hw Hr Hd c w'.
  destruct (RecordingFacts.rec_reachable_tracked w Hw)
    as (Hst & Hk1 & Hk2 & _).
  assert (Hst' : Recording.stale w') by (apply RecordingFacts.rec_stale_step, Hst).
  destruct (RecordingLoop.rec_start_refused_context m raises w Hd
              (fun x E => Hk1 x (or_introl E)))
    as (Hin & Hnone & Hc & Hs & Hcl).
  assert (E : w' = Recording.startRecording (Recording.state w) (Rejected m) raises w).
  { unfold w'. cbn [Recording.step]. rewrite Hr. reflexivity. }
  rewrite <- E in Hin, Hnone, Hc, Hs, Hcl.
  split; [exact Hin|]. split; [exact Hnone|].
  split; [intros H; exact (Hcl _ H eq_refl)|].
  assert (HJ : Recording.leaked c w').
  { unfold Recording.leaked, Recording.named. rewrite Hs, Hnone, Hc.
    split; [exact Hin|]. split; [|split; [fold c; lia|]].
    - intros [H|H]; [discriminate H|].
      assert (Hle : (c <= Recording.counter (Recording.host w))%nat)
        by (apply Hk1; right; exact H).
      unfold c in Hle. lia.
    - intros H. apply in_map_iff in H as (cl & Ecl & Hcl').
      rewrite Forall_forall in Hk2. destruct (Hk2 cl Hcl') as (Hle & _).
      rewrite Ecl in Hle. unfold c in Hle. lia. }
  destruct (RecordingLoop.rec_leak_run inputs w' c Hst' HJ) as (H1 & H2 & _).
  split; [exact H1|]. intros H. apply H2. left. exact H.
Qed.

Lemma refused_start_leaks_context_witness :
  let w := Recording.step (Recording.choose_device "mic-1") (Recording.mount surface) in
  let w' := Recording.step (Recording.click (Rejected "Permission denied") false) w in
  Recording.reachable w
  /\ Recording.isRecording (Recording.state w) = false
  /\ String.eqb (Recording.selectedDevice (Recording.state w)) "" = false
  /\ In 1%nat
       (Recording.contexts
          (Recording.host
             (Recording.run
                [Recording.click Granted false; Recording.click Granted false;
                 Recording.unmount] w'))).
Proof.
  cbv zeta.
  assert (Hw : Recording.reachable
                 (Recording.step (Recording.choose_device "mic-1")
                    (Recording.mount surface))).
  { exact (Recording.reachable_step _ _ (Recording.reachable_mount surface)). }
  split; [exact Hw|]. split; [reflexivity|]. split; [reflexivity|].
  exact (proj1 (proj2 (proj2 (proj2
           (refused_start_leaks_context "Permission denied" false
              [Recording.click Granted false; Recording.click Granted false;
               Recording.unmount] _ Hw eq_refl eq_refl))))).
Defined.

(** X16.  Second revision: while recording in a reachable world the state
    names an audio context that is open on the host.  A click on Stop closes
    it and clears the state; unmounting does not: the cleanup is the
    [stopRecording] of the first render, which saw no context, so the stream
    the ref holds is stopped and the recording flag cleared but the context
    stays open.  No stream is left live by the unmount when the stream the
    ref held was the only one. *)
Theorem stop_closes_context_unmount_does_not (w : Recording.World) :
  Recording.reachable w ->
  Recording.isRecording (Recording.state w) = true ->
  exists c,
    Recording.audioContext (Recording.state w) = Some c
    /\ In c (Recording.contexts (Recording.host w))
    /\ (forall acq raises,
          let w' := Recording.step (Recording.click acq raises) w in
          Recording.audioContext (Recording.state w') = None
          /\ ~ In c (Recording.contexts (Recording.host w'))
          /\ In (context_closed c) (Recording.trace w'))
    /\ (let w' := Recording.step Recording.unmount w in
        Recording.contexts (Recording.host w') = Recording.contexts (Recording.host w)
        /\ Recording.audioContext (Recording.state w') = Some c
        /\ Recording.isRecording (Recording.state w') = false
        /\ Recording.streamRef (Recording.refs w') = None
        /\ (forall s, Recording.streamRef (Recording.refs w) = Some s ->
                      ~ In s (Recording.liveStreams (Recording.host w')))
        /\ (Recording.liveStreams (Recording.host w)
            = option_list (Recording.streamRef (Recording.refs w)) ->
            Recording.liveStreams (Recording.host w') = [])).
Proof.
  intros Hw Hr.
  destruct (RecordingFacts.rec_reachable_tracked w Hw) as (_ & _ & _ & _ & Hk4).
  destruct (Hk4 Hr) as (c & Hc & Hin).
  exists c. split; [exact Hc|]. split; [exact Hin|]. split.
  - intros acq raises. cbn [Recording.step]. rewrite Hr.
    exact (RecordingLoop.rec_stop_closes_context c w Hc).
  - destruct (RecordingLoop.rec_unmount_keeps_context w) as (H1 & H2 & H3 & H4 & H5).
    cbv zeta. split; [exact H1|]. split; [rewrite H2; exact Hc|].
    split; [exact H3|]. split; [exact H4|]. split.
    + intros s Hs. rewrite H5, Hs. apply RecordingLoop.rec_not_in_remove_id.
    + intros Hl. rewrite H5, Hl.
      destruct (Recording.streamRef (Recording.refs w)) as [s|]; [|reflexivity].
      apply remove_id_self.
Qed.

Lemma stop_closes_context_unmount_does_not_witness :
  Recording.reachable recording
  /\ Recording.isRecording (Recording.state recording) = true
  /\ exists c,
       Recording.audioContext (Recording.state recording) = Some c
       /\ In c (Recording.contexts
                  (Recording.host (Recording.step Recording.unmount recording))).
Proof.
  split; [exact recording_reachable|]. split; [reflexivity|].
  destruct (stop_closes_context_unmount_does_not recording recording_reachable eq_refl)
    as (c & Hc & Hin & _ & Hu & _).
  exists c. split; [exact Hc|]. rewrite Hu. exact Hin.
Defined.

(** X17.  Second revision: when the [getUserMedia] promise of a pending
    start resolves with a stream, in whatever reachable world that happens
    while the canvas is mounted, the component ends recording; the state
    names the audio context that this start created, which is open; the
    stream is one more live stream, not live before, and [streamRef] holds
    it; the source is one more connected source.  The canvas is sized to its
    layout box, each side converted to the [unsigned long] of the attribute
    (a whole number of pixels is kept as it is), and the debug line is
    "Recording started".  The first frame cycle only logs that recording has
    stopped: it saw the state of the render that was clicked.  No frame
    request is pending. *)
Theorem granted_start_records_without_drawing (k : nat) (raises : bool)
    (cl : Recording.StartClosure) (w : Recording.World) :
  Recording.reachable w ->
  nth_error (Recording.starting (Recording.host w)) k = Some cl ->
  Recording.mounted (Recording.host w) = true ->
  let w' := Recording.step (Recording.settle k Granted raises) w in
  exists stream source analyserNode,
    Recording.isRecording (Recording.state w') = true
    /\ Recording.audioContext (Recording.state w') = Some (Recording.startContext cl)
    /\ In (Recording.startContext cl) (Recording.contexts (Recording.host w'))
    /\ Recording.analyser (Recording.state w') = Some analyserNode
    /\ Recording.streamRef (Recording.refs w') = Some stream
    /\ ~ In stream (Recording.liveStreams (Recording.host w))
    /\ Recording.liveStreams (Recording.host w')
       = stream :: Recording.liveStreams (Recording.host w)
    /\ Recording.sourceRef (Recording.refs w') = Some source
    /\ Recording.connected (Recording.host w')
       = source :: Recording.connected (Recording.host w)
    /\ Recording.size (Recording.host w')
       = {| width := canvas_dimension 300
                       (width (Recording.box (Recording.host w)));
            height := canvas_dimension 150
                        (height (Recording.box (Recording.host w))) |}
    /\ (forall m n : Z,
          (0 <= m <= 2147483647)%Z -> (0 <= n <= 2147483647)%Z ->
          Recording.box (Recording.host w) = {| width := IZR m; height := IZR n |} ->
          Recording.size (Recording.host w') = Recording.box (Recording.host w))
    /\ Recording.debugInfo (Recording.state w') = Recording.Text "Recording started"
    /\ Recording.frames (Recording.host w') = []
    /\ Recording.animationFrameId (Recording.refs w') = None
    /\ last (Recording.trace w') uncaught
       = console_log "Recording stopped, cleaning up animation frame".
Proof.
  intros Hw Hk Hm. cbn [Recording.step]. rewrite Hk.
  destruct (RecordingFacts.rec_reachable_tracked w Hw)
    as ((Hf & Ha & Hcls) & _ & Hk2 & _).
  destruct (RecordingFacts.rec_reachable_accounted w Hw) as (_ & Hb & _).
  assert (Hcl : In cl (Recording.starting (Recording.host w)))
    by exact (nth_error_In _ _ Hk).
  rewrite Forall_forall in Hcls, Hk2.
  pose proof (Hcls cl Hcl) as Hp. cbv beta in Hp.
  destruct (Hk2 cl Hcl) as (_ & Hin & _).
  pose proof (RecordingLoop.rec_settle_granted (Recording.startProps cl)
                (Recording.startContext cl) raises
                (Recording.set_starting
                   (remove_nth k (Recording.starting (Recording.host w))) w) Hp)
    as H.
  clear Hk Hcl Hcls Hk2 Hp Hw.
  destruct w as [st rf hs tr]. destruct hs.
  cbn [Recording.set_starting Recording.on_host Recording.host Recording.refs
       Recording.state Recording.trace Recording.mounted Recording.box
       Recording.size Recording.frequencyData Recording.liveStreams
       Recording.connected Recording.contexts Recording.counter
       Recording.frames Recording.effect Recording.starting] in *.
  destruct (H Ha Hm) as (stream & source & analyserNode & H1 & H2 & H3 & H4 & H5
                         & H6 & H7 & H8 & H9 & H10 & H11 & H12 & H13 & H14).
  exists stream, source, analyserNode.
  split; [exact H1|]. split; [exact H2|]. split; [rewrite H3; exact Hin|].
  split; [exact H4|]. split; [exact H6|]. split.
  { intros Hs. rewrite Forall_forall in Hb. apply Hb in Hs. lia. }
  split; [exact H7|]. split; [exact H8|]. split; [exact H9|].
  split; [exact H10|]. split.
  { intros m n Hm' Hn' E. rewrite H10, E. cbn [width height].
    rewrite !canvas_dimension_integer by assumption. reflexivity. }
  split; [exact H11|]. split; [rewrite H12; exact Hf|].
  split; [exact H13 | exact H14].
Qed.

Lemma granted_start_records_without_drawing_witness :
  let w := Recording.run [Recording.choose_device "mic-1"; Recording.press]
             (Recording.mount surface) in
  Recording.reachable w
  /\ nth_error (Recording.starting (Recording.host w)) 0
     = Some {| Recording.startProps :=
                 Recording.state
                   (Recording.step (Recording.choose_device "mic-1")
                      (Recording.mount surface));
               Recording.startContext := 1%nat |}
  /\ Recording.mounted (Recording.host w) = true
  /\ exists stream,
       Recording.liveStreams
         (Recording.host (Recording.step (Recording.settle 0 Granted false) w))
       = stream :: Recording.liveStreams (Recording.host w).
Proof.
  cbv zeta.
  assert (Hw : Recording.reachable
                 (Recording.run [Recording.choose_device "mic-1"; Recording.press]
                    (Recording.mount surface))).
  { exact (Recording.reachable_step _ _
             (Recording.reachable_step _ _ (Recording.reachable_mount surface))). }
  split; [exact Hw|]. split; [reflexivity|]. split; [reflexivity|].
  destruct (granted_start_records_without_drawing 0 false _ _ Hw eq_refl eq_refl)
    as (stream & source & an & H).
  exists stream. exact (proj1 (proj2 (proj2 (proj2 (proj2 (proj2 (proj2 H))))))).
Defined.

(** ** Streams and contexts that no ref holds *)

(** Two clicks on Start Recording before the first request is answered
    open two audio contexts and two streams; the state and the refs name the
    later ones, and a click on Stop leaves the earlier stream live and the
    earlier context open. *)
Remark overlapping_recordings_leave_a_stream :
  Recording.liveStreams (Recording.host recording_twice) = [6; 3]%nat
  /\ Recording.contexts (Recording.host recording_twice) = [2; 1]%nat
  /\ Recording.streamRef (Recording.refs recording_twice) = Some 6%nat
  /\ Recording.audioContext (Recording.state recording_twice) = Some 2%nat
  /\ (let w := Recording.step (Recording.click Granted false) recording_twice in
      Recording.isRecording (Recording.state w) = false
      /\ Recording.liveStreams (Recording.host w) = [3%nat]
      /\ Recording.contexts (Recording.host w) = [1%nat]).
Proof.
  split; [reflexivity|]. split; [reflexivity|]. split; [reflexivity|].
  split; [reflexivity|]. cbv zeta.
  split; [reflexivity|]. split; reflexivity.
Qed.

(** * The device list *)

Lemma label_or_default_nonempty (label deviceId : string) :
  Media.label_or_default label deviceId <> ""%string.
Proof.
  unfold Media.label_or_default.
  destruct (String.eqb_spec label ""); [discriminate | assumption].
Qed.

Module VisualizationDevices.
Import Visualization.
Import VisualizationFacts.

#[local] Arguments transform : simpl never.

(** A live stream that [streamRef] does not hold is stopped by no handler. *)
Lemma vis_unheld_stream_step (i : Input) (w : World) (s : nat) :
  In s (liveStreams (host w)) /\ streamRef (refs w) <> Some s
  /\ (s <= counter (host w))%nat /\ ~ In (track_stopped s) (trace w) ->
  In s (liveStreams (host (step i w))) /\ streamRef (refs (step i w)) <> Some s
  /\ (s <= counter (host (step i w)))%nat
  /\ ~ In (track_stopped s) (trace (step i w)).
Proof.
  intros (Hin & Hne & Hle & Hnt).
  assert (Hstop :
            In s (liveStreams (host (stopVisualization w)))
            /\ streamRef (refs (stopVisualization w)) <> Some s
            /\ (s <= counter (host (stopVisualization w)))%nat
            /\ ~ In (track_stopped s) (trace (stopVisualization w))).
  { open_world w. simpl in Hin, Hne, Hle, Hnt.
    destruct animationRef0 as [|h], sourceRef0, streamRef0 as [s'|]; run_handlers;
      (split;
       [ first [exact Hin
               | apply RecordingLoop.rec_in_remove_id; [congruence | exact Hin]]
       | split; [first [exact Hne | discriminate]|]; split; [exact Hle|];
         intros Hin';
         repeat (apply in_app_or in Hin'; destruct Hin' as [Hin'|Hin'];
                 [|destruct Hin' as [E|[]];
                   first [discriminate E | injection E as E; congruence]]);
         exact (Hnt Hin') ]). }
  assert (Hsame : In s (liveStreams (host w)) /\ streamRef (refs w) <> Some s
                  /\ (s <= counter (host w))%nat
                  /\ ~ In (track_stopped s) (trace w))
    by (split; [exact Hin | split; [exact Hne | split; [exact Hle | exact Hnt]]]).
  assert (Hsettle : forall acq raises n,
            let w' := startVisualization_settle acq raises (set_starting n w) in
            In s (liveStreams (host w')) /\ streamRef (refs w') <> Some s
            /\ (s <= counter (host w'))%nat
            /\ ~ In (track_stopped s) (trace w')).
  { intros acq raises n. cbv zeta. clear Hstop Hsame.
    open_world w. simpl in Hin, Hne, Hle, Hnt.
    destruct acq, canvas0, analyserRef0, raises, visualizationTypeRef0;
      run_handlers;
      (split;
       [ first [exact Hin | right; exact Hin]
       | split;
         [ first [exact Hne | intros E; injection E as E; lia]
         | split; [lia|];
           intros Hin';
           repeat (apply in_app_or in Hin'; destruct Hin' as [Hin'|Hin'];
                   [|destruct Hin' as [E|[]]; discriminate E]);
           exact (Hnt Hin') ] ]). }
  assert (Hreq : forall w',
            startVisualization_request w = Some w' ->
            In s (liveStreams (host w')) /\ streamRef (refs w') <> Some s
            /\ (s <= counter (host w'))%nat
            /\ ~ In (track_stopped s) (trace w')).
  { intros w'. unfold startVisualization_request.
    destruct (String.eqb (selectedMicrophone (state w)) ""); [discriminate|].
    clear Hstop Hsame Hsettle. open_world w. simpl in Hin, Hne, Hle, Hnt.
    destruct audioContextRef0; intros E; injection E as <-; run_handlers;
      (split; [exact Hin|]; split; [exact Hne|]; split; [lia|]; exact Hnt). }
  destruct i as [acq raises | t | d | h raises | r | f t | | | acq raises
                 | perm | devices]; cbn [step].
  - unfold handleToggleRecording.
    case_eq (isRecording (state w)); intros _; [exact Hstop|].
    clear Hstop. unfold startVisualization.
    case_eq (String.eqb (selectedMicrophone (state w)) ""); intros _;
      [exact Hsame|].
    clear Hsame Hsettle Hreq.
    open_world w. simpl in Hin, Hne, Hle, Hnt.
    destruct audioContextRef0, acq, canvas0, raises, visualizationTypeRef0;
      run_handlers;
      (split;
       [ first [exact Hin | right; exact Hin]
       | split;
         [ first [exact Hne | intros E; injection E as E; lia]
         | split; [lia|];
           intros Hin';
           repeat (apply in_app_or in Hin'; destruct Hin' as [Hin'|Hin'];
                   [|destruct Hin' as [E|[]]; discriminate E]);
           exact (Hnt Hin') ] ]).
  - open_world w. exact Hsame.
  - case_eq (isRecording (state w)); intros _; [exact Hsame|].
    open_world w. exact Hsame.
  - clear Hstop Hsettle Hreq. destruct (find_frame h w) as [cl|]; [|exact Hsame].
    clear Hsame. open_world w. simpl in Hin, Hne, Hle, Hnt.
    destruct raises, visualizationTypeRef0; run_handlers;
      (split; [exact Hin|]; split; [exact Hne|]; split; [lia|];
       intros Hin';
       repeat (apply in_app_or in Hin'; destruct Hin' as [Hin'|Hin'];
               [|destruct Hin' as [E|[]]; discriminate E]);
       exact (Hnt Hin')).
  - destruct (canvas (host w)); [|exact Hsame]. open_world w. exact Hsame.
  - open_world w. exact Hsame.
  - destruct (stopVisualization w) as [st rf hs tr]. destruct hs. exact Hstop.
  - case_eq (isRecording (state w)); intros _; [exact Hstop|].
    destruct (startVisualization_request w) as [w'|]; [|exact Hsame].
    destruct (Hreq w' eq_refl) as (H1 & H2 & H3 & H4).
    destruct w' as [st rf hs tr]. destruct hs.
    split; [exact H1 | split; [exact H2 | split; [exact H3 | exact H4]]].
  - destruct (starting (host w)) as [|n]; [exact Hsame|].
    exact (Hsettle acq raises n).
  - destruct (effect (host w)); try exact Hsame.
    clear Hstop Hsame Hsettle Hreq. open_world w. simpl in Hin, Hne, Hle, Hnt.
    destruct perm; run_handlers;
      (split;
       [ first [exact Hin | right; exact Hin]
       | split; [exact Hne|]; split; [lia|];
         intros Hin';
         repeat (apply in_app_or in Hin'; destruct Hin' as [Hin'|Hin'];
                 [|destruct Hin' as [E|[]]; discriminate E]);
         exact (Hnt Hin') ]).
  - destruct (effect (host w)); try exact Hsame.
    clear Hstop Hsettle Hreq. open_world w. unfold getMicrophones_devices.
    destruct (filter Media.is_audioinput devices); exact Hsame.
Qed.

Lemma vis_unheld_stream_run (inputs : list Input) :
  forall (w : World) (s : nat),
    In s (liveStreams (host w)) /\ streamRef (refs w) <> Some s
    /\ (s <= counter (host w))%nat /\ ~ In (track_stopped s) (trace w) ->
    In s (liveStreams (host (run inputs w)))
    /\ ~ In (track_stopped s) (trace (run inputs w)).
Proof.
  induction inputs as [|i inputs IH]; intros w s H.
  - split; [exact (proj1 H) | exact (proj2 (proj2 (proj2 H)))].
  - simpl. apply IH, vis_unheld_stream_step, H.
Qed.

(** What [getMicrophones] does to a world when permission is granted. *)
Lemma vis_getMicrophones_granted (devices : list Media.MediaDeviceInfo) (w : World) :
  let mics := filter Media.is_audioinput devices in
  let w' := snd (getMicrophones Granted devices w) in
  fst (getMicrophones Granted devices w) = Some mics
  /\ selectedMicrophone (state w')
     = match mics with
       | first :: _ => Media.deviceId first
       | [] => selectedMicrophone (state w)
       end
  /\ visualizationType (state w') = visualizationType (state w)
  /\ isRecording (state w') = isRecording (state w)
  /\ refs w' = refs w
  /\ liveStreams (host w') = S (counter (host w)) :: liveStreams (host w)
  /\ counter (host w') = S (counter (host w))
  /\ trace w' = trace w ++ [opened (S (counter (host w)))].
Proof.
  cbv zeta. unfold getMicrophones. open_world w.
  destruct (filter Media.is_audioinput devices) as [|mic mics];
    run_handlers; repeat split; reflexivity.
Qed.

End VisualizationDevices.

Module RecordingDevices.
Import Recording.
Import RecordingFacts.

(** What [loadAudioDevices] does to a world when permission is granted and
    the component is still mounted. *)
Lemma rec_loadAudioDevices_granted (devices : list Media.MediaDeviceInfo) (w : World) :
  let inputs := filter Media.is_audioinput devices in
  let w' := snd (loadAudioDevices Granted devices true w) in
  exists audioDevices,
    fst (loadAudioDevices Granted devices true w) = Some audioDevices
    /\ map deviceId audioDevices = map Media.deviceId inputs
    /\ map label audioDevices
       = map (fun d => Media.label_or_default (Media.label d) (Media.deviceId d))
           inputs
    /\ selectedDevice (state w')
       = match inputs with
         | first :: _ => Media.deviceId first
         | [] => selectedDevice (state w)
         end
    /\ debugInfo (state w')
       = Text ("Audio devices loaded: " ++ Media.decimal (List.length inputs))
    /\ isRecording (state w') = isRecording (state w)
    /\ refs w' = refs w
    /\ liveStreams (host w')
       = remove_id (S (counter (host w)))
           (S (counter (host w)) :: liveStreams (host w))
    /\ trace w'
       = trace w ++ [opened (S (counter (host w)));
                     track_stopped (S (counter (host w)))].
Proof.
  cbv zeta. unfold loadAudioDevices.
  exists (map (fun device =>
                 {| deviceId := Media.deviceId device;
                    label := Media.label_or_default (Media.label device)
                               (Media.deviceId device) |})
            (filter Media.is_audioinput devices)).
  assert (Hid : forall l : list Media.MediaDeviceInfo,
            map deviceId
              (map (fun device =>
                      {| deviceId := Media.deviceId device;
                         label := Media.label_or_default (Media.label device)
                                    (Media.deviceId device) |}) l)
            = map Media.deviceId l).
  { intros l. rewrite map_map. reflexivity. }
  assert (Hlab : forall l : list Media.MediaDeviceInfo,
            map label
              (map (fun device =>
                      {| deviceId := Media.deviceId device;
                         label := Media.label_or_default (Media.label device)
                                    (Media.deviceId device) |}) l)
            = map (fun d => Media.label_or_default (Media.label d)
                              (Media.deviceId d)) l).
  { intros l. rewrite map_map. reflexivity. }
  split; [|split; [apply Hid|split; [apply Hlab|]]].
  - open_world w.
    destruct (filter Media.is_audioinput devices) as [|mic mics]; reflexivity.
  - clear Hid Hlab. open_world w.
    destruct (filter Media.is_audioinput devices) as [|mic mics].
    + cbn [map String.eqb selectedDevice props0 List.length]. run_handlers.
      split; [reflexivity|]. split; [reflexivity|]. split; [reflexivity|].
      split; [reflexivity|]. split; [reflexivity|].
      rewrite <- app_assoc. reflexivity.
    + cbn [map String.eqb selectedDevice props0 deviceId]. run_handlers.
      split; [reflexivity|].
      split; [cbn [List.length]; rewrite length_map; reflexivity|].
      split; [reflexivity|]. split; [reflexivity|]. split; [reflexivity|].
      rewrite <- app_assoc. reflexivity.
Qed.

(** [loadAudioDevices] when permission is granted after the component has
    unmounted. *)
Lemma rec_loadAudioDevices_unmounted (devices : list Media.MediaDeviceInfo) (w : World) :
  let r := loadAudioDevices Granted devices false w in
  fst r = None
  /\ state (snd r) = state w
  /\ liveStreams (host (snd r))
     = remove_id (S (counter (host w)))
         (S (counter (host w)) :: liveStreams (host w)).
Proof.
  cbv zeta. unfold loadAudioDevices. open_world w. run_handlers.
  split; [reflexivity|]. split; reflexivity.
Qed.

End RecordingDevices.

(** X18.  First revision: the stream that [getMicrophones] opens to ask for
    permission is kept by no ref and its tracks are stopped by no handler.
    Run in a world whose stream ref and stopped tracks are numbers the host
    has handed out, it leaves a stream that is still live, and never
    stopped, after any sequence of later events: stop and unmount
    included. *)
Theorem permission_stream_is_never_stopped
    (devices : list Media.MediaDeviceInfo) (inputs : list Visualization.Input)
    (w : Visualization.World) :
  (forall s, Visualization.streamRef (Visualization.refs w) = Some s ->
             (s <= Visualization.counter (Visualization.host w))%nat) ->
  (forall s, In (track_stopped s) (Visualization.trace w) ->
             (s <= Visualization.counter (Visualization.host w))%nat) ->
  let stream := S (Visualization.counter (Visualization.host w)) in
  let w0 := snd (Visualization.getMicrophones Granted devices w) in
  In (opened stream) (Visualization.trace w0)
  /\ Visualization.streamRef (Visualization.refs w0)
     = Visualization.streamRef (Visualization.refs w)
  /\ In stream
       (Visualization.liveStreams (Visualization.host (Visualization.run inputs w0)))
  /\ ~ In (track_stopped stream)
         (Visualization.trace (Visualization.run inputs w0)).
Proof.
  intros Hs Ht stream w0.
  destruct (VisualizationDevices.vis_getMicrophones_granted devices w)
    as (_ & _ & _ & _ & Hrefs & Hlive & Hcount & Htrace).
  fold w0 in Hrefs, Hlive, Hcount, Htrace. fold stream in Hlive, Hcount, Htrace.
  split; [rewrite Htrace; apply in_or_app; right; left; reflexivity|].
  split; [rewrite Hrefs; reflexivity|].
  apply VisualizationDevices.vis_unheld_stream_run.
  split; [rewrite Hlive; left; reflexivity|].
  split.
  { rewrite Hrefs. intros E. apply Hs in E. unfold stream in E. lia. }
  split; [rewrite Hcount; lia|].
  rewrite Htrace. intros Hin. apply in_app_or in Hin as [Hin|[E|[]]].
  - apply Ht in Hin. unfold stream in Hin. lia.
  - discriminate E.
Qed.

Lemma permission_stream_is_never_stopped_witness :
  let w0 := snd (Visualization.getMicrophones Granted [] (Visualization.mount surface)) in
  In 1%nat
    (Visualization.liveStreams
       (Visualization.host
          (Visualization.run
             [Visualization.click Granted false; Visualization.click Granted false;
              Visualization.unmount] w0))).
Proof.
  cbv zeta.
  refine (proj1 (proj2 (proj2
            (permission_stream_is_never_stopped []
               [Visualization.click Granted false; Visualization.click Granted false;
                Visualization.unmount] (Visualization.mount surface) _ _)))).
  - intros s E. simpl in E. discriminate E.
  - intros s E. simpl in E. destruct E.
Defined.

(** X19.  Second revision: when permission is granted and the component is
    still mounted, [loadAudioDevices] lists the audio inputs in enumeration
    order under their own ids and with no empty label, selects the first of
    them whatever was selected before (the selection is untouched when there
    is none), and reports their number on the debug line.  The stream opened
    to ask for permission is stopped at once and is not live afterwards.
    When the component has unmounted, no list is set and the state is left
    as it was. *)
Theorem loadAudioDevices_lists_inputs
    (devices : list Media.MediaDeviceInfo) (w : Recording.World) :
  let inputs := filter Media.is_audioinput devices in
  let stream := S (Recording.counter (Recording.host w)) in
  (let w' := snd (Recording.loadAudioDevices Granted devices true w) in
   exists audioDevices,
     fst (Recording.loadAudioDevices Granted devices true w) = Some audioDevices
     /\ map Recording.deviceId audioDevices = map Media.deviceId inputs
     /\ Forall (fun d => Recording.label d <> ""%string) audioDevices
     /\ Recording.selectedDevice (Recording.state w')
        = match inputs with
          | first :: _ => Media.deviceId first
          | [] => Recording.selectedDevice (Recording.state w)
          end
     /\ Recording.debugInfo (Recording.state w')
        = Recording.Text
            ("Audio devices loaded: " ++ Media.decimal (List.length inputs))
     /\ Recording.trace w'
        = Recording.trace w ++ [opened stream; track_stopped stream]
     /\ ~ In stream (Recording.liveStreams (Recording.host w')))
  /\ (let r := Recording.loadAudioDevices Granted devices false w in
      fst r = None
      /\ Recording.state (snd r) = Recording.state w
      /\ ~ In stream (Recording.liveStreams (Recording.host (snd r)))).
Proof.
  cbv zeta. split.
  - destruct (RecordingDevices.rec_loadAudioDevices_granted devices w)
      as (l & Hfst & Hid & Hlab & Hsel & Hdbg & _ & _ & Hlive & Htr).
    exists l. split; [exact Hfst|]. split; [exact Hid|].
    split.
    { apply Forall_forall. intros d Hd.
      apply (in_map Recording.label) in Hd. rewrite Hlab in Hd.
      apply in_map_iff in Hd as (m & <- & _).
      apply label_or_default_nonempty. }
    split; [exact Hsel|]. split; [exact Hdbg|]. split; [exact Htr|].
    rewrite Hlive. apply RecordingLoop.rec_not_in_remove_id.
  - destruct (RecordingDevices.rec_loadAudioDevices_unmounted devices w)
      as (Hfst & Hst & Hlive).
    split; [exact Hfst|]. split; [exact Hst|].
    rewrite Hlive. apply RecordingLoop.rec_not_in_remove_id.
Qed.

(** X20.  First revision: after [getMicrophones] has run at mount, whatever
    its outcome, the microphones in the component's list are exactly the
    enumerated devices of kind ['audioinput'], in enumeration order, and the
    selected microphone is the value of one of the select's options: the
    first microphone when there is one, the placeholder otherwise. *)
Theorem selected_microphone_is_listed (perm : Acquire)
    (devices : list Media.MediaDeviceInfo) (canvas0 : Rect) :
  let r := Visualization.getMicrophones perm devices (Visualization.mount canvas0) in
  let microphones := match fst r with Some l => l | None => [] end in
  In (Visualization.selectedMicrophone (Visualization.state (snd r)))
     (map fst (Visualization.microphoneOptions microphones))
  /\ (forall mic, In mic microphones ->
        In mic devices /\ Media.kind mic = Media.audioinput)
  /\ match perm with
     | Granted => microphones = filter Media.is_audioinput devices
     | Rejected _ =>
         microphones = []
         /\ Visualization.state (snd r)
            = Visualization.state (Visualization.mount canvas0)
     end.
Proof.
  cbv zeta. destruct perm as [|m].
  - destruct (VisualizationDevices.vis_getMicrophones_granted devices
                (Visualization.mount canvas0)) as (Hfst & Hsel & _).
    rewrite Hfst, Hsel. split; [|split; [|reflexivity]].
    + destruct (filter Media.is_audioinput devices) as [|mic mics]; simpl;
        left; reflexivity.
    + intros mic Hin. apply filter_In in Hin as (Hin & Hk).
      split; [exact Hin|]. unfold Media.is_audioinput in Hk.
      destruct (Media.kind mic); [reflexivity | discriminate | discriminate].
  - simpl. split; [left; reflexivity|]. split; [intros mic []|].
    split; reflexivity.
Qed.

(** X21.  First revision: the select is never empty and no option has an
    empty text.  With microphones, there is one option per microphone, in
    order, whose value is the device id and whose text is the label, or
    "Microphone " followed by the first five characters of the id and "..."
    when the label is empty; with none, there is the single placeholder with
    the empty value. *)
Theorem microphone_options (microphones : list Media.MediaDeviceInfo) :
  let options := Visualization.microphoneOptions microphones in
  List.length options = Nat.max 1 (List.length microphones)
  /\ map fst options
     = match microphones with
       | [] => [""%string]
       | _ :: _ => map Media.deviceId microphones
       end
  /\ Forall (fun o => snd o <> ""%string) options
  /\ (forall mic,
        In mic microphones ->
        In (Media.deviceId mic,
            if String.eqb (Media.label mic) ""
            then ("Microphone " ++ substring 0 5 (Media.deviceId mic) ++ "...")%string
            else Media.label mic) options).
Proof.
  cbv zeta. unfold Visualization.microphoneOptions.
  destruct microphones as [|mic mics].
  - simpl. split; [reflexivity|]. split; [reflexivity|].
    split; [repeat constructor; discriminate | intros mic []].
  - cbn [app]. rewrite length_map, map_map. cbn [fst].
    split; [reflexivity|]. split; [reflexivity|]. split.
    + apply Forall_forall. intros o Ho.
      apply in_map_iff in Ho as (m & <- & _). cbn [snd].
      apply label_or_default_nonempty.
    + intros m Hm.
      exact (in_map (fun mic0 =>
                       (Media.deviceId mic0,
                        Media.label_or_default (Media.label mic0)
                          (Media.deviceId mic0))) _ m Hm).
Qed.
